(** * Verification of the chat-agent worker (worker/agent.ts and worker/tools)

    A shallow embedding of the session controller, the planner, the streaming
    relay and the three tool pipelines, followed by the theorems that settle
    the specification's claims about them.

    Conventions.
    - A JavaScript string is a Rocq [string] holding its UTF-8 bytes.
    - A JavaScript number is a [number]: NaN, an infinity or a rational.
    - A computation that may throw returns a [completion]; the primitives of
      the runtime that the source only calls (the URL and JSON parsers, the
      model binding, the headless browser, the object store, the clock) are
      parameters, collected per subsystem in records of oracles. *)

From Stdlib Require Import String Ascii List ZArith QArith Qround Bool Lia.
From Stdlib Require Import DecimalString.
From Stdlib Require Sorting.Permutation Sorting.Sorted.
Import ListNotations.
Local Open Scope string_scope.
Local Open Scope list_scope.

Set Implicit Arguments.

(* ================================================================== *)
(** * JavaScript primitives used by the source *)
(* ================================================================== *)

Module JS.

(** ** Thrown values and completions *)

(** An [Error] object: [name] is the class name ("Error", "TimeoutError",
    "TypeError", ...). *)
Record Error := mkError { name : string; message : string }.

(** [Error.prototype.toString]. *)
Definition Error_toString (e : Error) : string :=
  if (name e =? "")%string then message e
  else if (message e =? "")%string then name e
  else (name e ++ ": " ++ message e)%string.

Inductive completion (A : Type) : Type :=
| Return (a : A)
| Throw (e : Error).
Arguments Return {A} a.
Arguments Throw {A} e.

Definition returned {A} (c : completion A) : bool :=
  match c with Return _ => true | Throw _ => false end.

(** ** Strings *)

(** Truthiness of a string: [!!s]. *)
Definition truthy (s : string) : bool := negb (s =? "")%string.

(** [a || b] on strings. *)
Definition or_else (a b : string) : string := if truthy a then a else b.

Definition startsWith (s p : string) : bool := prefix p s.

Definition includes (s sub : string) : bool :=
  match index 0 sub s with Some _ => true | None => false end.

(** [s.slice(n)] for [n] within the string. *)
Definition slice_from (n : nat) (s : string) : string :=
  substring n (String.length s - n) s.

Definition lower_ascii (c : ascii) : ascii :=
  let n := nat_of_ascii c in
  if (65 <=? n)%nat && (n <=? 90)%nat then ascii_of_nat (n + 32) else c.

(** [toLowerCase], on the ASCII letters (every pattern the source looks for
    in a lower-cased string is ASCII). *)
Fixpoint toLowerCase (s : string) : string :=
  match s with
  | EmptyString => EmptyString
  | String c r => String (lower_ascii c) (toLowerCase r)
  end.

Fixpoint rev_string (s acc : string) : string :=
  match s with
  | EmptyString => acc
  | String c r => rev_string r (String c acc)
  end.

Definition reverse (s : string) : string := rev_string s "".

(** The characters removed by [trim]: ECMAScript WhiteSpace and
    LineTerminator, each as its UTF-8 encoding. *)
Definition byte (n : nat) : ascii := ascii_of_nat n.
Definition chr1 (x : nat) : string := String (byte x) "".
Definition chr2 (x y : nat) : string := String (byte x) (String (byte y) "").
Definition chr3 (x y z : nat) : string :=
  String (byte x) (String (byte y) (String (byte z) "")).

Definition whitespace : list string :=
  [ chr1 9; chr1 10; chr1 11; chr1 12; chr1 13; chr1 32;
    chr2 194 160;                                   (* U+00A0 *)
    chr3 225 154 128;                               (* U+1680 *)
    chr3 226 128 128; chr3 226 128 129; chr3 226 128 130; chr3 226 128 131;
    chr3 226 128 132; chr3 226 128 133; chr3 226 128 134; chr3 226 128 135;
    chr3 226 128 136; chr3 226 128 137; chr3 226 128 138; (* U+2000..U+200A *)
    chr3 226 128 168; chr3 226 128 169;               (* U+2028, U+2029 *)
    chr3 226 128 175;                               (* U+202F *)
    chr3 226 129 159;                               (* U+205F *)
    chr3 227 128 128;                               (* U+3000 *)
    chr3 239 187 191 ].                             (* U+FEFF *)

Definition LF : string := chr1 10.
Definition CR : string := chr1 13.

(** [s.split(LF)]. *)
Fixpoint split_lines (s : string) : list string :=
  match s with
  | EmptyString => [""]
  | String c r =>
      if (nat_of_ascii c =? 10)%nat then "" :: split_lines r
      else match split_lines r with
           | l :: ls => String c l :: ls
           | [] => [String c ""]
           end
  end.

(** [s.replace(/\r\n/g, LF)]. *)
Fixpoint crlf_to_lf (s : string) : string :=
  match s with
  | String c1 ((String c2 r) as t) =>
      if ((nat_of_ascii c1 =? 13) && (nat_of_ascii c2 =? 10))%nat
      then String c2 (crlf_to_lf r)
      else String c1 (crlf_to_lf t)
  | _ => s
  end.

(** [drop_prefix p s]: what follows [p] in [s], when [s] starts with [p]. *)
Fixpoint drop_prefix (p s : string) : option string :=
  match p, s with
  | EmptyString, _ => Some s
  | String a p', String c s' =>
      if Ascii.eqb a c then drop_prefix p' s' else None
  | String _ _, EmptyString => None
  end.

(** [strip ws s]: [s] without the first pattern of [ws] that starts it. *)
Fixpoint strip (ws : list string) (s : string) : option string :=
  match ws with
  | [] => None
  | w :: ws' =>
      match drop_prefix w s with
      | Some r => Some r
      | None => strip ws' s
      end
  end.

Fixpoint trim_fuel (ws : list string) (fuel : nat) (s : string) : string :=
  match fuel with
  | O => s
  | S fuel' =>
      match strip ws s with
      | Some r => trim_fuel ws fuel' r
      | None => s
      end
  end.

Definition trimStart (s : string) : string :=
  trim_fuel whitespace (String.length s) s.

Definition trimEnd (s : string) : string :=
  reverse (trim_fuel (map reverse whitespace) (String.length s) (reverse s)).

Definition trim (s : string) : string := trimEnd (trimStart s).

(** A string made of whitespace characters only. *)
Inductive Blank : string -> Prop :=
| Blank_nil : Blank ""
| Blank_cons w s : In w whitespace -> Blank s -> Blank (w ++ s)%string.

End JS.
Import JS.

(* ================================================================== *)
(** * Numbers and JSON-like values *)
(* ================================================================== *)

Module Value.

(** A JavaScript number; the finite ones are rationals. *)
Inductive number := NaN | PosInf | NegInf | Fin (q : Q).

(** [Number.isFinite]. *)
Definition isFinite (x : number) : bool :=
  match x with Fin _ => true | _ => false end.

(** [x > y]; false as soon as one side is NaN. *)
Definition gt (x y : number) : bool :=
  match x, y with
  | NaN, _ | _, NaN => false
  | PosInf, PosInf => false
  | PosInf, _ => true
  | _, PosInf => false
  | NegInf, _ => false
  | Fin _, NegInf => true
  | Fin a, Fin c => negb (Qle_bool a c)
  end.

Definition lt (x y : number) : bool := gt y x.

(** [x >= y]. *)
Definition ge (x y : number) : bool :=
  match x, y with
  | NaN, _ | _, NaN => false
  | PosInf, _ => true
  | _, NegInf => true
  | NegInf, _ => false
  | Fin _, PosInf => false
  | Fin a, Fin c => Qle_bool c a
  end.

(** [Math.round] of a finite number: the nearest integer, halves up. *)
Definition round (q : Q) : Z := Qfloor (q + (1 # 2)).

(** Decimal text of an integer, as a template literal prints it. *)
Definition Z_toString (z : Z) : string :=
  NilEmpty.string_of_int (Z.to_int z).

#[warnings="-register-all"]
(** Data as [JSON.parse] builds it and [JSON.stringify] reads it, plus
    [undefined]. *)
Inductive value :=
| Undefined
| Null
| Bool (v : bool)
| Num (n : number)
| Str (s : string)
| Arr (items : list value)
| Obj (fields : list (string * value)).

Fixpoint assoc (k : string) (fs : list (string * value)) : option value :=
  match fs with
  | [] => None
  | (k', v) :: fs' => if (k =? k')%string then Some v else assoc k fs'
  end.

(** [v?.k] for one of the keys the source reads (none of them lives on a
    prototype): own property of an object, the last binding of the key;
    [undefined] on anything else. *)
Definition get (v : value) (k : string) : value :=
  match v with
  | Obj fs => match assoc k (rev fs) with Some x => x | None => Undefined end
  | _ => Undefined
  end.

(** [v?.[0]]. *)
Definition index0 (v : value) : value :=
  match v with
  | Arr (x :: _) => x
  | Str (String c _) => Str (String c "")
  | Obj _ => get v "0"
  | _ => Undefined
  end.

(** [isRecord] of agent.ts: [!!v && typeof v === "object" && !Array.isArray(v)]. *)
Definition isRecord (v : value) : bool :=
  match v with Obj _ => true | _ => false end.

(** [v === s] for a string literal [s]. *)
Definition is_str (v : value) (s : string) : bool :=
  match v with Str x => (x =? s)%string | _ => false end.

(** [a ?? b]. *)
Definition nullish (a b : value) : value :=
  match a with Undefined | Null => b | _ => a end.

(** [!!v]. *)
Definition toBoolean (v : value) : bool :=
  match v with
  | Undefined | Null => false
  | Bool v => v
  | Num NaN => false
  | Num (Fin q) => negb (Qeq_bool q 0)
  | Num _ => true
  | Str s => JS.truthy s
  | Arr _ | Obj _ => true
  end.

End Value.
Import Value.

(** [Math.max] and [Math.min] on numbers: NaN if either side is NaN. *)
Definition num_max (x y : number) : number :=
  match x, y with
  | NaN, _ | _, NaN => NaN
  | _, _ => if gt y x then y else x
  end.
Definition num_min (x y : number) : number :=
  match x, y with
  | NaN, _ | _, NaN => NaN
  | _, _ => if gt x y then y else x
  end.

(** The conversions of the runtime that the source applies to arbitrary
    values, and the wording of the engine's own errors. *)
Class Runtime : Type := {
  JSON_parse : string -> completion value;    (* throws a SyntaxError *)
  JSON_stringify : value -> string;
  String_of : value -> string;                (* [String(v)], [`${v}`] *)
  Number_of : value -> number;                (* [Number(v)] *)
(* [new Date(iso + "T00:00:00").toLocaleDateString("en-US",
     { weekday: "long", month: "long", day: "numeric" })] *)
toLocaleDateString : string -> string;
(* the text of the TypeError for a call of [callee], given by its source
   text, when it is not a function *)
not_a_function : string -> string
}.

(** [Number(v)], which is also the conversion [Math.max] and [Math.min]
    apply to their arguments: a number is left as it is. *)
Definition ToNumber {R : Runtime} (v : value) : number :=
  match v with Num n => n | _ => Number_of v end.

(** [`${n}`] for an integer [n].  Up to 2^53 every integer is a double and
    prints as its digits; beyond, the text is the runtime's (the shortest
    digits that read back as the same double, in exponent form from
    1e21). *)
Definition Number_toString {R : Runtime} (n : Z) : string :=
  if (Z.abs n <=? 2 ^ 53)%Z then Z_toString n
  else String_of (Num (Fin (inject_Z n))).

(* ================================================================== *)
(** * Regular expressions *)
(* ================================================================== *)

(** A backtracking matcher for the fragment of ECMAScript regular expressions
    that the source uses: characters and classes, sequence, ordered choice,
    greedy repetition and the word boundary.  The subject is read character
    by character (a character is one UTF-8 sequence). *)
Module RegExp.

Definition byte_in (lo hi : nat) (c : ascii) : bool :=
  let n := nat_of_ascii c in (lo <=? n)%nat && (n <=? hi)%nat.

(** Number of bytes announced by a lead byte. *)
Definition width (c : ascii) : nat :=
  if byte_in 240 247 c then 4
  else if byte_in 224 239 c then 3
  else if byte_in 192 223 c then 2
  else 1.

Fixpoint take (n : nat) (s : string) : string * string :=
  match n, s with
  | S n', String c r => let '(a, z) := take n' r in (String c a, z)
  | _, _ => ("", s)
  end.

Fixpoint chars_fuel (fuel : nat) (s : string) : list string :=
  match fuel, s with
  | S fuel', String c r =>
      let '(a, z) := take (width c - 1) r in
      String c a :: chars_fuel fuel' z
  | _, _ => []
  end.

Definition chars (s : string) : list string :=
  chars_fuel (String.length s) s.

Definition join (cs : list string) : string :=
  fold_right String.append "" cs.

Inductive re :=
| Eps
| Chr (p : string -> bool)
| Seq (r1 r2 : re)
| Alt (r1 r2 : re)
| Star (r : re)
| WordB.

Definition isWord (u : string) : bool :=
  match u with
  | String c EmptyString =>
      byte_in 48 57 c || byte_in 65 90 c || byte_in 97 122 c
      || (nat_of_ascii c =? 95)%nat
  | _ => false
  end.

Definition isSpace (u : string) : bool :=
  existsb (String.eqb u) JS.whitespace.

Definition isLineTerminator (u : string) : bool :=
  existsb (String.eqb u) [JS.chr1 10; JS.chr1 13; JS.chr3 226 128 168; JS.chr3 226 128 169].

Definition word_before (prev : option string) : bool :=
  match prev with Some u => isWord u | None => false end.
Definition word_after (s : list string) : bool :=
  match s with u :: _ => isWord u | [] => false end.

Section Run.
Variable X : Type.

(** [run r prev s k]: match [r] at the head of [s] ([prev] is the
    character before it), then continue with [k]; the first success in
    backtracking order. *)
Fixpoint run (r : re) (prev : option string) (s : list string)
         (k : option string -> list string -> option X) {struct r}
  : option X :=
  match r with
  | Eps => k prev s
  | Chr p =>
      match s with
      | u :: s' => if p u then k (Some u) s' else None
      | [] => None
      end
  | Seq r1 r2 => run r1 prev s (fun prev' s' => run r2 prev' s' k)
  | Alt r1 r2 =>
      match run r1 prev s k with
      | Some x => Some x
      | None => run r2 prev s k
      end
  | Star r1 =>
      (fix loop (fuel : nat) (prev : option string) (s : list string)
         : option X :=
         match fuel with
         | O => k prev s
         | S fuel' =>
             match run r1 prev s
                     (fun prev' s' =>
                        if (List.length s' <? List.length s)%nat
                        then loop fuel' prev' s' else None) with
             | Some x => Some x
             | None => k prev s
             end
         end) (List.length s) prev s
  | WordB =>
      if xorb (word_before prev) (word_after s) then k prev s else None
  end.
End Run.

(** The match of [r] that starts at the head of [s]: what is left. *)
Definition match_here (r : re) (prev : option string) (s : list string)
  : option (list string) :=
  run r prev s (fun _ rest => Some rest).

(** Leftmost match: the matched characters. *)
Fixpoint search (r : re) (prev : option string) (s : list string)
  : option (list string) :=
  match match_here r prev s with
  | Some rest => Some (firstn (List.length s - List.length rest) s)
  | None =>
      match s with
      | u :: s' => search r (Some u) s'
      | [] => None
      end
  end.

(** [s.match(r)?.[0]]. *)
Definition exec (r : re) (s : string) : option string :=
  option_map join (search r None (chars s)).

(** [r.test(s)]. *)
Definition test (r : re) (s : string) : bool :=
  match exec r s with Some _ => true | None => false end.

(** [/^r$/.test(s)]: the whole subject, from its first character to its
    last. *)
Definition test_whole (r : re) (s : string) : bool :=
  match run r None (chars s)
          (fun _ rest => match rest with [] => Some tt | _ => None end) with
  | Some _ => true
  | None => false
  end.

(** Builders. *)
Definition Plus (r : re) : re := Seq r (Star r).
Definition Opt (r : re) : re := Alt r Eps.
Definition AtLeast2 (r : re) : re := Seq r (Seq r (Star r)).

(** One literal character under the [i] flag. *)
Definition ci (c : ascii) : re :=
  Chr (fun u => (JS.toLowerCase u =? String (JS.lower_ascii c) "")%string).

(** A literal word under the [i] flag. *)
Fixpoint lit (w : string) : re :=
  match w with
  | EmptyString => Eps
  | String c r => Seq (ci c) (lit r)
  end.

Definition dot : re := Chr (fun u => negb (isLineTerminator u)).   (* . *)
Definition S_ : re := Chr (fun u => negb (isSpace u)).             (* \S *)
Definition w_ : re := Chr isWord.                                  (* \w *)
Definition d_ : re := Chr (fun u => match u with
                                   | String c EmptyString => byte_in 48 57 c
                                   | _ => false
                                   end).                              (* \d *)
Definition w_or_dash : re := Chr (fun u => isWord u || (u =? "-")%string).

End RegExp.
(* ================================================================== *)
(** * The WHATWG [URL] class, as the capture tools use it *)
(* ================================================================== *)

(** The tools construct URLs, read [protocol] and [hostname], print them and
    assign [hostname].  The parser itself belongs to the runtime. *)
Class UrlApi : Type := {
  URL : Type;
  URL_new : string -> completion URL;          (* [new URL(s)], may throw *)
  URL_protocol : URL -> string;
  URL_hostname : URL -> string;
  URL_toString : URL -> string;
  URL_setHostname : URL -> string -> URL       (* [u.hostname = h] *)
}.

(* ================================================================== *)
(** * worker/tools/captureScreenshot.ts and worker/tools/convertToPdf.ts *)
(* ================================================================== *)

Module Capture.

Inductive ToolErrorCode :=
| BAD_URL | NAV_TIMEOUT | NAV_FAIL | CAPTURE_FAIL | UPLOAD_FAIL.

Definition ToolErrorCode_toString (c : ToolErrorCode) : string :=
  match c with
  | BAD_URL => "BAD_URL" | NAV_TIMEOUT => "NAV_TIMEOUT"
  | NAV_FAIL => "NAV_FAIL" | CAPTURE_FAIL => "CAPTURE_FAIL"
  | UPLOAD_FAIL => "UPLOAD_FAIL"
  end.

Inductive WaitUntil := load | domcontentloaded | networkidle0 | networkidle2.

Definition WaitUntil_toString (w : WaitUntil) : string :=
  match w with
  | load => "load" | domcontentloaded => "domcontentloaded"
  | networkidle0 => "networkidle0" | networkidle2 => "networkidle2"
  end.

Record Viewport := mkViewport { width : Z; height : Z }.

Inductive PdfFormat := A4 | Letter | Legal | Tabloid | A3 | A5.

Record PdfOpts := mkPdfOpts {
  format : option PdfFormat; landscape : option bool; scale : option Q }.

Record ScreenshotArgs := mkScreenshotArgs {
  ss_url : string;
  ss_fullPage : option bool;
  ss_viewport : option Viewport;
  ss_waitUntil : option WaitUntil;
  ss_timeoutMs : option number }.

Record PdfArgs := mkPdfArgs {
  pdf_url : string;
  pdf_viewport : option Viewport;
  pdf_waitUntil : option WaitUntil;
  pdf_timeoutMs : option number;
  pdf_pdf : option PdfOpts }.

(** The result union of either tool; [P] is the success payload. *)
Inductive Result (P : Type) : Type :=
| Ok (payload : P)
| Failed (error : string) (code : ToolErrorCode).
Arguments Ok {P} payload.
Arguments Failed {P} error code.

Record ScreenshotOk := mkScreenshotOk {
  sso_url : string; sso_r2Key : string; sso_contentType : string;
  sso_bytes : Z; sso_width : Z; sso_height : Z;
  sso_sourceUrl : string; sso_viewport : Viewport }.

Record PdfOk := mkPdfOk {
  pdo_url : string; pdo_r2Key : string; pdo_contentType : string;
  pdo_bytes : Z; pdo_sourceUrl : string }.

Definition ScreenshotResult := Result ScreenshotOk.
Definition PdfResult := Result PdfOk.

Definition is_ok {P} (r : Result P) : bool :=
  match r with Ok _ => true | Failed _ _ => false end.

Inductive NavOutcome := nav_ok | nav_timeout | nav_fail.

Record NavAttempt := mkNavAttempt {
  na_dest : string; na_waitUntil : WaitUntil; na_outcome : NavOutcome }.

(** The headless browser and the object store, as one capture call meets
    them: every call either returns or throws.  [goto n dest wait timeout]
    is the [n]-th navigation of the call (counted from 0). *)
Record Env := mkEnv {
  launch : completion unit;
  newPage : completion unit;
  setViewport : Viewport -> completion unit;
  setBypassCSP : completion unit;
  setDefaultNavigationTimeout : number -> completion unit;
  setExtraHTTPHeaders : completion unit;
  setUserAgent : completion unit;
  on : string -> completion unit;
  goto : nat -> string -> WaitUntil -> number -> completion unit;
  page_url : string;
  title : completion string;
  screenshot : bool -> completion Z;          (* byte length of the PNG *)
  pdf : PdfFormat -> bool -> Q -> number -> completion Z;
  randomUUID : string;
  put : string -> string -> completion unit;  (* key, content type *)
  close : completion unit }.

(** What a capture call has done so far. *)
Record Run := mkRun {
  emitted : list string;          (* progress messages, oldest first *)
  navAttempts : list NavAttempt;  (* oldest first *)
  launched : bool;                (* [puppeteer.launch] was called *)
  closed : bool }.                (* [browser.close] was called *)

Definition start : Run := mkRun [] [] false false.

(** Computations of a capture call. *)
Definition M (A : Type) : Type := Run -> Run * completion A.

Definition ret {A} (a : A) : M A := fun r => (r, Return a).
Definition bind {A B} (m : M A) (k : A -> M B) : M B :=
  fun r => match m r with
           | (r', Return a) => k a r'
           | (r', Throw e) => (r', Throw e)
           end.
Definition lift {A} (c : completion A) : M A := fun r => (r, c).
Definition try_catch {A} (m : M A) (h : Error -> M A) : M A :=
  fun r => match m r with
           | (r', Return a) => (r', Return a)
           | (r', Throw e) => h e r'
           end.
(** [try { m } ... finally { f }] where [f] neither returns nor throws. *)
Definition finally {A} (m : M A) (f : Run -> Run) : M A :=
  fun r => let '(r', c) := m r in (f r', c).

Notation "x <- m ;; k" := (bind m (fun x => k))
  (at level 61, m at next level, right associativity).
Notation "m ;;; k" := (bind m (fun _ => k))
  (at level 61, right associativity).

Definition emit (msg : string) : M unit :=
  fun r => (mkRun (emitted r ++ [msg]) (navAttempts r) (launched r) (closed r),
            Return tt).
Definition push_attempt (a : NavAttempt) : M unit :=
  fun r => (mkRun (emitted r) (navAttempts r ++ [a]) (launched r) (closed r),
            Return tt).
Definition attempts_so_far : M nat :=
  fun r => (r, Return (List.length (navAttempts r))).
Definition mark_launched : M unit :=
  fun r => (mkRun (emitted r) (navAttempts r) true (closed r), Return tt).
Definition mark_closed (r : Run) : Run :=
  mkRun (emitted r) (navAttempts r) (launched r) true.

Section Pipelines.

Context {U : UrlApi}.
Variable env : Env.

(** [normalizeUrl], the same text in both files. *)
Definition normalizeUrl (input : string) : option URL :=
  let raw := trim (or_else input "") in
  if negb (truthy raw) then None
  else
    let fallback :=
      match URL_new ("https://" ++ raw)%string with
      | Return u =>
          if negb (URL_protocol u =? "https:")%string then None else Some u
      | Throw _ => None
      end in
    match URL_new raw with
    | Return u =>
        if negb (truthy (URL_protocol u)) then fallback
        else if negb (URL_protocol u =? "http:")%string
                && negb (URL_protocol u =? "https:")%string then None
        else Some u
    | Throw _ => fallback
    end.

(** [withWww], the same text in both files. *)
Definition withWww (u : URL) : option URL :=
  if negb (startsWith (URL_hostname u) "www.") then
    match URL_new (URL_toString u) with
    | Return copy =>
        Some (URL_setHostname copy ("www." ++ URL_hostname u)%string)
    | Throw _ => None
    end
  else None.

(** The outcome [tryGo] records for one [page.goto]: [true] when it
    returns; otherwise "timeout" when the lower-cased text of the thrown
    value contains that word, and "fail" if not. *)
Definition classify (c : completion unit) : NavOutcome :=
  match c with
  | Return _ => nav_ok
  | Throw e =>
      let msg := or_else (message e) (Error_toString e) in
      if includes (toLowerCase msg) "timeout" then nav_timeout else nav_fail
  end.

(** [tryGo], the closure of both pipelines. *)
Definition tryGo (timeout : number) (dest : URL) (wait : WaitUntil)
  : M NavOutcome :=
  n <- attempts_so_far ;;
  let outcome := classify (goto env n (URL_toString dest) wait timeout) in
  push_attempt (mkNavAttempt (URL_toString dest) wait outcome) ;;;
  ret outcome.

Definition is_true (o : NavOutcome) : bool :=
  match o with nav_ok => true | _ => false end.
Definition is_timeout (o : NavOutcome) : bool :=
  match o with nav_timeout => true | _ => false end.

(** The navigation block of both pipelines, from [let url = url0] to the
    test [if (ok !== true)]: the final [url] and [ok]. *)
Definition navigate (timeout : number) (wantWait : WaitUntil) (url0 : URL)
  : M (URL * NavOutcome) :=
  let url := url0 in
  ok <- tryGo timeout url wantWait ;;
  if negb (is_true ok) then
    ok <- (if is_timeout ok then tryGo timeout url load else ret ok) ;;
    ok <- (if negb (is_true ok) then tryGo timeout url domcontentloaded
           else ret ok) ;;
    if negb (is_true ok) then
      match withWww url with
      | Some ww =>
          emit "Retrying with www…" ;;;
          let url := ww in
          ok <- tryGo timeout url wantWait ;;
          ok <- (if negb (is_true ok) then tryGo timeout url load
                 else ret ok) ;;
          ok <- (if negb (is_true ok)
                 then tryGo timeout url domcontentloaded else ret ok) ;;
          ret (url, ok)
      | None => ret (url, ok)
      end
    else ret (url, ok)
  else ret (url, ok).

Definition nav_code (ok : NavOutcome) : ToolErrorCode :=
  if is_timeout ok then NAV_TIMEOUT else NAV_FAIL.

Definition nav_failure {P} (ok : NavOutcome) : M (Result P) :=
  let code := nav_code ok in
  emit ("Navigation failed (" ++ ToolErrorCode_toString code ++ ")") ;;;
  ret (Failed (match code with
               | NAV_TIMEOUT => "Navigation timed out"
               | _ => "Navigation failed"
               end) code).

(** The [catch (e)] clause that closes the [try] of both pipelines. *)
Definition on_error {P} (e : Error) : M (Result P) :=
  let msg := or_else (message e) "Capture error" in
  if includes (toLowerCase msg) "nav"
  then ret (Failed "Navigation failed" NAV_FAIL)
  else ret (Failed "Capture failed" CAPTURE_FAIL).

(** [Math.max(1000, Math.min(60000, args.timeoutMs ?? 20000))]; [None] is a
    [timeoutMs] that is absent or null. *)
Definition clamp_timeout (t : option number) : number :=
  num_max (Fin 1000)
          (num_min (Fin 60000)
                   (match t with Some v => v | None => Fin 20000 end)).

Definition default_viewport : Viewport := mkViewport 1280 800.

Definition page_setup (viewport : Viewport) (timeout : number) : M unit :=
  lift (newPage env) ;;;
  lift (setViewport env viewport) ;;;
  lift (setBypassCSP env) ;;;
  lift (setDefaultNavigationTimeout env timeout) ;;;
  lift (setExtraHTTPHeaders env) ;;;
  lift (setUserAgent env) ;;;
  lift (on env "console") ;;;
  lift (on env "pageerror") ;;;
  lift (on env "requestfailed").

(** [try { title = await page.title() } catch {}]: the title is only
    logged. *)
Definition read_title : M unit :=
  try_catch (lift (title env) ;;; ret tt) (fun _ => ret tt).

Definition captureScreenshot (sid : string) (args : ScreenshotArgs)
  : M ScreenshotResult :=
  match normalizeUrl (ss_url args) with
  | None => ret (Failed "Invalid URL" BAD_URL)
  | Some url0 =>
      let fullPage :=
        match ss_fullPage args with Some v => v | None => true end in
      let wantWait :=
        match ss_waitUntil args with Some w => w | None => networkidle0 end in
      let timeout := clamp_timeout (ss_timeoutMs args) in
      let viewport :=
        match ss_viewport args with
        | Some v => v | None => default_viewport end in
      emit "Launching browser…" ;;;
      mark_launched ;;;
      lift (launch env) ;;;
      finally
        (try_catch
           (page_setup viewport timeout ;;;
            emit ("Navigating (" ++ WaitUntil_toString wantWait ++ ")…") ;;;
            nav <- navigate timeout wantWait url0 ;;
            let '(url, ok) := nav in
            if negb (is_true ok) then nav_failure ok
            else
              emit "Settling…" ;;;
              let finalUrl := page_url env in
              read_title ;;;
              emit "Capturing screenshot…" ;;;
              bytes <- lift (screenshot env fullPage) ;;
              let key :=
                ("files/" ++ sid ++ "/" ++ randomUUID env ++ ".png")%string in
              emit "Uploading…" ;;;
              try_catch
                (lift (put env key "image/png") ;;;
                 ret (Ok (mkScreenshotOk ("/" ++ key) key "image/png" bytes
                            (width viewport) (height viewport)
                            finalUrl viewport)))
                (fun _ => ret (Failed "Upload failed" UPLOAD_FAIL)))
           on_error)
        mark_closed
  end.

Definition convertToPdf (sid : string) (args : PdfArgs) : M PdfResult :=
  match normalizeUrl (pdf_url args) with
  | None => ret (Failed "Invalid URL" BAD_URL)
  | Some url0 =>
      let wantWait :=
        match pdf_waitUntil args with Some w => w | None => networkidle0 end in
      let timeout := clamp_timeout (pdf_timeoutMs args) in
      let viewport :=
        match pdf_viewport args with
        | Some v => v | None => default_viewport end in
      let opt {A} (f : PdfOpts -> option A) (d : A) : A :=
        match pdf_pdf args with
        | Some o => match f o with Some v => v | None => d end
        | None => d
        end in
      let fmt := opt format A4 in
      let land := opt landscape false in
      let scl := opt scale 1%Q in
      emit "Launching browser…" ;;;
      mark_launched ;;;
      lift (launch env) ;;;
      finally
        (try_catch
           (page_setup viewport timeout ;;;
            emit ("Navigating (" ++ WaitUntil_toString wantWait ++ ")…") ;;;
            nav <- navigate timeout wantWait url0 ;;
            let '(url, ok) := nav in
            if negb (is_true ok) then nav_failure ok
            else
              emit "Settling…" ;;;
              let finalUrl := page_url env in
              read_title ;;;
              emit "Rendering PDF…" ;;;
              bytes <- lift (pdf env fmt land scl timeout) ;;
              let key :=
                ("files/" ++ sid ++ "/" ++ randomUUID env ++ ".pdf")%string in
              emit "Uploading…" ;;;
              try_catch
                (lift (put env key "application/pdf") ;;;
                 ret (Ok (mkPdfOk ("/" ++ key) key "application/pdf" bytes
                            finalUrl)))
                (fun _ => ret (Failed "Upload failed" UPLOAD_FAIL)))
           on_error)
        mark_closed
  end.

End Pipelines.

End Capture.

(* ================================================================== *)
(** * worker/tools/getWeather.ts *)
(* ================================================================== *)

Module Weather.

Record WeatherDay := mkDay {
  date : string;
  code : number;
  tMax : number;
  tMin : number;
  precipMm : number;
  pop : number }.

(** [place] of a successful result.  The fields the source copies from the
    geocoder's answer or from the arguments without converting them stay
    values. *)
Record Place := mkPlace {
  name : value; region : value; country : value;
  lat : value; lon : value; timezone : string }.

Record Units := mkUnits { temp : string; precip : string }.

Inductive WeatherResult :=
| WOk (place : Place) (units : Units) (daily : list WeatherDay) (notes : string)
| WErr (error : string).

Definition w_ok (r : WeatherResult) : bool :=
  match r with WOk _ _ _ _ => true | WErr _ => false end.

(** A URL of the tool in structured form: the address and the search
    parameters in the order they are set. *)
Record Request := mkRequest { base : string; params : list (string * string) }.

Record Response := mkResponse {
  resp_ok : bool; status : Z; json : completion value }.

(** The network, as one call of the tool meets it. *)
Record Net := mkNet { fetch : Request -> completion Response }.

(** Computations of the tool: they return or throw. *)
Definition bindc {A B} (c : completion A) (k : A -> completion B)
  : completion B :=
  match c with Return a => k a | Throw e => Throw e end.

Notation "x <-- c ;; k" := (bindc c (fun x => k))
  (at level 61, c at next level, right associativity).

Definition TypeError (msg : string) : Error := mkError "TypeError" msg.

(** The text of the TypeError for reading property [k] of [what] ("null" or
    "undefined"). *)
Definition cannot_read (what k : string) : string :=
  "Cannot read properties of " ++ what ++ " (reading '" ++ k ++ "')".

(** [v.k] without optional chaining: throws on [null] and [undefined]. *)
Definition prop (v : value) (k : string) : completion value :=
  match v with
  | Undefined => Throw (TypeError (cannot_read "undefined" k))
  | Null => Throw (TypeError (cannot_read "null" k))
  | _ => Return (get v k)
  end.

(** [v.trim()], where [receiver] is the source text of [v]: the trimmed
    string when [v] is a string; a TypeError otherwise, since no other value
    of the source's data has a [trim] that is a function. *)
Definition call_trim {R : Runtime} (receiver : string) (v : value)
  : completion string :=
  match v with
  | Str s => Return (trim s)
  | Undefined => Throw (TypeError (cannot_read "undefined" "trim"))
  | Null => Throw (TypeError (cannot_read "null" "trim"))
  | _ => Throw (TypeError (not_a_function (receiver ++ ".trim")))
  end.

Definition is_number (v : value) : bool :=
  match v with Num _ => true | _ => false end.

(** The receiver of [trim] in [geocodeIfNeeded], as the source writes it. *)
Definition location_or_empty : string :=
  "(args.location ?? " ++ JS.chr1 34 ++ JS.chr1 34 ++ ")".

Definition clamp (v lo hi : number) : number := num_min hi (num_max lo v).

Record Geo := mkGeo {
  g_lat : value; g_lon : value; g_name : value;
  g_region : value; g_country : value }.

Section Tool.

Context {R : Runtime}.
Variable net : Net.

Definition geocodeIfNeeded (args : value) : completion (option Geo) :=
  latitude <-- prop args "latitude" ;;
  if is_number latitude && is_number (get args "longitude") then
    Return (Some (mkGeo (get args "latitude") (get args "longitude")
                        (nullish (get args "location") (Str "location"))
                        Undefined Undefined))
  else
    q <-- call_trim location_or_empty
            (nullish (get args "location") (Str "")) ;;
    if negb (JS.truthy q) then Return None
    else
      let u := mkRequest "https://geocoding-api.open-meteo.com/v1/search"
                 [("name", q); ("count", "1"); ("language", "en");
                  ("format", "json")] in
      r <-- fetch net u ;;
      if negb (resp_ok r) then Return None
      else
        j <-- json r ;;
        results <-- prop j "results" ;;
        let top := if toBoolean results
                   then (if toBoolean (index0 results) then index0 results else Null)
                   else Null in
        if negb (toBoolean top) then Return None
        else Return (Some (mkGeo (get top "latitude") (get top "longitude")
                                 (get top "name") (get top "admin1")
                                 (get top "country"))).

Definition buildForecastUrl (lat lon days start end_ units : value) : Request :=
  mkRequest "https://api.open-meteo.com/v1/forecast"
    ([("latitude", String_of lat);
      ("longitude", String_of lon);
      ("daily", "temperature_2m_max,temperature_2m_min,precipitation_sum,precipitation_probability_max,weathercode");
      ("timezone", "auto")]
     ++ (if toBoolean start && toBoolean end_
         then [("start_date", String_of start); ("end_date", String_of end_)]
         else [("forecast_days",
                String_of (Num (clamp (ToNumber (nullish days (Num (Fin 7))))
                                      (Fin 1) (Fin 16))))])
     ++ (if is_str units "imperial"
         then [("temperature_unit", "fahrenheit"); ("precipitation_unit", "inch")]
         else [])).

(** The pattern of [asISODate]: four digits, dash, two digits, dash, two
    digits, over the whole subject. *)
Definition isoRe : RegExp.re :=
  let d := RegExp.d_ in
  let dash := RegExp.ci "-" in
  RegExp.Seq d (RegExp.Seq d (RegExp.Seq d (RegExp.Seq d (RegExp.Seq dash
  (RegExp.Seq d (RegExp.Seq d (RegExp.Seq dash (RegExp.Seq d d)))))))).

Definition asISODate (s : value) : value :=
  if negb (toBoolean s) then Undefined
  else if RegExp.test_whole isoRe (String_of s) then s else Undefined.

Definition unitLabels (units : value) : Units :=
  if is_str units "imperial" then mkUnits "°F" "in" else mkUnits "°C" "mm".

(** [Array.isArray(x) ? x : []]. *)
Definition array_or_empty (v : value) : list value :=
  match v with Arr xs => xs | _ => [] end.

(** [xs[i]]. *)
Definition at_ (xs : list value) (i : nat) : value := nth i xs Undefined.

Definition shape (j : value) : list WeatherDay :=
  let daily := get j "daily" in
  let dates := array_or_empty (get daily "time") in
  let tMaxs := array_or_empty (get daily "temperature_2m_max") in
  let tMins := array_or_empty (get daily "temperature_2m_min") in
  let pops := array_or_empty (get daily "precipitation_probability_max") in
  let precs := array_or_empty (get daily "precipitation_sum") in
  let codes := array_or_empty (get daily "weathercode") in
  map (fun i =>
         mkDay (String_of (at_ dates i))
               (ToNumber (nullish (at_ codes i) (Num (Fin 0))))
               (ToNumber (nullish (at_ tMaxs i) (Num NaN)))
               (ToNumber (nullish (at_ tMins i) (Num NaN)))
               (ToNumber (nullish (at_ precs i) (Num (Fin 0))))
               (ToNumber (nullish (at_ pops i) (Num (Fin 0)))))
      (seq 0 (List.length dates)).

(** The body of the [try] of [getWeather]. *)
Definition getWeather_body (args : value) : completion WeatherResult :=
  place <-- geocodeIfNeeded args ;;
  match place with
  | None => Return (WErr "Please provide a city/location I can find.")
  | Some place =>
      let start := asISODate (get args "startDate") in
      let end_ := asISODate (get args "endDate") in
      let url := buildForecastUrl (g_lat place) (g_lon place)
                   (get args "days") start end_ (get args "units") in
      r <-- fetch net url ;;
      if negb (resp_ok r)
      then Return (WErr ("Weather API error (" ++ Number_toString (status r) ++ ")"))
      else
        j <-- json r ;;
        let daily := shape j in
        Return
          (WOk (mkPlace (g_name place) (g_region place) (g_country place)
                        (g_lat place) (g_lon place)
                        (String_of (nullish (get j "timezone") (Str "auto"))))
               (unitLabels (nullish (get args "units") (Str "auto")))
               daily
               (if toBoolean start && toBoolean end_
                then "Forecast " ++ String_of start ++ " → " ++ String_of end_
                else "Forecast next "
                       ++ Number_toString (Z.of_nat (List.length daily)) ++ " day(s)"))
  end.

Definition getWeather (args : value) : WeatherResult :=
  match getWeather_body args with
  | Return res => res
  | Throw e => WErr (or_else (message e) "Unknown error")
  end.

End Tool.

End Weather.

(* ================================================================== *)
(** * worker/agent.ts *)
(* ================================================================== *)

Module Agent.

Import Weather.
Local Open Scope string_scope.

Definition DAY : Z := 86400000.
Definition DEFAULT_MODEL : string := "@cf/meta/llama-4-scout-17b-16e-instruct".

Definition dq : string := JS.chr1 34.

(** [SYSTEM_BEHAVIOR], after its [.trim()]. *)
Definition SYSTEM_BEHAVIOR : string :=
  String.concat LF
    [ "You are an AI agent that can optionally call tools. Your available tools are:";
      "";
      "1) getWeather(location, days?)";
      "   - Fetches forecast via Open-Meteo for a specific city/region/coords (and optional number of days).";
      "   - Use ONLY when the user explicitly asks about weather/forecast/temperature/precipitation for a concrete place and timeframe.";
      "   - If the request lacks a clear location, ask one brief clarifying question rather than guessing.";
      "";
      "2) captureScreenshot(url, fullPage?, viewport?, waitUntil?, timeoutMs?)";
      "   - Takes a page screenshot using Cloudflare Browser Rendering.";
      "   - Use ONLY when the user explicitly asks for a screenshot (or an image of a page) and provides a concrete URL or domain.";
      "   - Do not invent URLs or parameters. If URL is missing, ask once for it. Do not promise a capture without running the tool.";
      "";
      "3) convertToPdf(url, pdf?, waitUntil?, timeoutMs?, viewport?)";
      "   - Renders a page to PDF using Cloudflare Browser Rendering.";
      "   - Use ONLY when the user explicitly asks to export/convert a page to PDF and provides a concrete URL or domain.";
      "   - Do not invent URLs or parameters. If URL is missing, ask once for it.";
      "";
      "General rules:";
      ("- NEVER call tools when the user is asking ABOUT your capabilities (e.g., " ++ dq ++ "What tools can you use?" ++ dq ++ "). In that case, answer with a concise list/descriptions of the tools above and DO NOT call any tool.")%string;
      "- Do not fabricate tools, APIs, parameters, locations, or URLs. If required inputs are missing, ask one concise follow-up.";
      "- When a tool was run, the UI already displays links/previews. In summaries, do NOT repeat links; briefly note the outcome in 1–3 sentences.";
      "- Keep answers factual and concise. If a tool was not run, do not imply you ran it." ].

Inductive Role := user | assistant | tool.

(** One chat line stored in SQLite and mirrored in state. *)
Record Msg := mkMsg { role : Role; content : string; ts : Z }.

(** Agent state mirrored to clients on connect.  [model] holds whatever
    truthy value a [model] frame carried. *)
Record State := mkState {
  model : value; messages : list Msg; createdAt : Z; expiresAt : Z }.

Inductive ToolStatus := started | step | done | error.

Inductive ToolPayload :=
| NoResult
| WeatherPayload (r : WeatherResult)
| ScreenshotPayload (r : Capture.ScreenshotResult)
| PdfPayload (r : Capture.PdfResult).

(** The frames sent to the client, before [JSON.stringify]. *)
Inductive Event :=
| Ready (state : State)
| Delta (text : string)
| Done
| Cleared
| Tool (tool : string) (status : ToolStatus) (message : option string)
       (result : ToolPayload).

Record ChatMessage := mkChat { cm_role : string; cm_content : string }.

(** The three shapes of request the agent sends to the model binding. *)
Inductive AiInput :=
| PlanInput (messages : list ChatMessage)     (* tools, temperature, max_tokens *)
| StreamInput (messages : list ChatMessage)   (* stream: true *)
| SummaryInput (messages : list ChatMessage). (* temperature, max_tokens *)

(** A [ReadableStream]: the decoded chunks its reader yields, in order, and
    then either [done] or a thrown error. *)
Record Stream := mkStream { chunks : list string; failure : option Error }.

Inductive AiOutput :=
| OutValue (v : value)
| OutStream (s : Stream).

(** What surrounds the agent. *)
Record World := mkWorld {
  now : nat -> Z;                       (* the n-th reading of [Date.now()] *)
  AI_run : value -> AiInput -> completion AiOutput;
  net : Weather.Net;
  browser : Capture.Env }.

(** One agent instance: its name (the session id), [this.state], the rows of
    the [messages] table in insertion order, the frames sent so far on the
    connection (oldest first) and the number of clock readings so far. *)
Record Agent := mkAgent {
  name : string;
  state : State;
  rows : list Msg;
  sent : list Event;
  clock_reads : nat }.

Definition Act (A : Type) : Type := Agent -> Agent * completion A.

Definition ret {A} (x : A) : Act A := fun a => (a, Return x).
Definition bind {A B} (m : Act A) (k : A -> Act B) : Act B :=
  fun a => match m a with
           | (a', Return x) => k x a'
           | (a', Throw e) => (a', Throw e)
           end.
Definition throw {A} (e : Error) : Act A := fun a => (a, Throw e).
Definition lift {A} (c : completion A) : Act A := fun a => (a, c).
Definition try_catch {A} (m : Act A) (h : Error -> Act A) : Act A :=
  fun a => match m a with
           | (a', Return x) => (a', Return x)
           | (a', Throw e) => h e a'
           end.
(** [try { m } ... finally { f }] for an [f] that returns normally. *)
Definition finally {A} (m : Act A) (f : Act unit) : Act A :=
  fun a => let '(a', c) := m a in (fst (f a'), c).

Notation "x <- m ;; k" := (bind m (fun x => k))
  (at level 61, m at next level, right associativity).
Notation "m ;;; k" := (bind m (fun _ => k))
  (at level 61, right associativity).

Definition getState : Act State := fun a => (a, Return (state a)).
Definition setState (s : State) : Act unit :=
  fun a => (mkAgent (name a) s (rows a) (sent a) (clock_reads a), Return tt).
Definition this_name : Act string := fun a => (a, Return (name a)).
Definition send (e : Event) : Act unit :=
  fun a => (mkAgent (name a) (state a) (rows a) (sent a ++ [e])%list (clock_reads a),
            Return tt).
Definition sends (es : list Event) : Act unit :=
  fun a => (mkAgent (name a) (state a) (rows a) (sent a ++ es)%list (clock_reads a),
            Return tt).

(** [INSERT INTO messages (role, content, ts) VALUES (...)]. *)
Definition sql_insert (m : Msg) : Act unit :=
  fun a => (mkAgent (name a) (state a) (rows a ++ [m])%list (sent a) (clock_reads a),
            Return tt).
(** [DELETE FROM messages]. *)
Definition sql_delete : Act unit :=
  fun a => (mkAgent (name a) (state a) [] (sent a) (clock_reads a), Return tt).

Fixpoint insert_by_ts (m : Msg) (l : list Msg) : list Msg :=
  match l with
  | [] => [m]
  | x :: l' => if (ts m <? ts x)%Z then m :: l else x :: insert_by_ts m l'
  end.
(** Rows by ascending [ts], rows of equal [ts] in insertion order. *)
Definition order_by_ts (l : list Msg) : list Msg :=
  fold_left (fun acc m => insert_by_ts m acc) l [].
(** [SELECT role, content, ts FROM messages ORDER BY ts ASC]. *)
Definition sql_select : Act (list Msg) :=
  fun a => (a, Return (order_by_ts (rows a))).

Section Controller.

Context {R : Runtime} {U : UrlApi}.
Variable world : World.

Definition Date_now : Act Z :=
  fun a => (mkAgent (name a) (state a) (rows a) (sent a) (S (clock_reads a)),
            Return (now world (clock_reads a))).

(** [this.state.model || DEFAULT_MODEL]. *)
Definition model_or_default (s : State) : value :=
  if toBoolean (model s) then model s else Str DEFAULT_MODEL.

(** ** Persistence helpers *)

Definition saveAssistant (text : string) : Act unit :=
  ts <- Date_now ;;
  sql_insert (mkMsg assistant text ts) ;;;
  s <- getState ;;
  t <- Date_now ;;
  setState (mkState (model s) (messages s ++ [mkMsg assistant text ts])%list
                    (createdAt s) (t + DAY)).

Definition saveToolRow (content : string) : Act unit :=
  ts <- Date_now ;;
  sql_insert (mkMsg tool content ts) ;;;
  s <- getState ;;
  t <- Date_now ;;
  setState (mkState (model s) (messages s ++ [mkMsg tool content ts])%list
                    (createdAt s) (t + DAY)).

(** ** Planning *)

Definition parseToolArgs (raw : value) : value :=
  if isRecord raw then raw
  else match raw with
       | Str s =>
           match JSON_parse s with
           | Return j => if isRecord j then j else Obj []
           | Throw _ => Obj []
           end
       | _ => Obj []
       end.

Definition planner_system : string :=
  (SYSTEM_BEHAVIOR ++ LF ++ LF
   ++ "Planner instructions: Return a tool call ONLY when the user explicitly requests a weather forecast with a concrete location/timeframe. "
   ++ "Otherwise, do not return any tool call.")%string.

Definition planner_messages (history : list ChatMessage) (userText : string)
  : list ChatMessage :=
  ([mkChat "system" planner_system] ++ history
     ++ [mkChat "user" userText])%list.

(** [#tryPlanTool]: the arguments of the planned [getWeather] call, or
    [None] for [null]. *)
Definition tryPlanTool (history : list ChatMessage) (userText : string)
  : Act (option value) :=
  s <- getState ;;
  match AI_run world (model_or_default s)
          (PlanInput (planner_messages history userText)) with
  | Return out =>
      let obj := match out with
                 | OutValue v => if isRecord v then v else Undefined
                 | OutStream _ => Obj []       (* an object without tool_calls *)
                 end in
      match get obj "tool_calls" with
      | Arr (call :: _) =>
          let fn := get (get call "function") "name" in
          if negb (is_str fn "getWeather") then ret None
          else ret (Some (parseToolArgs (get (get call "function") "arguments")))
      | _ => ret None
      end
  | Throw _ => ret None
  end.

(** ** Post-tool summary of a forecast *)

Record Scan := mkScan {
  weeklyHigh : number; weeklyLow : number; maxPop : number; wetIdx : Z }.

(** The [for] loop of [#streamSummary], from index [i] on. *)
Fixpoint scan (i : Z) (days : list WeatherDay) (acc : Scan) : Scan :=
  match days with
  | [] => acc
  | d :: rest =>
      let hi := if isFinite (tMax d) && gt (tMax d) (weeklyHigh acc)
                then tMax d else weeklyHigh acc in
      let lo := if isFinite (tMin d) && lt (tMin d) (weeklyLow acc)
                then tMin d else weeklyLow acc in
      let wet := isFinite (pop d) && gt (pop d) (maxPop acc) in
      scan (i + 1) rest
           (mkScan hi lo (if wet then pop d else maxPop acc)
                   (if wet then i else wetIdx acc))
  end.

Definition round_finite (x : number) : option Z :=
  match x with Fin q => Some (round q) | _ => None end.

Definition placeName (p : Place) : string :=
  String.concat ", "
    (map String_of (filter toBoolean [Weather.name p; region p; country p])).

Definition line1 (place unitT : string) (hi lo : option Z) : string :=
  match hi, lo with
  | Some hi, Some lo =>
      "Next week in " ++ place ++ ", expect highs around " ++ Number_toString hi
        ++ unitT ++ " and lows near " ++ Number_toString lo ++ unitT ++ "."
  | Some hi, None =>
      "Next week in " ++ place ++ ", expect highs around " ++ Number_toString hi
        ++ unitT ++ "."
  | None, Some lo =>
      "Next week in " ++ place ++ ", expect lows near " ++ Number_toString lo
        ++ unitT ++ "."
  | None, None =>
      "Next week in " ++ place ++ ", temperatures vary through the week."
  end.

Definition line2 (pop : option Z) (wetPretty : option string) : string :=
  match pop with
  | Some p =>
      if (p >? 0)%Z then
        match wetPretty with
        | Some day =>
            if JS.truthy day
            then "Peak chance of precipitation is about " ++ Number_toString p
                   ++ "% on " ++ day ++ "."
            else "Peak chance of precipitation is about " ++ Number_toString p ++ "%."
        | None => "Peak chance of precipitation is about " ++ Number_toString p ++ "%."
        end
      else "Rain risk looks low overall."
  | None => "Rain risk looks low overall."
  end.

Definition umbrella : string :=
  "Pack layers and bring a small umbrella or rain jacket just in case.".
Definition layering : string :=
  "Pack layers (mornings/evenings cooler than afternoons).".
Definition light_layers : string :=
  "Light layers should be fine for most of the week.".
Definition flexible_layers : string :=
  "Pack flexible layers to handle changes through the week.".

Definition line3 (hi lo pop : option Z) : string :=
  match hi, lo with
  | Some hi, Some lo =>
      let range := (hi - lo)%Z in
      if match pop with Some p => (p >=? 40)%Z | None => false end
      then umbrella
      else if (range >=? 10)%Z then layering
      else light_layers
  | _, _ => flexible_layers
  end.

(** The text [#streamSummary] builds for a successful result with at least
    one day. *)
Definition summary_text (place : Place) (units : Units)
           (daily : list WeatherDay) : string :=
  let days := firstn (Nat.min 7 (List.length daily)) daily in
  let r := scan 0 days (mkScan NegInf PosInf (Fin (-1)) (-1)) in
  let hi := round_finite (weeklyHigh r) in
  let lo := round_finite (weeklyLow r) in
  let pop := if ge (maxPop r) (Fin 0) then round_finite (maxPop r) else None in
  let unitT := temp units in
  let wetISO :=
    if (wetIdx r >=? 0)%Z
    then date (nth (Z.to_nat (wetIdx r)) days (mkDay "" NaN NaN NaN NaN NaN))
    else "" in
  let wetPretty :=
    if JS.truthy wetISO then Some (toLocaleDateString wetISO) else None in
  String.concat " "
    [ line1 (placeName place) unitT hi lo; line2 pop wetPretty; line3 hi lo pop ].

Definition streamSummary (userText : string) (result : WeatherResult)
  : Act unit :=
  match result with
  | WErr err => saveAssistant ("I couldn't summarize the weather: " ++ err)
  | WOk place units daily _ =>
      match firstn (Nat.min 7 (List.length daily)) daily with
      | [] => saveAssistant "I couldn't find a daily forecast for that range."
      | _ :: _ =>
          let summary := summary_text place units daily in
          send (Delta summary) ;;;
          send Done ;;;
          saveAssistant summary
      end
  end.

(** ** Agentic summary of a capture (safe, non-streaming) *)

Inductive CaptureTool := T_screenshot | T_convertToPdf.

Definition CaptureTool_toString (t : CaptureTool) : string :=
  match t with T_screenshot => "screenshot" | T_convertToPdf => "convertToPdf" end.

Definition num_Z (z : Z) : value := Num (Fin (inject_Z z)).

Definition encode_viewport (v : Capture.Viewport) : value :=
  Obj [("width", num_Z (Capture.width v)); ("height", num_Z (Capture.height v))].

Definition encode_failure (err : string) (code : Capture.ToolErrorCode) : value :=
  Obj [("ok", Bool false); ("error", Str err);
       ("code", Str (Capture.ToolErrorCode_toString code))].

Definition encode_screenshot (r : Capture.ScreenshotResult) : value :=
  match r with
  | Capture.Ok p =>
      Obj [("ok", Bool true); ("kind", Str "screenshot");
           ("url", Str (Capture.sso_url p)); ("r2Key", Str (Capture.sso_r2Key p));
           ("contentType", Str (Capture.sso_contentType p));
           ("bytes", num_Z (Capture.sso_bytes p));
           ("width", num_Z (Capture.sso_width p));
           ("height", num_Z (Capture.sso_height p));
           ("sourceUrl", Str (Capture.sso_sourceUrl p));
           ("viewport", encode_viewport (Capture.sso_viewport p))]
  | Capture.Failed err code => encode_failure err code
  end.

Definition encode_pdf (r : Capture.PdfResult) : value :=
  match r with
  | Capture.Ok p =>
      Obj [("ok", Bool true); ("kind", Str "pdf");
           ("url", Str (Capture.pdo_url p)); ("r2Key", Str (Capture.pdo_r2Key p));
           ("contentType", Str (Capture.pdo_contentType p));
           ("bytes", num_Z (Capture.pdo_bytes p));
           ("sourceUrl", Str (Capture.pdo_sourceUrl p))]
  | Capture.Failed err code => encode_failure err code
  end.

Definition encode_day (d : WeatherDay) : value :=
  Obj [("date", Str (date d)); ("code", Num (code d)); ("tMax", Num (tMax d));
       ("tMin", Num (tMin d)); ("precipMm", Num (precipMm d));
       ("pop", Num (pop d))].

Definition encode_weather (r : WeatherResult) : value :=
  match r with
  | WOk p u daily notes =>
      Obj [("ok", Bool true);
           ("place", Obj [("name", Weather.name p); ("region", region p);
                          ("country", country p); ("lat", lat p);
                          ("lon", lon p); ("timezone", Str (timezone p))]);
           ("units", Obj [("temp", Str (temp u)); ("precip", Str (precip u))]);
           ("daily", Arr (map encode_day daily));
           ("notes", Str notes)]
  | WErr err => Obj [("ok", Bool false); ("error", Str err)]
  end.

(** The envelope persisted in a [tool] row. *)
Definition tool_result (tool : string) (result : value) : string :=
  JSON_stringify
    (Obj [("type", Str "tool_result"); ("tool", Str tool); ("result", result)]).

(** [a || b] on values. *)
Definition or_value (a c : value) : value := if toBoolean a then a else c.

(** The receiver of [trim] in the chat branch, as the source writes it. *)
Definition text_or_empty : string := "(data.text || " ++ dq ++ dq ++ ")".

(** The first [n] characters of a string ([slice(0, n)]). *)
Definition take_chars (n : nat) (s : string) : string :=
  RegExp.join (firstn n (RegExp.chars s)).

(** [r.title || (r.sourceUrl ? new URL(r.sourceUrl).hostname : "page")];
    neither result type has a [title]. *)
Definition title_of (sourceUrl : string) : completion string :=
  if JS.truthy sourceUrl then
    match URL_new sourceUrl with
    | Return u => Return (URL_hostname u)
    | Throw e => Throw e
    end
  else Return "page".

(** The deterministic [fallback] of [summarizeToolOutcome], on the fields it
    reads: [ok], [width], [height], [sourceUrl], [code]. *)
Definition fallback (tool : CaptureTool) (ok : bool) (w h : Z)
           (sourceUrl : string) (code : string) : string :=
  if ok then
    match tool with
    | T_screenshot =>
        let dims :=
          if negb (w =? 0)%Z && negb (h =? 0)%Z
          then " (" ++ Number_toString w ++ "×" ++ Number_toString h ++ ")" else "" in
        match title_of sourceUrl with
        | Return title =>
            "Captured “" ++ title ++ "”" ++ dims
              ++ ". Use the link above to open or download."
        | Throw _ => "Done."
        end
    | T_convertToPdf =>
        match title_of sourceUrl with
        | Return title =>
            "Rendered “" ++ title
              ++ "” to PDF. Use the link above to open or download."
        | Throw _ => "Done."
        end
    end
  else
    let code := if JS.truthy code then " (" ++ code ++ ")" else "" in
    "The " ++ (match tool with T_screenshot => "screenshot" | _ => "PDF" end)
      ++ " step failed" ++ code
      ++ ". You can retry with a longer timeout or a different URL.".

Definition fallback_screenshot (tool : CaptureTool)
           (r : Capture.ScreenshotResult) : string :=
  match r with
  | Capture.Ok p =>
      fallback tool true (Capture.sso_width p) (Capture.sso_height p)
               (Capture.sso_sourceUrl p) ""
  | Capture.Failed _ code =>
      fallback tool false 0 0 "" (Capture.ToolErrorCode_toString code)
  end.

Definition fallback_pdf (tool : CaptureTool) (r : Capture.PdfResult) : string :=
  match r with
  | Capture.Ok p => fallback tool true 0 0 (Capture.pdo_sourceUrl p) ""
  | Capture.Failed _ code =>
      fallback tool false 0 0 "" (Capture.ToolErrorCode_toString code)
  end.

Definition summary_system : string :=
  ("Explain the outcome of a web capture tool (screenshot or PDF) in 1–3 sentences. "
   ++ "Be factual and concise. If navigation timed out or required a fallback (e.g., used 'load' instead of 'networkidle0'), or redirected, mention it briefly. "
   ++ "Offer one concrete suggestion if helpful (e.g., adjust viewport, increase timeout). The link is already shown; don't repeat it.")%string.

(** [summarizeToolOutcome]; [encoded] is the result as [JSON.stringify]
    reads it and [fb] the text of [fallback()] for it. *)
Definition summarizeToolOutcome (modelId : value) (userQuery : string)
           (tool : CaptureTool) (encoded : value) (fb : string) : string :=
  let mid := match modelId with Str m => m | _ => "" end in
  if negb (JS.truthy mid) then fb
  else
    let messages :=
      [ mkChat "system" summary_system;
        mkChat "user"
          ("User request:" ++ LF ++ userQuery ++ LF ++ LF
           ++ "Tool: " ++ CaptureTool_toString tool ++ LF ++ LF
           ++ "Result JSON (truncated):" ++ LF
           ++ take_chars 1800 (JSON_stringify encoded))%string ] in
    match AI_run world (Str mid) (SummaryInput messages) with
    | Return (OutValue (Str out)) => out
    | Return (OutValue ((Obj _ | Arr _) as out)) =>
        match or_value (get out "response")
                (or_value (get out "output")
                   (or_value (get out "text") (Str ""))) with
        | Str txt => if JS.truthy (trim txt) then trim txt else fb
        | _ => fb
        end
    | Return _ => fb
    | Throw _ => fb
    end.

(** ** Streaming chat fallback *)

(** What one data payload contributes: the text sent as a delta and appended
    to [full], if any. *)
Definition payload_delta (payload : string) : option string :=
  match JSON_parse payload with
  | Return json =>
      match get json "response" with
      | Str piece => if JS.truthy piece then Some piece else None
      | _ => None
      end
  | Throw _ => Some payload
  end.

(** One iteration of the [for (const line of ...)] loop. *)
Definition line_delta (line : string) : option string :=
  if negb (startsWith line "data:") then None
  else
    let payload := trimStart (slice_from 5 line) in
    if negb (JS.truthy payload) || (payload =? "[DONE]")%string then None
    else payload_delta payload.

Definition frame_deltas (frame : string) : list string :=
  flat_map (fun line => match line_delta line with
                        | Some d => [d]
                        | None => []
                        end)
           (split_lines (crlf_to_lf frame)).

(** The inner [while] loop: frames are cut off the buffer while it holds a
    blank line; the deltas they yield and the buffer that is left. *)
Fixpoint drain (fuel : nat) (buffer : string) : list string * string :=
  match fuel with
  | O => ([], buffer)
  | S fuel' =>
      match index 0 (LF ++ LF) buffer with
      | Some idx =>
          let frame := substring 0 idx buffer in
          let '(ds, rest) := drain fuel' (slice_from (idx + 2) buffer) in
          ((frame_deltas frame ++ ds)%list, rest)
      | None => ([], buffer)
      end
  end.

(** The outer [while (true)] loop over the chunks the reader yields. *)
Fixpoint relay (chunks : list string) (buffer : string) : list string :=
  match chunks with
  | [] => []
  | chunk :: rest =>
      let buffer := (buffer ++ chunk)%string in
      let '(ds, remaining) := drain (String.length buffer) buffer in
      (ds ++ relay rest remaining)%list
  end.

Definition streamAssistant (history : list ChatMessage) : Act unit :=
  s <- getState ;;
  match AI_run world (model_or_default s)
          (StreamInput (mkChat "system" SYSTEM_BEHAVIOR :: history)) with
  | Return (OutStream stream) =>
      let deltas := relay (chunks stream) "" in
      let full := String.concat "" deltas in
      sends (map Delta deltas) ;;;
      match failure stream with
      | None => send Done ;;; saveAssistant full
      | Some _ => send Done ;;; saveAssistant (or_else full "_(stream error)_")
      end
  | Return (OutValue out) =>
      (* not a stream: saved inside the [try], [done] sent by [finally] *)
      saveAssistant (match out with Str s => s | _ => "[no response]" end) ;;;
      send Done
  | Throw _ =>
      send Done ;;; saveAssistant "_(stream error)_"
  end.

(** ** Intent patterns *)

Import RegExp.

(** ["\b(screenshot|capture\b.*(page|site|screen)|image of)\b"], flag [i]. *)
Definition ssRe : re :=
  Seq WordB
    (Seq (Alt (lit "screenshot")
           (Alt (Seq (lit "capture")
                   (Seq WordB
                      (Seq (Star dot)
                         (Alt (lit "page") (Alt (lit "site") (lit "screen"))))))
              (lit "image of")))
       WordB).

(** ["\bhttps?:\/\/\S+|(?:\b[\w-]+\.)+\w{2,}(?:\/\S{0,})?"], flag [i] (the source
    writes the last repetition with a star). *)
Definition urlRe : re :=
  Alt (Seq WordB
         (Seq (lit "http") (Seq (Opt (ci "s")) (Seq (lit "://") (Plus S_)))))
      (Seq (Plus (Seq WordB (Seq (Plus w_or_dash) (ci "."))))
         (Seq (AtLeast2 w_) (Opt (Seq (ci "/") (Star S_))))).

(** ["\b(pdf|export to pdf|save as pdf|render .* pdf)\b"], flag [i]. *)
Definition pdfRe : re :=
  Seq WordB
    (Seq (Alt (lit "pdf")
           (Alt (lit "export to pdf")
              (Alt (lit "save as pdf")
                 (Seq (lit "render ") (Seq (Star dot) (lit " pdf"))))))
       WordB).

(** [m?.[0] ?? ""] for [m = userText.match(urlRe)]. *)
Definition url_token (userText : string) : string :=
  match exec urlRe userText with Some m => m | None => "" end.

(** ** The controller *)

Inductive Frame := TextFrame (s : string) | BinaryFrame.

Definition isUserOrAssistant (m : Msg) : bool :=
  match role m with user | assistant => true | tool => false end.

Definition Role_toString (r : Role) : string :=
  match r with user => "user" | assistant => "assistant" | tool => "tool" end.

(** [l.slice(-n)]. *)
Definition last_n {A} (n : nat) (l : list A) : list A :=
  skipn (List.length l - n) l.

(** Runs a capture pipeline from a fresh call, forwarding each progress
    message as a [step] event as it is emitted. *)
Definition run_capture {P} (tool : string) (m : Capture.M (Capture.Result P))
  : Act (Capture.Result P) :=
  let '(run, c) := m Capture.start in
  sends (map (fun msg => Tool tool step (Some msg) NoResult)
             (Capture.emitted run)) ;;;
  lift c.

Definition onConnect : Act unit :=
  (* #schema(): CREATE TABLE IF NOT EXISTS *)
  s <- getState ;;
  (match messages s with
   | [] =>
       rows <- sql_select ;;
       t <- Date_now ;;
       setState (mkState (model s) rows (createdAt s) (t + DAY))
   | _ :: _ => ret tt
   end) ;;;
  s <- getState ;;
  send (Ready s).

Definition speak (text : string) : Act unit :=
  send (Delta text) ;;; send Done ;;; saveAssistant text.

Definition weather_turn (userText : string) (args : value) : Act unit :=
  let pre :=
    ("Sure — I’ll check the forecast for "
     ++ String_of (nullish (get args "location") (Str "that location"))
     ++ " using getWeather…")%string in
  speak pre ;;;
  send (Tool "getWeather" started (Some "Planning weather lookup…") NoResult) ;;;
  send (Tool "getWeather" step (Some "Fetching forecast from Open-Meteo…")
             NoResult) ;;;
  let res := getWeather (net world) args in
  match res with
  | WErr err =>
      send (Tool "getWeather" error (Some err) NoResult) ;;;
      saveAssistant ("I couldn't fetch the weather: " ++ err)
  | WOk _ _ _ _ =>
      send (Tool "getWeather" done (Some "Forecast ready")
                 (WeatherPayload res)) ;;;
      saveToolRow (tool_result "getWeather" (encode_weather res)) ;;;
      streamSummary userText res
  end.

Definition screenshot_args (target : string) : Capture.ScreenshotArgs :=
  Capture.mkScreenshotArgs (or_else target "https://example.com") (Some true)
                           None None None.

(** The screenshot branch once [target] and [args] are known. *)
Definition screenshot_with (userText target : string)
           (args : Capture.ScreenshotArgs) : Act unit :=
  let pre := ("Okay — I’ll capture a full-page screenshot of "
              ++ or_else target "that page" ++ "…")%string in
  speak pre ;;;
  send (Tool "screenshot" started (Some "Planning capture…") NoResult) ;;;
  sid <- this_name ;;
  res <- run_capture "screenshot"
           (Capture.captureScreenshot (browser world) sid args) ;;
  match res with
  | Capture.Failed err _ =>
      send (Tool "screenshot" error (Some err) (ScreenshotPayload res)) ;;;
      s <- getState ;;
      speak (summarizeToolOutcome (model s) userText T_screenshot
               (encode_screenshot res) (fallback_screenshot T_screenshot res))
  | Capture.Ok _ =>
      send (Tool "screenshot" done (Some "Screenshot ready")
                 (ScreenshotPayload res)) ;;;
      saveToolRow (tool_result "screenshot" (encode_screenshot res)) ;;;
      s <- getState ;;
      speak (summarizeToolOutcome (model s) userText T_screenshot
               (encode_screenshot res) (fallback_screenshot T_screenshot res))
  end.

Definition screenshot_turn (userText : string) : Act unit :=
  let target := url_token userText in
  screenshot_with userText target (screenshot_args target).

Definition pdf_args (target : string) : Capture.PdfArgs :=
  Capture.mkPdfArgs (or_else target "https://example.com") None None None
    (Some (Capture.mkPdfOpts (Some Capture.A4) None (Some 1%Q))).

(** The PDF branch once [target] and [args] are known. *)
Definition pdf_with (userText target : string) (args : Capture.PdfArgs)
  : Act unit :=
  let pre := ("Got it — I’ll render a PDF of "
              ++ or_else target "that page" ++ "…")%string in
  speak pre ;;;
  send (Tool "convertToPdf" started (Some "Planning PDF…") NoResult) ;;;
  sid <- this_name ;;
  res <- run_capture "convertToPdf"
           (Capture.convertToPdf (browser world) sid args) ;;
  match res with
  | Capture.Failed err _ =>
      send (Tool "convertToPdf" error (Some err) (PdfPayload res)) ;;;
      s <- getState ;;
      speak (summarizeToolOutcome (model s) userText T_convertToPdf
               (encode_pdf res) (fallback_pdf T_convertToPdf res))
  | Capture.Ok _ =>
      send (Tool "convertToPdf" done (Some "PDF ready") (PdfPayload res)) ;;;
      saveToolRow (tool_result "convertToPdf" (encode_pdf res)) ;;;
      s <- getState ;;
      speak (summarizeToolOutcome (model s) userText T_convertToPdf
               (encode_pdf res) (fallback_pdf T_convertToPdf res))
  end.

Definition pdf_turn (userText : string) : Act unit :=
  let target := url_token userText in
  pdf_with userText target (pdf_args target).

(** Persists the user message, in the table and in the state. *)
Definition remember_user (userText : string) : Act unit :=
  now <- Date_now ;;
  sql_insert (mkMsg user userText now) ;;;
  s <- getState ;;
  t <- Date_now ;;
  setState (mkState (model s) (messages s ++ [mkMsg user userText now])%list
                    (createdAt s) (t + DAY)).

(** The short history for planning and chat: the user and assistant rows
    among the last 40 messages. *)
Definition history_of (s : State) : list ChatMessage :=
  map (fun m => mkChat (Role_toString (role m)) (content m))
      (filter isUserOrAssistant (last_n 40 (messages s))).

(** The [chat] branch of [onMessage]; [text] is [data.text]. *)
Definition chat (text : value) : Act unit :=
  userText <- lift (call_trim text_or_empty (or_value text (Str ""))) ;;
  if negb (JS.truthy userText) then ret tt
  else
    remember_user userText ;;;
    s <- getState ;;
    let history := history_of s in
    planned <- tryPlanTool history userText ;;
    match planned with
    | Some args => weather_turn userText args
    | None =>
        if test ssRe userText then screenshot_turn userText
        else if test pdfRe userText then pdf_turn userText
        else streamAssistant history
    end.

Definition onMessage (message : Frame) : Act unit :=
  match message with
  | BinaryFrame => ret tt
  | TextFrame m =>
      let data := match JSON_parse m with Return d => d | Throw _ => Null end in
      let type := get data "type" in
      if negb (toBoolean type) then ret tt
      else if is_str type "model" && toBoolean (get data "model") then
        s <- getState ;;
        t <- Date_now ;;
        setState (mkState (get data "model") (messages s) (createdAt s) (t + DAY))
      else if is_str type "reset" then
        sql_delete ;;;
        s <- getState ;;
        c <- Date_now ;;
        t <- Date_now ;;
        setState (mkState (model_or_default s) [] c (t + DAY)) ;;;
        send Cleared
      else if is_str type "chat" then chat (get data "text")
      else ret tt
  end.

End Controller.

End Agent.

(* ================================================================== *)
(** * worker/tools/streamAI.ts *)
(* ================================================================== *)

Module StreamAI.

Local Open Scope string_scope.

Inductive Step := Skip | Stop | Emit (text : string).

Section Tool.

Context {R : Runtime}.

(** The text [full += delta] appends for a truthy [delta]. *)
Definition text_of (v : value) : string :=
  match v with Str s => s | _ => String_of v end.

(** [j.delta?.content ?? j.response?.[0]?.content?.[0]?.text ??
     j.output_text ?? j.text ?? ""]; reading [j.delta] throws on [null]. *)
Definition pick_delta (j : value) : completion value :=
  match j with
  | Null | Undefined => Throw (Weather.TypeError "Cannot read properties of null")
  | _ =>
      Return
        (nullish (get (get j "delta") "content")
           (nullish (get (index0 (get (index0 (get j "response")) "content")) "text")
              (nullish (get j "output_text")
                 (nullish (get j "text") (Str "")))))
  end.

(** One iteration of the [for (const raw of lines)] loop. *)
Definition line_step (raw : string) : Step :=
  let line := trim raw in
  if negb (startsWith line "data:") then Skip
  else
    let payload := trim (slice_from 5 line) in
    if (payload =? "[DONE]")%string then Stop
    else
      match JSON_parse payload with
      | Return j =>
          match pick_delta j with
          | Return delta => if toBoolean delta then Emit (text_of delta) else Skip
          | Throw _ => Emit payload
          end
      | Throw _ => Emit payload
      end.

(** The [for] loop: the deltas handed to [onDelta], and whether the loop
    left the function with [return full]. *)
Fixpoint run_lines (lines : list string) : list string * bool :=
  match lines with
  | [] => ([], false)
  | raw :: rest =>
      match line_step raw with
      | Stop => ([], true)
      | Skip => run_lines rest
      | Emit d => let '(ds, stopped) := run_lines rest in (d :: ds, stopped)
      end
  end.

(** The [while (true)] loop over the chunks the reader yields: the deltas,
    and whether the function returned on the sentinel. *)
Fixpoint consume (chunks : list string) (buf : string) : list string * bool :=
  match chunks with
  | [] => ([], false)
  | chunk :: rest =>
      let lines := split_lines (buf ++ chunk) in
      let buf := List.last lines "" in
      let '(ds, stopped) := run_lines (removelast lines) in
      if stopped then (ds, true)
      else let '(ds', stopped') := consume rest buf in
           ((ds ++ ds')%list, stopped')
  end.

(** [streamAI]: the deltas handed to [onDelta], in order, and the completion
    of the call; [out] is what [AI.run] produced. *)
Definition streamAI (out : completion Agent.Stream)
  : list string * completion string :=
  match out with
  | Throw e => ([], Throw e)
  | Return s =>
      let '(ds, stopped) := consume (Agent.chunks s) "" in
      match stopped, Agent.failure s with
      | false, Some e => (ds, Throw e)
      | _, _ => (ds, Return (String.concat "" ds))
      end
  end.

End Tool.

End StreamAI.
(* ================================================================== *)
(** * worker/session.ts and worker/index.ts *)
(* ================================================================== *)

Module Worker.

Import Weather.
Local Open Scope string_scope.

(** The request, on what the worker reads of it: its URL, its method and
    its [Cookie] header ([None] when [headers.get] gives [null]). *)
Record Request := mkRequest {
  url : string; method : string; cookie : option string }.

(** A response: its status, the headers the worker sets on it, in the
    order it sets them, and its body. *)
Record Response := mkResponse {
  status : Z; headers : list (string * string); body : string }.

(** An object of the bucket: [httpMetadata?.contentType] and the body. *)
Record R2Object := mkR2Object {
  contentType : option string; content : string }.

(** What surrounds the worker. *)
Record Platform := mkPlatform {
  pathname : string -> completion string;    (* [new URL(u).pathname] *)
  searchParam : string -> string -> completion (option string);
                                     (* [new URL(u).searchParams.get(k)] *)
  routeAgentRequest : Request -> completion (option Response);
  decodeURIComponent : string -> completion string;
  bucket_get : string -> completion (option R2Object);
  kv_put : string -> string -> completion unit;
  randomUUID : string;
  assets_fetch : Request -> completion Response }.

(** ** Patterns *)

Import RegExp.

(** The class [a-z0-9-]. *)
Definition sid_char (c : ascii) : bool :=
  byte_in 97 122 c || byte_in 48 57 c || Ascii.eqb c "-".

Definition sid_class : re :=
  Chr (fun u => match u with
                | String c EmptyString => sid_char c
                | _ => false
                end).

(** One literal character, and a literal word, without the [i] flag. *)
Definition exactly (c : ascii) : re :=
  Chr (fun u => (u =? String c "")%string).

Fixpoint word (w : string) : re :=
  match w with
  | EmptyString => Eps
  | String c r => Seq (exactly c) (word r)
  end.

(** ["^[a-z0-9-]{8,}$"], without its anchors. *)
Definition sidRe : re :=
  let c := sid_class in
  Seq c (Seq c (Seq c (Seq c (Seq c (Seq c (Seq c (Seq c (Star c)))))))).

(** ["cf_session=([a-z0-9-]+)"]. *)
Definition cookieRe : re := Seq (word "cf_session=") (Plus sid_class).

(** ** session.ts *)

Definition validSid (s : option string) : option string :=
  match s with
  | Some s => if JS.truthy s && test_whole sidRe s then Some s else None
  | None => None
  end.

(** [cookie.match(cookieRe)?.[1]]: the group is what follows the eleven
    characters of "cf_session=" in the match. *)
Definition session_of_cookie (cookie : string) : option string :=
  option_map (slice_from 11) (exec cookieRe cookie).

Section Handlers.

Context {R : Runtime}.
Variable platform : Platform.

Definition getOrCreateSession (request : Request) : completion Response :=
  sid <-- searchParam platform (url request) "sid" ;;
  let supplied := validSid sid in
  let cookie :=
    match cookie request with Some c => or_else c "" | None => "" end in
  let existing := session_of_cookie cookie in
  let sessionId :=
    match supplied with
    | Some s => s
    | None => match existing with
              | Some s => s
              | None => randomUUID platform
              end
    end in
  _ <-- kv_put platform ("sess:" ++ sessionId) "1" ;;
  Return
    (mkResponse 200
       [("content-type", "application/json");
        ("Set-Cookie",
         "cf_session=" ++ sessionId
           ++ "; Path=/; Max-Age=86400; SameSite=Lax; HttpOnly")]
       (JSON_stringify (Obj [("sessionId", Str sessionId)]))).

(** ** index.ts *)

(** [s.split(sep)] for a separator of one character. *)
Fixpoint split_on (sep : ascii) (s : string) : list string :=
  match s with
  | EmptyString => [""]
  | String c r =>
      if Ascii.eqb c sep then "" :: split_on sep r
      else match split_on sep r with
           | l :: ls => String c l :: ls
           | [] => [String c ""]
           end
  end.

(** [name.replace] with the pattern of one double quote, flag [g], and the
    empty replacement: every double quote is removed. *)
Fixpoint without_quotes (s : string) : string :=
  match s with
  | EmptyString => EmptyString
  | String c r =>
      if (nat_of_ascii c =? 34)%nat then without_quotes r
      else String c (without_quotes r)
  end.

(** The response that streams an object of the bucket; [caching] holds the
    headers set after [content-disposition]. *)
Definition stream_object (obj : R2Object) (name : string)
           (caching : list (string * string)) : Response :=
  mkResponse 200
    ((match contentType obj with
      | Some ct => if JS.truthy ct then [("content-type", ct)] else []
      | None => []
      end)
     ++ [("content-disposition",
          ("inline; filename=" ++ Agent.dq ++ without_quotes name
             ++ Agent.dq)%string)]
     ++ caching)%list
    (content obj).

(** One of the two file routes: [skip] path segments come before the
    session id. *)
Definition serve_file (path : string) (skip : nat)
           (caching : list (string * string)) : completion Response :=
  let parts := filter JS.truthy (split_on "/" path) in
  if (skip + 2 <=? List.length parts)%nat then
    let sid := nth skip parts "" in
    name <-- decodeURIComponent platform
               (String.concat "/" (skipn (skip + 1) parts)) ;;
    let key := "files/" ++ sid ++ "/" ++ name in
    obj <-- bucket_get platform key ;;
    match obj with
    | None => Return (mkResponse 404 [] "Not found")
    | Some obj => Return (stream_object obj name caching)
    end
  else Return (mkResponse 400 [] "Bad Request").

Definition fetch (request : Request) : completion Response :=
  path <-- pathname platform (url request) ;;
  routed <-- routeAgentRequest platform request ;;
  match routed with
  | Some response => Return response
  | None =>
      if (path =? "/api/session") && (method request =? "GET")
      then getOrCreateSession request
      else if startsWith path "/files/" then
        serve_file path 1
          [("cache-control", "private, max-age=0, must-revalidate")]
      else if startsWith path "/api/files/" then
        serve_file path 2
          [("cache-control", "public, max-age=3600"); ("x-worker", "on");
           ("x-route", "api-files")]
      else if (path =? "/api/health") || (path =? "/health") then
        Return (mkResponse 200
                  [("content-type", "application/json"); ("x-worker", "on")]
                  (JSON_stringify (Obj [("ok", Bool true)])))
      else assets_fetch platform request
  end.

End Handlers.

End Worker.


(* ================================================================== *)
(** * A small runtime, to run the model on concrete inputs *)
(* ================================================================== *)

(** [Sample.runtime] and [Sample.urls] implement the two interfaces on the
    inputs the examples below use: JSON without unicode escapes and
    exponents, and URLs made of a scheme, a host, an optional port and a
    path.  The theorems that quantify over [Runtime] and [UrlApi] do not
    depend on them. *)
Module Sample.

Local Open Scope string_scope.

Definition code (c : ascii) : nat := nat_of_ascii c.
Definition isc (n : nat) (c : ascii) : bool := (code c =? n)%nat.
Definition digit (c : ascii) : bool := RegExp.byte_in 48 57 c.
Definition alpha (c : ascii) : bool :=
  RegExp.byte_in 65 90 c || RegExp.byte_in 97 122 c.

Definition SyntaxError : Error := mkError "SyntaxError" "Unexpected token".

(** ** JSON *)

Fixpoint skip_ws (s : string) : string :=
  match s with
  | String c r => if isc 32 c || isc 9 c || isc 10 c || isc 13 c then skip_ws r else s
  | EmptyString => s
  end.

(** The characters of a string literal after its opening quote, and what
    follows the closing quote. *)
Fixpoint string_body (s : string) : option (string * string) :=
  match s with
  | EmptyString => None
  | String c r =>
      if isc 34 c then Some ("", r)
      else if isc 92 c then
        match r with
        | String e r' =>
            let unescaped :=
              if isc 34 e || isc 92 e || isc 47 e then Some e
              else if isc 98 e then Some (ascii_of_nat 8)
              else if isc 102 e then Some (ascii_of_nat 12)
              else if isc 110 e then Some (ascii_of_nat 10)
              else if isc 114 e then Some (ascii_of_nat 13)
              else if isc 116 e then Some (ascii_of_nat 9)
              else None in
            match unescaped, string_body r' with
            | Some u, Some (body, rest) => Some (String u body, rest)
            | _, _ => None
            end
        | EmptyString => None
        end
      else if (code c <? 32)%nat then None
      else match string_body r with
           | Some (body, rest) => Some (String c body, rest)
           | None => None
           end
  end.

(** A run of digits: its value, its length and what follows. *)
Fixpoint digits (s : string) (acc : Z) (n : nat) : Z * nat * string :=
  match s with
  | String c r =>
      if digit c then digits r (acc * 10 + Z.of_nat (code c - 48)) (S n)
      else (acc, n, s)
  | EmptyString => (acc, n, s)
  end.

(** [-? int frac?]. *)
Definition number_lit (s : string) : option (Q * string) :=
  let '(neg, s) := match s with
                   | String c r => if isc 45 c then (true, r) else (false, s)
                   | EmptyString => (false, s)
                   end in
  let '(i, n, rest) := digits s 0 0 in
  let leading_zero := match s with
                      | String c _ => isc 48 c && (1 <? n)%nat
                      | EmptyString => false
                      end in
  if (n =? 0)%nat || leading_zero then None
  else
    let sign (q : Q) := if neg then Qopp q else q in
    match rest with
    | String c r =>
        if isc 46 c then
          let '(f, m, rest') := digits r 0 0 in
          if (m =? 0)%nat then None
          else Some (sign (Qmake (i * 10 ^ Z.of_nat m + f)
                                 (Z.to_pos (10 ^ Z.of_nat m))), rest')
        else if isc 101 c || isc 69 c then None
        else Some (sign (inject_Z i), rest)
    | EmptyString => Some (sign (inject_Z i), rest)
    end.

Definition after (lit : string) (s : string) : option string :=
  if prefix lit s then Some (slice_from (String.length lit) s) else None.

Fixpoint parse_value (fuel : nat) (s : string) : option (value * string) :=
  match fuel with
  | O => None
  | S fuel' =>
      let s := skip_ws s in
      match s with
      | EmptyString => None
      | String c r =>
          if isc 110 c then option_map (pair Null) (after "null" s)
          else if isc 116 c then option_map (pair (Bool true)) (after "true" s)
          else if isc 102 c then option_map (pair (Bool false)) (after "false" s)
          else if isc 34 c then
            match string_body r with
            | Some (body, rest) => Some (Str body, rest)
            | None => None
            end
          else if isc 91 c then
            match skip_ws r with
            | String c' r' =>
                if isc 93 c' then Some (Arr [], r')
                else match parse_items fuel' r with
                     | Some (items, rest) => Some (Arr items, rest)
                     | None => None
                     end
            | EmptyString => None
            end
          else if isc 123 c then
            match skip_ws r with
            | String c' r' =>
                if isc 125 c' then Some (Obj [], r')
                else match parse_members fuel' r with
                     | Some (fields, rest) => Some (Obj fields, rest)
                     | None => None
                     end
            | EmptyString => None
            end
          else match number_lit s with
               | Some (q, rest) => Some (Num (Fin q), rest)
               | None => None
               end
      end
  end
with parse_items (fuel : nat) (s : string) : option (list value * string) :=
  match fuel with
  | O => None
  | S fuel' =>
      match parse_value fuel' s with
      | Some (v, rest) =>
          match skip_ws rest with
          | String c r =>
              if isc 44 c then
                match parse_items fuel' r with
                | Some (vs, rest') => Some (v :: vs, rest')
                | None => None
                end
              else if isc 93 c then Some ([v], r)
              else None
          | EmptyString => None
          end
      | None => None
      end
  end
with parse_members (fuel : nat) (s : string)
  : option (list (string * value) * string) :=
  match fuel with
  | O => None
  | S fuel' =>
      match skip_ws s with
      | String q r =>
          if isc 34 q then
            match string_body r with
            | Some (key, rest) =>
                match skip_ws rest with
                | String c r1 =>
                    if isc 58 c then
                      match parse_value fuel' r1 with
                      | Some (v, rest') =>
                          match skip_ws rest' with
                          | String c' r2 =>
                              if isc 44 c' then
                                match parse_members fuel' r2 with
                                | Some (fs, rest'') => Some ((key, v) :: fs, rest'')
                                | None => None
                                end
                              else if isc 125 c' then Some ([(key, v)], r2)
                              else None
                          | EmptyString => None
                          end
                      | None => None
                      end
                    else None
                | EmptyString => None
                end
            | None => None
            end
          else None
      | EmptyString => None
      end
  end.

Definition parse (s : string) : completion value :=
  match parse_value (2 * String.length s + 2) s with
  | Some (v, rest) =>
      match skip_ws rest with
      | EmptyString => Return v
      | String _ _ => Throw SyntaxError
      end
  | None => Throw SyntaxError
  end.

(** ** Printing *)

(** The first [n] decimals of [r / d], for [0 <= r < d], without trailing
    zeros. *)
Fixpoint decimals (n : nat) (r d : Z) : string :=
  match n with
  | O => ""
  | S n' =>
      if (r =? 0)%Z then ""
      else Z_toString (r * 10 / d) ++ decimals n' ((r * 10) mod d) d
  end.

Definition print_Q (q : Q) : string :=
  let n := Qnum q in
  let d := Z.pos (Qden q) in
  let whole := (Z.abs n / d)%Z in
  let frac := decimals 17 (Z.abs n mod d) d in
  (if (n <? 0)%Z then "-" else "")
    ++ Z_toString whole ++ (if JS.truthy frac then "." ++ frac else "").

Definition print_number (x : number) : string :=
  match x with
  | NaN => "NaN" | PosInf => "Infinity" | NegInf => "-Infinity"
  | Fin q => print_Q q
  end.

Definition quoted (s : string) : string := Agent.dq ++ s ++ Agent.dq.

Fixpoint stringify (v : value) : string :=
  match v with
  | Undefined | Null => "null"
  | Bool true => "true"
  | Bool false => "false"
  | Num (Fin q) => print_Q q
  | Num _ => "null"
  | Str s => quoted s
  | Arr items => "[" ++ String.concat "," (map stringify items) ++ "]"
  | Obj fields =>
      "{" ++ String.concat ","
               (flat_map (fun kv => match kv with
                                    | (_, Undefined) => []
                                    | (k, x) => [quoted k ++ ":" ++ stringify x]
                                    end) fields)
          ++ "}"
  end.

Fixpoint to_string (v : value) : string :=
  match v with
  | Undefined => "undefined"
  | Null => "null"
  | Bool true => "true"
  | Bool false => "false"
  | Num x => print_number x
  | Str s => s
  | Arr items =>
      String.concat ","
        (map (fun x => match x with
                       | Undefined | Null => ""
                       | _ => to_string x
                       end) items)
  | Obj _ => "[object Object]"
  end.

Definition to_number (v : value) : number :=
  match v with
  | Undefined => NaN
  | Null => Fin 0
  | Bool true => Fin 1
  | Bool false => Fin 0
  | Num x => x
  | Str s =>
      match trim s with
      | EmptyString => Fin 0
      | t => match number_lit t with
             | Some (q, EmptyString) => Fin q
             | _ => NaN
             end
      end
  | Arr [] => Fin 0
  | _ => NaN
  end.

#[export] Instance runtime : Runtime := {
  JSON_parse := parse;
  JSON_stringify := stringify;
  String_of := to_string;
  Number_of := to_number;
  toLocaleDateString := fun iso => iso;
  not_a_function := fun callee => callee ++ " is not a function"
}.

(** ** URLs *)

Record Url := mkUrl {
  protocol : string; hostname : string; port : string; rest : string }.

Definition scheme_char (c : ascii) : bool :=
  alpha c || digit c || isc 43 c || isc 45 c || isc 46 c.

(** The scheme that starts [s] (without its colon) and what follows the
    colon. *)
Fixpoint scheme_tail (s : string) : option (string * string) :=
  match s with
  | EmptyString => None
  | String c r =>
      if isc 58 c then Some ("", r)
      else if scheme_char c then
        match scheme_tail r with
        | Some (sch, t) => Some (String c sch, t)
        | None => None
        end
      else None
  end.

Definition scheme_of (s : string) : option (string * string) :=
  match s with
  | String c _ => if alpha c then scheme_tail s else None
  | EmptyString => None
  end.

(** Splits at the first character satisfying [p]. *)
Fixpoint break (p : ascii -> bool) (s : string) : string * string :=
  match s with
  | EmptyString => ("", "")
  | String c r =>
      if p c then ("", s)
      else let '(a, z) := break p r in (String c a, z)
  end.

Fixpoint drop_slashes (s : string) : string :=
  match s with
  | String c r => if isc 47 c || isc 92 c then drop_slashes r else s
  | EmptyString => s
  end.

Definition host_char (c : ascii) : bool :=
  (32 <? code c)%nat && negb (isc 127 c)
  && negb (existsb (fun n => isc n c)
                  [34; 35; 37; 47; 58; 60; 62; 63; 64; 91; 92; 93; 94; 124]%nat).

Fixpoint all_chars (p : ascii -> bool) (s : string) : bool :=
  match s with
  | EmptyString => true
  | String c r => p c && all_chars p r
  end.

Definition InvalidURL : Error := mkError "TypeError" "Invalid URL".

Definition url_new (s : string) : completion Url :=
  match scheme_of s with
  | None => Throw InvalidURL
  | Some (sch, tail) =>
      let sch := toLowerCase sch in
      if existsb (String.eqb sch) ["http"; "https"] then
        let '(authority, path) :=
          break (fun c => isc 47 c || isc 92 c || isc 63 c || isc 35 c)
                (drop_slashes tail) in
        let '(host, port) := break (isc 58) authority in
        let port := match port with String _ p => p | EmptyString => "" end in
        if negb (JS.truthy host) || negb (all_chars host_char host)
           || negb (all_chars digit port)
        then Throw InvalidURL
        else Return (mkUrl (sch ++ ":") (toLowerCase host)
                           (if JS.truthy port then ":" ++ port else "")
                           (if JS.truthy path then path else "/"))
      else Return (mkUrl (sch ++ ":") "" "" tail)
  end.

Definition url_toString (u : Url) : string :=
  if existsb (String.eqb (protocol u)) ["http:"; "https:"]
  then protocol u ++ "//" ++ hostname u ++ port u ++ rest u
  else protocol u ++ rest u.

#[export] Instance urls : UrlApi := {
  URL := Url;
  URL_new := url_new;
  URL_protocol := protocol;
  URL_hostname := hostname;
  URL_toString := url_toString;
  URL_setHostname := fun u h => mkUrl (protocol u) h (port u) (rest u)
}.

End Sample.

(* ================================================================== *)
(** * Concrete surroundings for the examples *)
(* ================================================================== *)

Module Scenario.

Import Agent.
Local Open Scope string_scope.

Definition q (s : string) : string := Sample.quoted s.

(** The frames a client sends. *)
Definition reset_frame : string := "{" ++ q "type" ++ ":" ++ q "reset" ++ "}".
Definition chat_frame (text : string) : string :=
  "{" ++ q "type" ++ ":" ++ q "chat" ++ "," ++ q "text" ++ ":" ++ q text ++ "}".

Definition offline : Error := mkError "TypeError" "fetch failed".

(** A browser in which every call returns. *)
Definition browser_ok : Capture.Env :=
  Capture.mkEnv (Return tt) (Return tt) (fun _ => Return tt) (Return tt)
    (fun _ => Return tt) (Return tt) (Return tt) (fun _ => Return tt)
    (fun _ _ _ _ => Return tt) "https://example.com/" (Return "Example Domain")
    (fun _ => Return 4096%Z) (fun _ _ _ _ => Return 8192%Z)
    "3f2b6c1e-0000-4000-8000-000000000000" (fun _ _ => Return tt) (Return tt).

(** The same browser when Browser Rendering refuses to start one. *)
Definition browser_down : Capture.Env :=
  Capture.mkEnv (Throw (mkError "Error" "Unable to create new browser: code: 429"))
    (Return tt) (fun _ => Return tt) (Return tt)
    (fun _ => Return tt) (Return tt) (Return tt) (fun _ => Return tt)
    (fun _ _ _ _ => Return tt) "https://example.com/" (Return "Example Domain")
    (fun _ => Return 4096%Z) (fun _ _ _ _ => Return 8192%Z)
    "3f2b6c1e-0000-4000-8000-000000000000" (fun _ _ => Return tt) (Return tt).


(** A model binding that answers every request with plain text. *)
Definition ai_text (answer : string)
  : value -> AiInput -> completion AiOutput :=
  fun _ _ => Return (OutValue (Obj [("response", Str answer)])).

(** A model binding whose planner asks for [getWeather] whatever the turn
    says. *)
Definition ai_weather : value -> AiInput -> completion AiOutput :=
  fun _ input =>
    match input with
    | PlanInput _ =>
        Return (OutValue
          (Obj [("tool_calls",
                 Arr [Obj [("function",
                            Obj [("name", Str "getWeather");
                                 ("arguments",
                                  Obj [("location", Str "Paris")])])]])]))
    | _ => Return (OutValue (Obj [("response", Str "ok")]))
    end.

(** A model binding that streams [chunks] for a chat request. *)
Definition ai_stream (chunks : list string)
  : value -> AiInput -> completion AiOutput :=
  fun _ input =>
    match input with
    | StreamInput _ => Return (OutStream (mkStream chunks None))
    | _ => Return (OutValue (Obj []))
    end.

Definition net_down : Weather.Net := Weather.mkNet (fun _ => Throw offline).

Definition clock (n : nat) : Z := 1700000000000 + Z.of_nat n.

Definition world_of (ai : value -> AiInput -> completion AiOutput)
           (browser : Capture.Env) : World :=
  mkWorld clock ai net_down browser.

(** A world whose model answers in plain text and never plans a tool. *)
Definition w_text : World := world_of (ai_text "Hello!") browser_ok.

(** A session that already holds one exchange. *)
Definition hello : list Msg :=
  [mkMsg user "hello" 1699999999000; mkMsg assistant "Hi!" 1699999999500].

Definition agent0 : Agent :=
  mkAgent "0f8fad5b-d9cb-469f-a165-70867728950e"
          (mkState (Str "@hf/nousresearch/hermes-2-pro-mistral-7b") hello
                   1699999990000 1700086390000)
          hello [] 0.

(** Two ways a navigation fails. *)
Definition refused : Error :=
  mkError "Error" "net::ERR_CONNECTION_REFUSED at https://example.com/".
Definition timed_out : Error :=
  mkError "TimeoutError" "Navigation timeout of 20000 ms exceeded".

(** A browser whose first navigation times out and whose later ones
    return. *)
Definition browser_slow : Capture.Env :=
  Capture.mkEnv (Return tt) (Return tt) (fun _ => Return tt) (Return tt)
    (fun _ => Return tt) (Return tt) (Return tt) (fun _ => Return tt)
    (fun n _ _ _ => match n with O => Throw timed_out | S _ => Return tt end)
    "https://example.com/" (Return "Example Domain")
    (fun _ => Return 4096%Z) (fun _ _ _ _ => Return 8192%Z)
    "3f2b6c1e-0000-4000-8000-000000000000" (fun _ _ => Return tt) (Return tt).

(** A browser in which every navigation fails with [err]. *)
Definition browser_unreachable (err : Error) : Capture.Env :=
  Capture.mkEnv (Return tt) (Return tt) (fun _ => Return tt) (Return tt)
    (fun _ => Return tt) (Return tt) (Return tt) (fun _ => Return tt)
    (fun _ _ _ _ => Throw err)
    "about:blank" (Return "")
    (fun _ => Return 4096%Z) (fun _ _ _ _ => Return 8192%Z)
    "3f2b6c1e-0000-4000-8000-000000000000" (fun _ _ => Return tt) (Return tt).

Definition example_com : Sample.Url := Sample.mkUrl "https:" "example.com" "" "/".

Definition shot (url : string) : Capture.ScreenshotArgs :=
  Capture.mkScreenshotArgs url (Some true) None None None.
Definition print (url : string) : Capture.PdfArgs :=
  Capture.mkPdfArgs url None None None
    (Some (Capture.mkPdfOpts (Some Capture.A4) None (Some 1%Q))).

(** The statuses of the tool events sent for [tool], in order. *)
Definition tool_events (tool : string) (events : list Event)
  : list ToolStatus :=
  flat_map (fun e => match e with
                     | Tool t status _ _ => if (t =? tool) then [status] else []
                     | _ => []
                     end) events.

(** The two days of the specification's example, and a day whose maximum
    temperature is missing from the forecast. *)
Definition montreal : Weather.Place :=
  Weather.mkPlace (Str "Montreal") (Str "Quebec") (Str "Canada")
                  (Num (Fin (4550 # 100))) (Num (Fin (-7357 # 100)))
                  "America/Toronto".
Definition celsius : Weather.Units := Weather.mkUnits "°C" "mm".
Definition two_days : list Weather.WeatherDay :=
  [ Weather.mkDay "2025-06-01" (Fin 3) (Fin 30) (Fin 20) (Fin 0) (Fin 10);
    Weather.mkDay "2025-06-02" (Fin 61) (Fin 28) (Fin 18) (Fin 4) (Fin 75) ].
Definition no_maximum : list Weather.WeatherDay :=
  [ Weather.mkDay "2025-06-01" (Fin 61) NaN (Fin 5) (Fin 12) (Fin 80) ].

(** A stream that carries a payload after the end-of-stream sentinel. *)
Definition late_chunk : string :=
  "data: [DONE]" ++ LF ++ LF ++ "data: late" ++ LF ++ LF.

End Scenario.
(* ================================================================== *)
(** * More concrete surroundings *)
(* ================================================================== *)

Module Cases.

Import Agent.
Import Scenario.
Local Open Scope string_scope.

(** The frame by which a client chooses a model. *)
Definition model_frame (model : string) : string :=
  "{" ++ q "type" ++ ":" ++ q "model" ++ "," ++ q "model" ++ ":" ++ q model
    ++ "}".

Definition hermes : string := "@hf/nousresearch/hermes-2-pro-mistral-7b".

(** Arguments of the forecast tool: a place by its coordinates. *)
Definition montreal_coordinates : value :=
  Obj [("latitude", Num (Fin (4550 # 100)));
       ("longitude", Num (Fin (-7357 # 100)))].

(** A network on which only the geocoder answers. *)
Definition geocoder_only : Weather.Net :=
  Weather.mkNet
    (fun req =>
       if (Weather.base req
             =? "https://geocoding-api.open-meteo.com/v1/search")%string
       then Return (Weather.mkResponse true 200
                      (Return (Obj [("results", Arr [])])))
       else Throw offline).

(** The same text, in one chunk and cut in the middle of a line. *)
Definition two_lines : Stream :=
  mkStream ["data: a" ++ LF ++ "data: b" ++ LF] None.
Definition two_lines_cut : Stream :=
  mkStream ["data: a" ++ LF ++ "da"; "ta: b" ++ LF] None.

(** The same text, in one chunk and cut in the middle of a frame. *)
Definition two_frames : Stream :=
  mkStream ["data: a" ++ LF ++ LF ++ "data: b" ++ LF ++ LF] None.
Definition two_frames_cut : Stream :=
  mkStream ["data: a" ++ LF; LF ++ "data"; ": b" ++ LF ++ LF] None.

(** A stream that ends before the blank line of its only frame. *)
Definition cut_short : Stream := mkStream ["data: hi" ++ LF] None.

(** A deployment of the worker: the agents' router declines everything,
    the bucket holds one screenshot, the store accepts every write. *)
Definition origin : string := "https://agent.example".

Definition stored_key : string :=
  "files/0f8fad5b-d9cb-469f-a165-70867728950e/3f2b6c1e-0000-4000-8000-000000000000.png".

Definition deployment : Worker.Platform :=
  Worker.mkPlatform
    (fun u => match drop_prefix origin u with
              | Some path => Return path
              | None => Throw (mkError "TypeError" "Invalid URL")
              end)
    (fun _ _ => Return (Some "0f8fad5b-d9cb-469f-a165-70867728950e"))
    (fun _ => Return None)
    (fun s => Return s)
    (fun key => if (key =? stored_key)%string
                then Return (Some (Worker.mkR2Object (Some "image/png") "PNG"))
                else Return None)
    (fun _ _ => Return tt)
    "7c9e6679-7425-40de-944b-e07fc1f90ae7"
    (fun _ => Return (Worker.mkResponse 200 [] "<!doctype html>")).

(** The same deployment, for requests without a [sid] parameter. *)
Definition plain_deployment : Worker.Platform :=
  Worker.mkPlatform (Worker.pathname deployment) (fun _ _ => Return None)
    (Worker.routeAgentRequest deployment)
    (Worker.decodeURIComponent deployment) (Worker.bucket_get deployment)
    (Worker.kv_put deployment) (Worker.randomUUID deployment)
    (Worker.assets_fetch deployment).

(** A request for a session that comes with other cookies. *)
Definition returning_visitor : Worker.Request :=
  Worker.mkRequest (origin ++ "/api/session") "GET"
                   (Some "theme=dark; cf_session=abc-123; lang=en").

Definition get_request (path : string) : Worker.Request :=
  Worker.mkRequest (origin ++ path) "GET" None.

End Cases.


(* ================================================================== *)
(** * The specification's wording, and the predicates of the theorems *)
(* ================================================================== *)

(** Two places of the specification describe an algorithm step by step:
    URL normalization and the navigation ladder.  They are written down here
    as the specification words them ([spec_normalizeUrl], [spec_navigate]),
    to be compared with the code.  The rest of the module names the
    properties the theorems state: the ladder the code climbs, the figures
    of the forecast summary. *)
Module Claimed.

Import Capture.
Local Open Scope string_scope.

Section Capture.

Context {U : UrlApi}.
Variable env : Env.

(** URL normalization: "trim input; if it already parses as an absolute URL
    with http/https scheme, accept; otherwise attempt prefixing with
    https:// and accept only if that parses; otherwise fail". *)
Definition spec_normalizeUrl (input : string) : option URL :=
  let raw := trim input in
  let prefixed :=
    match URL_new ("https://" ++ raw) with
    | Return u => Some u
    | Throw _ => None
    end in
  match URL_new raw with
  | Return u =>
      if (URL_protocol u =? "http:") || (URL_protocol u =? "https:")
      then Some u else prefixed
  | Throw _ => prefixed
  end.

(** "The www.-prefixed host", for a host that "does not already start with
    www.": the same address with "www." put before its host.  There is none
    when the host starts with "www.", or when the address cannot be read
    again. *)
Definition www_of (u : URL) : option URL :=
  if startsWith (URL_hostname u) "www." then None
  else match URL_new (URL_toString u) with
       | Return again => Some (URL_setHostname again ("www." ++ URL_hostname u))
       | Throw _ => None
       end.

(** A failure "indicates a timeout" when its text (the message of what was
    thrown, or the thrown value printed when it has none) holds the word
    "timeout", in any letter case. *)
Definition indicates_timeout (e : Error) : bool :=
  let text := if (message e =? "") then Error_toString e else message e in
  includes (toLowerCase text) "timeout".

(** What one [page.goto] came to. *)
Definition outcome_of (c : completion unit) : NavOutcome :=
  match c with
  | Return _ => nav_ok
  | Throw e => if indicates_timeout e then nav_timeout else nav_fail
  end.



(** The ladder the code climbs, as a list of destinations and wait
    conditions: on the first host "load" is tried only when the first
    attempt timed out, on the www host it is tried after any failure. *)
Definition rungs (first : NavOutcome) (url0 : URL) (wantWait : WaitUntil)
  : list (string * WaitUntil) :=
  ([(URL_toString url0, wantWait)]
   ++ (if is_timeout first then [(URL_toString url0, load)] else [])
   ++ [(URL_toString url0, domcontentloaded)]
   ++ match www_of url0 with
      | Some ww => [(URL_toString ww, wantWait); (URL_toString ww, load);
                    (URL_toString ww, domcontentloaded)]
      | None => []
      end)%list.

(** The second attempt of [normalizeUrl]: the input behind "https://". *)
Definition retry (raw : string) : option URL :=
  match URL_new ("https://" ++ raw) with
  | Return u => if (URL_protocol u =? "https:") then Some u else None
  | Throw _ => None
  end.

Definition key (a : NavAttempt) : string * WaitUntil :=
  (na_dest a, na_waitUntil a).

Definition no_attempt : NavAttempt := mkNavAttempt "" load nav_fail.

Definition want_of (w : option WaitUntil) : WaitUntil :=
  match w with Some w => w | None => networkidle0 end.

Definition viewport_of (v : option Viewport) : Viewport :=
  match v with Some v => v | None => default_viewport end.


End Capture.

(** ** The figures of the forecast summary *)

Import Weather.

(** [m] is the rounded greatest finite value of [f] over [days], and
    nothing when no value is finite. *)
Definition rounded_max (f : WeatherDay -> number) (days : list WeatherDay)
           (m : option Z) : Prop :=
  match m with
  | Some z =>
      exists d q, In d days /\ f d = Fin q /\ z = round q
                  /\ forall d' q', In d' days -> f d' = Fin q' -> q' <= q
  | None => forall d, In d days -> isFinite (f d) = false
  end.

(** The same for the least finite value. *)
Definition rounded_min (f : WeatherDay -> number) (days : list WeatherDay)
           (m : option Z) : Prop :=
  match m with
  | Some z =>
      exists d q, In d days /\ f d = Fin q /\ z = round q
                  /\ forall d' q', In d' days -> f d' = Fin q' -> q <= q'
  | None => forall d, In d days -> isFinite (f d) = false
  end.

(** [p] is the rounded highest precipitation probability and [day] the
    printed date of the first day that reaches it; nothing when no
    probability is finite and at least 0. *)
Definition peak {R : Runtime} (days : list WeatherDay) (p : option Z)
           (day : option string) : Prop :=
  match p with
  | Some z =>
      exists i d q,
        nth_error days i = Some d /\ pop d = Fin q /\ 0 <= q /\ z = round q
        /\ (forall d' q', In d' days -> pop d' = Fin q' -> q' <= q)
        /\ (forall j d' q', (j < i)%nat -> nth_error days j = Some d' ->
                            pop d' = Fin q' -> q' < q)
        /\ day = (if JS.truthy (date d)
                  then Some (toLocaleDateString (date d)) else None)
  | None => forall d q, In d days -> pop d = Fin q -> q < 0
  end.

(** What [#streamSummary] owes a successful forecast: the figures, the
    three sentences built from them, each by its cases, and the one delta,
    [done] and assistant row that carry the text. *)
Definition summarized {R : Runtime} (world : Agent.World)
           (a : Agent.Agent) (userText notes : string) (place : Place)
           (units : Units) (daily : list WeatherDay) : Prop :=
  exists hi lo p day first second third,
    rounded_max tMax (firstn 7 daily) hi
    /\ rounded_min tMin (firstn 7 daily) lo
    /\ peak (firstn 7 daily) p day
    /\ (let summary := String.concat " " [first; second; third] in
        let a' := fst (Agent.streamSummary world userText
                         (WOk place units daily notes) a) in
        Agent.sent a' = (Agent.sent a ++ [Agent.Delta summary; Agent.Done])%list
        /\ Agent.rows a'
           = (Agent.rows a
                ++ [Agent.mkMsg Agent.assistant summary
                      (Agent.now world (Agent.clock_reads a))])%list)
    /\ ((forall h l, hi = Some h -> lo = Some l ->
                     first
                     = "Next week in " ++ Agent.placeName place
                         ++ ", expect highs around " ++ Number_toString h
                         ++ temp units ++ " and lows near "
                         ++ Number_toString l ++ temp units ++ ".")
        /\ (forall h, hi = Some h -> lo = None ->
                      first
                      = "Next week in " ++ Agent.placeName place
                          ++ ", expect highs around " ++ Number_toString h
                          ++ temp units ++ ".")
        /\ (forall l, hi = None -> lo = Some l ->
                      first
                      = "Next week in " ++ Agent.placeName place
                          ++ ", expect lows near " ++ Number_toString l
                          ++ temp units ++ ".")
        /\ (hi = None -> lo = None ->
            first
            = "Next week in " ++ Agent.placeName place
                ++ ", temperatures vary through the week."))
    /\ ((forall z d, p = Some z -> (0 < z)%Z -> day = Some d -> d <> "" ->
                     second
                     = "Peak chance of precipitation is about "
                         ++ Number_toString z ++ "% on " ++ d ++ ".")
        /\ (forall z, p = Some z -> (0 < z)%Z -> day = None \/ day = Some "" ->
                      second
                      = "Peak chance of precipitation is about "
                          ++ Number_toString z ++ "%.")
        /\ (p = None \/ (exists z, p = Some z /\ (z <= 0)%Z) ->
            second = "Rain risk looks low overall."))
    /\ ((forall h l z, hi = Some h -> lo = Some l -> p = Some z ->
                       (40 <= z)%Z ->
                       third
                       = "Pack layers and bring a small umbrella or rain jacket just in case.")
        /\ (forall h l, hi = Some h -> lo = Some l ->
                        p = None \/ (exists z, p = Some z /\ (z < 40)%Z) ->
                        (10 <= h - l)%Z ->
                        third
                        = "Pack layers (mornings/evenings cooler than afternoons).")
        /\ (forall h l, hi = Some h -> lo = Some l ->
                        p = None \/ (exists z, p = Some z /\ (z < 40)%Z) ->
                        (h - l < 10)%Z ->
                        third
                        = "Light layers should be fine for most of the week.")
        /\ (hi = None \/ lo = None ->
            third
            = "Pack flexible layers to handle changes through the week.")).

(** ** A capture on the default target *)

(** What a chat turn [turn], begun on the agent [a], shows when it runs the
    capture [tool] and [pipeline] is the call of that tool on
    "https://example.com".  The turn announces the capture without naming a
    page or asking for one.  The pipeline got past the check of its URL: it
    asked for a browser, and its result is not BAD_URL.  The frames of the
    turn are the announcement, the start of the tool, the progress of the
    pipeline, then its result, [done] with it or [error] with its text, and a
    summary; when the pipeline throws, the turn throws the same and its
    frames stop at the progress. *)
Definition default_capture {P} (tool announce planning ready : string)
           (payload : Capture.Result P -> Agent.ToolPayload)
           (pipeline : Capture.Run * completion (Capture.Result P))
           (a : Agent.Agent) (turn : Agent.Agent * completion unit) : Prop :=
  Capture.launched (fst pipeline) = true
  /\ (forall msg, snd pipeline <> Return (Capture.Failed msg Capture.BAD_URL))
  /\ exists rest,
       Agent.sent (fst turn)
       = (Agent.sent a
            ++ [Agent.Delta announce; Agent.Done;
                Agent.Tool tool Agent.started (Some planning) Agent.NoResult]
            ++ map (fun msg => Agent.Tool tool Agent.step (Some msg)
                                          Agent.NoResult)
                   (Capture.emitted (fst pipeline))
            ++ rest)%list
       /\ match snd pipeline with
          | Throw e => rest = [] /\ snd turn = Throw e
          | Return (Capture.Ok p) =>
              snd turn = Return tt
              /\ exists summary,
                   rest = [Agent.Tool tool Agent.done (Some ready)
                                      (payload (Capture.Ok p));
                           Agent.Delta summary; Agent.Done]
          | Return (Capture.Failed err code) =>
              snd turn = Return tt
              /\ exists summary,
                   rest = [Agent.Tool tool Agent.error (Some err)
                                      (payload (Capture.Failed err code));
                           Agent.Delta summary; Agent.Done]
          end.

End Claimed.

(* ================================================================== *)
(** * Proof steps for the capture pipelines *)
(* ================================================================== *)

Module CaptureTactics.

Import Capture.

Ltac crunch :=
  cbn [navAttempts emitted launched closed is_true is_timeout negb fst snd].

(** One rung: case analysis on the outcome of the next attempt, or on
    whether there is a www variant of the host. *)
Ltac rung :=
  match goal with
  | |- context [is_true (classify ?c)] =>
      let E := fresh "E" in destruct (classify c) eqn:E; crunch
  | |- context [is_timeout (classify ?c)] =>
      let E := fresh "E" in destruct (classify c) eqn:E; crunch
  | |- context [match withWww ?u with _ => _ end] =>
      let W := fresh "W" in destruct (withWww u) eqn:W; crunch
  end.

Ltac attempt_outcome :=
  match goal with
  | E : classify (goto _ ?n ?d ?w ?t) = ?o
    |- ?o = classify (goto _ ?m ?d ?w ?t) =>
      replace m with n by (rewrite ?length_app; cbn [List.length]; lia);
      symmetry; exact E
  | |- classify (goto _ ?n ?d ?w ?t) = classify (goto _ ?m ?d ?w ?t) =>
      replace m with n by (rewrite ?length_app; cbn [List.length]; lia);
      reflexivity
  end.






End CaptureTactics.
(* ================================================================== *)
(** * What the handlers keep *)
(* ================================================================== *)

(** The notions the invariants of the controller are stated with. *)
Module Observed.

Import Agent.
Local Open Scope string_scope.

(** [m] keeps [P]: an agent that satisfies [P] before [m] runs satisfies it
    after, whether [m] returns or throws. *)
Definition keeps {A} (P : Agent -> Prop) (m : Act A) : Prop :=
  forall a, P a -> P (fst (m a)).

(** Whether the frames [es] leave a reply open: the last of their [delta]
    and [done] frames is a [delta]. *)
Definition unfinished (es : list Event) : bool :=
  fold_left (fun open e => match e with
                           | Delta _ => true
                           | Done => false
                           | _ => open
                           end) es false.

(** The life of a tool within one turn, as the [tool] frames tell it. *)
Inductive Phase := Idle | Running (tool : string) | Finished.

(** A payload that holds a successful result. *)
Definition succeeded (r : ToolPayload) : bool :=
  match r with
  | NoResult => false
  | WeatherPayload r => Weather.w_ok r
  | ScreenshotPayload r => Capture.is_ok r
  | PdfPayload r => Capture.is_ok r
  end.

(** One frame more: a tool starts when none has, its steps come while it
    runs, and it ends once, with [done] and a successful result or with
    [error], a message and no successful result.  The other frames do not
    count. *)
Definition advance (phase : option Phase) (e : Event) : option Phase :=
  match phase, e with
  | None, _ => None
  | Some Idle, Tool t started (Some _) NoResult => Some (Running t)
  | Some (Running t0), Tool t step (Some _) NoResult =>
      if (t0 =? t)%string then Some (Running t0) else None
  | Some (Running t0), Tool t done (Some _) r =>
      if (t0 =? t)%string && succeeded r then Some Finished else None
  | Some (Running t0), Tool t error (Some _) r =>
      if (t0 =? t)%string && negb (succeeded r) then Some Finished else None
  | Some _, Tool _ _ _ _ => None
  | Some phase, _ => Some phase
  end.

Definition protocol (es : list Event) : option Phase :=
  fold_left advance es (Some Idle).

(** The frames of [m] keep to the protocol, and leave a tool running only
    if [m] throws. *)
Definition orderly (m : Act unit) : Prop :=
  forall a, exists new phase,
    sent (fst (m a)) = (sent a ++ new)%list
    /\ protocol new = Some phase
    /\ (forall t, phase = Running t -> exists e, snd (m a) = Throw e).

(** A [tool] row that holds the envelope of a successful result. *)
Definition ok_envelope {R : Runtime} (m : Msg) : Prop :=
  exists tool result,
    content m = tool_result tool result /\ get result "ok" = Bool true.

(** A row a chat turn writes after the user's: the assistant's, or the
    envelope of a successful tool result. *)
Definition reply_row {R : Runtime} (m : Msg) : Prop :=
  role m = assistant \/ (role m = tool /\ ok_envelope m).

(** The dates [asISODate] lets through: four digits, a dash, two digits, a
    dash, two digits, and nothing else. *)
Definition digit (c : ascii) : bool := RegExp.byte_in 48 57 c.
Definition dash (c : ascii) : bool := Ascii.eqb c "-".

(** [shaped ps s]: [s] has one character per test of [ps], each passing
    its test. *)
Fixpoint shaped (ps : list (ascii -> bool)) (s : string) : bool :=
  match ps, s with
  | [], EmptyString => true
  | p :: ps', String c s' => p c && shaped ps' s'
  | _, _ => false
  end.

Definition iso_shape (s : string) : bool :=
  shaped [digit; digit; digit; digit; dash; digit; digit; dash; digit; digit]
         s.

(** Every character of [s] passes [p]. *)
Fixpoint every (p : ascii -> bool) (s : string) : bool :=
  match s with
  | EmptyString => true
  | String c r => p c && every p r
  end.

(** A path segment: not empty, and without a slash. *)
Definition segment (s : string) : Prop :=
  s <> "" /\ Worker.split_on "/" s = [s].

(** What may follow a session id in a cookie header: nothing, or a
    character that an id cannot hold. *)
Definition closes_id (tail : string) : bool :=
  match tail with
  | EmptyString => true
  | String c _ => negb (Worker.sid_char c)
  end.

(** A character an id can hold. *)
Definition id_char (u : string) : bool :=
  match u with
  | String c EmptyString => Worker.sid_char c
  | _ => false
  end.

(** [cs] without the characters [w] it starts with. *)
Fixpoint after (w cs : list string) : option (list string) :=
  match w, cs with
  | [], _ => Some cs
  | x :: w', c :: cs' => if (c =? x)%string then after w' cs' else None
  | _ :: _, [] => None
  end.

(** The characters that pass [p] at the head of [cs]. *)
Fixpoint leading (p : string -> bool) (cs : list string) : list string :=
  match cs with
  | c :: cs' => if p c then c :: leading p cs' else []
  | [] => []
  end.

(** The session id a cookie header holds, read from the left: at the first
    place where "cf_session=" is followed by a character of an id, all the
    characters of an id that follow.  Nothing has to come before that place,
    and there is no id when there is no such place. *)
Fixpoint first_id (cs : list string) : option (list string) :=
  match cs with
  | [] => None
  | _ :: rest =>
      match after (RegExp.chars "cf_session=") cs with
      | Some (u :: more) =>
          if id_char u then Some (u :: leading id_char more)
          else first_id rest
      | _ => first_id rest
      end
  end.

Definition cookie_id (header : string) : option string :=
  option_map RegExp.join (first_id (RegExp.chars header)).

(** What [getOrCreateSession] does once the session id is known: the id is
    recorded in the store, and sent back in a cookie and in the body. *)
Definition issued {R : Runtime} (platform : Worker.Platform) (id : string)
  : completion Worker.Response :=
  match Worker.kv_put platform ("sess:" ++ id) "1" with
  | Return _ =>
      Return
        (Worker.mkResponse 200
           [("content-type", "application/json");
            ("Set-Cookie",
             "cf_session=" ++ id
               ++ "; Path=/; Max-Age=86400; SameSite=Lax; HttpOnly")]
           (JSON_stringify (Obj [("sessionId", Str id)])))
  | Throw e => Throw e
  end.

Section Turn.

Context {R : Runtime} {U : UrlApi}.
Variable world : World.

(** What the [chat] branch does once the user's message is stored: the
    planner pass, then the forecast, screenshot or PDF turn, or the plain
    streamed answer. *)
Definition respond (userText : string) : Act unit :=
  s <- getState ;;
  let history := history_of s in
  planned <- tryPlanTool world history userText ;;
  match planned with
  | Some args => weather_turn world userText args
  | None =>
      if RegExp.test ssRe userText then screenshot_turn world userText
      else if RegExp.test pdfRe userText then pdf_turn world userText
      else streamAssistant world history
  end.

(** The world [world] with a model binding that answers every request with
    the stream [s]. *)
Definition serving (s : Stream) : World :=
  mkWorld (now world) (fun _ _ => Return (OutStream s)) (net world)
          (browser world).

End Turn.

End Observed.

(* ================================================================== *)
(** * What a capture call guarantees *)
(* ================================================================== *)

Module CaptureLogic.

Import Capture.
Local Open Scope string_scope.

(** [ensures P m Q]: started in a state that satisfies [P], the computation
    [m], if it returns, returns a value and a state related by [Q]. *)
Definition ensures {A} (P : Run -> Prop) (m : M A) (Q : Run -> A -> Prop)
  : Prop :=
  forall r, P r -> forall r' x, m r = (r', Return x) -> Q r' x.

(** The error text that goes with each code. *)
Definition failure_text (c : ToolErrorCode) : string :=
  match c with
  | BAD_URL => "Invalid URL"
  | NAV_TIMEOUT => "Navigation timed out"
  | NAV_FAIL => "Navigation failed"
  | CAPTURE_FAIL => "Capture failed"
  | UPLOAD_FAIL => "Upload failed"
  end.

(** A timeout between one second and one minute; NaN is not. *)
Definition in_range (t : number) : bool :=
  ge t (Fin 1000) && ge (Fin 60000) t.

Definition RangeError : Error := mkError "RangeError" "timeout out of range".

(** The browser [env], except that it throws on a timeout that is not
    between one second and one minute. *)
Definition strict (env : Env) : Env :=
  mkEnv (launch env) (newPage env) (setViewport env) (setBypassCSP env)
    (fun t => if in_range t then setDefaultNavigationTimeout env t
              else Throw RangeError)
    (setExtraHTTPHeaders env) (setUserAgent env) (on env)
    (fun n dest wait t => if in_range t then goto env n dest wait t
                          else Throw RangeError)
    (page_url env) (title env) (screenshot env)
    (fun f l s t => if in_range t then pdf env f l s t else Throw RangeError)
    (randomUUID env) (put env) (close env).

(** The progress messages of a call that succeeds; [retried] when the www
    host was tried, [shot] the message of the capture step. *)
Definition progress (want : WaitUntil) (retried : bool) (shot : string)
  : list string :=
  (["Launching browser…";
    ("Navigating (" ++ WaitUntil_toString want ++ ")…")%string]
   ++ (if retried then ["Retrying with www…"] else [])
   ++ ["Settling…"; shot; "Uploading…"])%list.

(** The messages sent so far are those of [l]. *)
Definition said (l : list string) (r : Run) : Prop := emitted r = l.

(** The messages sent so far are those of a call that got through the
    navigation, followed by [tail]. *)
Definition navigated (want : WaitUntil) (tail : list string) (r : Run)
  : Prop :=
  exists retried : bool,
    emitted r
    = (["Launching browser…";
        ("Navigating (" ++ WaitUntil_toString want ++ ")…")%string]
       ++ (if retried then ["Retrying with www…"] else []) ++ tail)%list.

(** A computation that sends no message. *)
Definition silent {A} (m : M A) : Prop :=
  forall r, emitted (fst (m r)) = emitted r.

(** A computation that neither asks for a browser nor closes one. *)
Definition steady {A} (m : M A) : Prop :=
  forall r, launched (fst (m r)) = launched r
            /\ closed (fst (m r)) = closed r.

Section Outcomes.

Context {U : UrlApi}.
Variable env : Env.

(** What a screenshot call that returns has done. *)
Definition screenshot_outcome (sid : string) (args : ScreenshotArgs)
           (r : Run) (res : ScreenshotResult) : Prop :=
  match res with
  | Ok p =>
      let key := "files/" ++ sid ++ "/" ++ randomUUID env ++ ".png" in
      let vp := match ss_viewport args with
                | Some v => v | None => default_viewport end in
      let fullPage :=
        match ss_fullPage args with Some v => v | None => true end in
      let want :=
        match ss_waitUntil args with Some w => w | None => networkidle0 end in
      p = mkScreenshotOk ("/" ++ key) key "image/png" (sso_bytes p)
                         (width vp) (height vp) (page_url env) vp
      /\ screenshot env fullPage = Return (sso_bytes p)
      /\ put env key "image/png" = Return tt
      /\ exists retried,
           emitted r = progress want retried "Capturing screenshot…"
  | Failed err code =>
      err = failure_text code
      /\ (code = BAD_URL <-> normalizeUrl (ss_url args) = None)
  end.

(** What a PDF call that returns has done. *)
Definition pdf_outcome (sid : string) (args : PdfArgs)
           (r : Run) (res : PdfResult) : Prop :=
  match res with
  | Ok p =>
      let key := "files/" ++ sid ++ "/" ++ randomUUID env ++ ".pdf" in
      let opt {A} (f : PdfOpts -> option A) (d : A) : A :=
        match pdf_pdf args with
        | Some o => match f o with Some v => v | None => d end
        | None => d
        end in
      let want :=
        match pdf_waitUntil args with Some w => w | None => networkidle0 end in
      p = mkPdfOk ("/" ++ key) key "application/pdf" (pdo_bytes p)
                  (page_url env)
      /\ pdf env (opt format A4) (opt landscape false) (opt scale 1%Q)
              (clamp_timeout (pdf_timeoutMs args))
         = Return (pdo_bytes p)
      /\ put env key "application/pdf" = Return tt
      /\ exists retried, emitted r = progress want retried "Rendering PDF…"
  | Failed err code =>
      err = failure_text code
      /\ (code = BAD_URL <-> normalizeUrl (pdf_url args) = None)
  end.

End Outcomes.

End CaptureLogic.

(* ================================================================== *)
(** * Proof steps for the controller *)
(* ================================================================== *)

Module ControllerTactics.

Import Agent.

(** Runs the primitive steps of a handler on the agent. *)
Ltac step_by_step :=
  unfold speak;
  unfold saveAssistant, saveToolRow, remember_user, bind, Date_now,
    sql_insert, sql_delete, sql_select, getState, setState, send, sends,
    this_name, lift, ret;
  cbn [fst snd state rows sent clock_reads name messages createdAt expiresAt
       model].

(** The same on an agent given by its fields, each step reduced before the
    next one reads it. *)
Ltac run_steps :=
  cbv beta iota zeta delta
      [speak saveAssistant saveToolRow remember_user bind Date_now
       sql_insert sql_delete sql_select getState setState send sends
       this_name lift ret
       fst snd state rows sent clock_reads name messages createdAt expiresAt
       model].

End ControllerTactics.


(* ================================================================== *)
(** * Facts about the primitives *)
(* ================================================================== *)

Module JSFacts.

Local Open Scope string_scope.

Lemma drop_prefix_app (w s : string) : drop_prefix w (w ++ s) = Some s.
Proof.
  induction w as [|c w IH]; simpl; [reflexivity|].
  now rewrite Ascii.eqb_refl.
Qed.

(** No whitespace pattern starts another one, so [strip] removes exactly the
    whitespace character a string starts with. *)
Lemma strip_whitespace (w s : string) :
  In w whitespace -> strip whitespace (w ++ s) = Some s.
Proof.
  unfold whitespace; simpl.
  intros H.
  repeat (destruct H as [<- | H]; [reflexivity|]).
  destruct H.
Qed.

Lemma whitespace_nonempty (w : string) :
  In w whitespace -> (1 <= String.length w)%nat.
Proof.
  unfold whitespace; simpl.
  intros H.
  repeat (destruct H as [<- | H]; [simpl; lia|]).
  destruct H.
Qed.

Lemma length_append (a c : string) :
  String.length (a ++ c) = (String.length a + String.length c)%nat.
Proof. induction a; simpl; congruence. Qed.

Lemma trim_fuel_blank (s : string) :
  Blank s ->
  forall fuel, (String.length s <= fuel)%nat ->
               trim_fuel whitespace fuel s = "".
Proof.
  induction 1 as [|w s Hw Hs IH]; intros fuel Hfuel.
  - destruct fuel; reflexivity.
  - rewrite length_append in Hfuel.
    pose proof (whitespace_nonempty Hw).
    destruct fuel as [|fuel]; [lia|].
    cbn [trim_fuel]. rewrite (strip_whitespace s Hw).
    apply IH. lia.
Qed.

(** [trim] leaves nothing of a string made of whitespace only. *)
Lemma trim_blank (s : string) : Blank s -> trim s = "".
Proof.
  intros H. unfold trim, trimStart.
  rewrite (trim_fuel_blank H); [reflexivity|lia].
Qed.

Lemma substring_length (s : string) :
  forall n m, (String.length (substring n m s) <= String.length s - n)%nat.
Proof.
  induction s as [|c s IH]; intros n m.
  - destruct n, m; cbn; lia.
  - destruct n as [|n].
    + destruct m as [|m]; cbn; [lia|]. specialize (IH 0%nat m). lia.
    + cbn. apply IH.
Qed.

Lemma substring_bound (s : string) :
  forall n m, (String.length (substring n m s) <= m)%nat.
Proof.
  induction s as [|c s IH]; intros n m.
  - destruct n, m; cbn; lia.
  - destruct n as [|n].
    + destruct m as [|m]; cbn; [lia|]. specialize (IH 0%nat m). lia.
    + cbn. apply IH.
Qed.

Lemma is_str_spec (v : value) (s : string) :
  is_str v s = true <-> v = Str s.
Proof.
  destruct v; simpl; split; try discriminate.
  - intros H. apply String.eqb_eq in H. now subst.
  - intros H. injection H as ->. apply String.eqb_refl.
Qed.

Lemma or_else_empty (s : string) : or_else s "" = s.
Proof. unfold or_else, JS.truthy. now destruct (String.eqb_spec s ""). Qed.

Lemma truthy_false (s : string) : JS.truthy s = false <-> s = "".
Proof.
  unfold JS.truthy. destruct (String.eqb_spec s ""); cbn; split;
    congruence.
Qed.

Lemma truthy_true (s : string) : JS.truthy s = true <-> s <> "".
Proof.
  unfold JS.truthy. destruct (String.eqb_spec s ""); cbn; split;
    congruence.
Qed.

End JSFacts.

(* ================================================================== *)
(** * The planner *)
(* ================================================================== *)

Module PlannerFacts.

Import Agent.
Local Open Scope string_scope.

Section Facts.

Context {R : Runtime} {U : UrlApi}.
Variable world : World.

(** [#parseToolArgs] by cases: a keyed object is kept, a string is parsed,
    and everything else (a string that does not parse or does not hold a
    keyed object, any other value) becomes the empty object. *)
Lemma parseToolArgs_cases (raw : value) :
  (isRecord raw = true -> parseToolArgs raw = raw)
  /\ (forall s j, raw = Str s -> JSON_parse s = Return j ->
                  isRecord j = true -> parseToolArgs raw = j)
  /\ (forall s j, raw = Str s -> JSON_parse s = Return j ->
                  isRecord j = false -> parseToolArgs raw = Obj [])
  /\ (forall s e, raw = Str s -> JSON_parse s = Throw e ->
                  parseToolArgs raw = Obj [])
  /\ (isRecord raw = false -> (forall s, raw <> Str s) ->
      parseToolArgs raw = Obj []).
Proof.
  unfold parseToolArgs.
  repeat split.
  - now intros ->.
  - intros s j -> Hp Hj. cbn. now rewrite Hp, Hj.
  - intros s j -> Hp Hj. cbn. now rewrite Hp, Hj.
  - intros s e -> Hp. cbn. now rewrite Hp.
  - intros Hrec Hstr. rewrite Hrec.
    destruct raw; try reflexivity. now destruct (Hstr s).
Qed.

(** The planner returns, and leaves the agent as it found it. *)
Lemma planner_returns (history : list ChatMessage) (userText : string)
      (a : Agent) :
  exists res : option value,
    tryPlanTool world history userText a = (a, Return res).
Proof.
  unfold tryPlanTool, bind, getState.
  destruct (AI_run world (model_or_default (state a))
                   (PlanInput (planner_messages history userText)))
    as [out|e]; [|now exists None].
  destruct (get _ "tool_calls") as [ | |bv|nv|sv|[|call calls]|fs];
    try (now exists None).
  destruct (is_str _ "getWeather"); cbn; eexists; reflexivity.
Qed.

(** C5.  The planner never throws and never touches the agent.  It returns
    a [getWeather] call exactly when the model returned a keyed object whose
    [tool_calls] is a non-empty array and whose first call is named
    "getWeather"; a failed model call, an absent or empty [tool_calls] and
    any other name give [null].  The arguments are those of
    [#parseToolArgs]: the value itself when it is a keyed object, the parsed
    value when it is a string holding one, the empty object otherwise. *)
Theorem planner_contract (history : list ChatMessage) (userText : string)
        (a : Agent) :
  exists res : option value,
    tryPlanTool world history userText a = (a, Return res)
    /\ (forall args,
           res = Some args <->
           exists out call calls,
             AI_run world (model_or_default (state a))
                    (PlanInput (planner_messages history userText))
             = Return (OutValue out)
             /\ isRecord out = true
             /\ get out "tool_calls" = Arr (call :: calls)
             /\ get (get call "function") "name" = Str "getWeather"
             /\ args = parseToolArgs (get (get call "function") "arguments"))
    /\ (forall e,
           AI_run world (model_or_default (state a))
                  (PlanInput (planner_messages history userText)) = Throw e ->
           res = None)
    /\ (forall raw,
           (isRecord raw = true -> parseToolArgs raw = raw)
           /\ (forall s j, raw = Str s -> JSON_parse s = Return j ->
                           isRecord j = true -> parseToolArgs raw = j)
           /\ (forall s j, raw = Str s -> JSON_parse s = Return j ->
                           isRecord j = false -> parseToolArgs raw = Obj [])
           /\ (forall s e, raw = Str s -> JSON_parse s = Throw e ->
                           parseToolArgs raw = Obj [])
           /\ (isRecord raw = false -> (forall s, raw <> Str s) ->
               parseToolArgs raw = Obj [])).
Proof.
  unfold tryPlanTool, bind, getState.
  destruct (AI_run world (model_or_default (state a))
                   (PlanInput (planner_messages history userText)))
    as [out|e] eqn:Hrun.
  2:{ exists None. split; [reflexivity|]. split; [|split].
      - intros args. split; [discriminate|].
        intros (out & call & calls & Hout & _). discriminate.
      - reflexivity.
      - exact parseToolArgs_cases. }
  set (obj := match out with
              | OutValue v => if isRecord v then v else Undefined
              | OutStream _ => Obj []
              end).
  assert (Hobj : forall out0, out = OutValue out0 -> isRecord out0 = true ->
                              obj = out0).
  { intros out0 -> Hrec. subst obj. now rewrite Hrec. }
  assert (Hout : forall call calls,
             get obj "tool_calls" = Arr (call :: calls) ->
             exists v, out = OutValue v /\ isRecord v = true /\ obj = v).
  { intros call calls Hget. subst obj. destruct out as [v|s].
    - destruct (isRecord v) eqn:Hv; [now exists v|discriminate].
    - discriminate. }
  destruct (get obj "tool_calls") as [ | |bv|nv|sv|[|call calls]|fs] eqn:Hcalls;
    try (exists None; split; [reflexivity|]; split; [|split];
         [ intros args; split; [discriminate|];
           intros (out0 & call0 & calls0 & Hret & Hrec & Hget & _);
           injection Hret as Hret;
           rewrite (Hobj out0 Hret Hrec) in Hcalls; congruence
         | discriminate
         | exact parseToolArgs_cases ]).
  destruct (Hout call calls eq_refl) as (v & Hv & Hrecv & Hobjv).
  destruct (is_str (get (get call "function") "name") "getWeather") eqn:Hfn; cbn.
  - eexists. split; [reflexivity|]. split; [|split].
    + intros args. split.
      * intros [= <-]. exists v, call, calls.
        repeat split; trivial.
        -- now rewrite Hv.
        -- now rewrite <- Hobjv.
        -- now apply JSFacts.is_str_spec.
      * intros (out0 & call0 & calls0 & Hret & Hrec & Hget & Hname & ->).
        injection Hret as Hret.
        rewrite <- (Hobj out0 Hret Hrec), Hcalls in Hget.
        now injection Hget as <- <-.
    + discriminate.
    + exact parseToolArgs_cases.
  - exists None. split; [reflexivity|]. split; [|split].
    + intros args. split; [discriminate|].
      intros (out0 & call0 & calls0 & Hret & Hrec & Hget & Hname & _).
      injection Hret as Hret.
      rewrite <- (Hobj out0 Hret Hrec), Hcalls in Hget.
      injection Hget as <- <-.
      apply JSFacts.is_str_spec in Hname. congruence.
    + discriminate.
    + exact parseToolArgs_cases.
Qed.

End Facts.

End PlannerFacts.

(* ================================================================== *)
(** * The streaming relay *)
(* ================================================================== *)

Module StreamFacts.

Import Agent.
Local Open Scope string_scope.

Import Scenario.

Section Facts.

Context {R : Runtime} {U : UrlApi}.
Variable world : World.

(** The inner loop runs to its end: with the fuel [relay] gives it, what
    [drain] leaves in the buffer holds no blank line. *)
Lemma drain_complete (fuel : nat) :
  forall buffer, (String.length buffer <= fuel)%nat ->
                 index 0 (LF ++ LF) (snd (drain fuel buffer)) = None.
Proof.
  induction fuel as [|fuel IH]; intros buffer Hlen.
  - destruct buffer; [reflexivity|cbn in Hlen; lia].
  - cbn [drain].
    destruct (index 0 (LF ++ LF) buffer) as [idx|] eqn:Hidx; [|exact Hidx].
    pose proof (index_correct1 _ _ _ _ Hidx) as Hsub.
    pose proof (JSFacts.substring_length buffer idx (String.length (LF ++ LF)))
      as Hle.
    rewrite Hsub in Hle. cbn [String.length LF chr1 String.append] in Hle.
    pose proof (JSFacts.substring_bound buffer (idx + 2)
                  (String.length buffer - (idx + 2))) as Hrest.
    specialize (IH (slice_from (idx + 2) buffer)).
    destruct (drain fuel (slice_from (idx + 2) buffer)) as [ds rest].
    cbn [snd] in *. apply IH. unfold slice_from. lia.
Qed.

(** The sentinel itself yields no delta. *)
Lemma sentinel_is_skipped : line_delta "data: [DONE]" = None.
Proof. reflexivity. Qed.

Lemma relay_late (e : Error) :
  JSON_parse "late" = Throw e -> relay [late_chunk] "" = ["late"].
Proof.
  intros Hparse.
  assert (Hp : payload_delta "late" = Some "late")
    by (unfold payload_delta; now rewrite Hparse).
  cbv -[payload_delta]. now rewrite Hp.
Qed.

(** C6, on [#streamAssistant].  The relay skips the sentinel and keeps
    reading: on a stream that holds the sentinel and then the payload
    "late", the text "late" is sent to the client as a delta and is what
    the turn persists. *)
Theorem streamAssistant_relays_after_DONE
        (history : list ChatMessage) (a : Agent) (e : Error) :
  JSON_parse "late" = Throw e ->
  AI_run world (model_or_default (state a))
         (StreamInput (mkChat "system" SYSTEM_BEHAVIOR :: history))
  = Return (OutStream (mkStream [late_chunk] None)) ->
  let a' := fst (streamAssistant world history a) in
  sent a' = (sent a ++ [Delta "late"; Done])%list
  /\ rows a' = (rows a ++ [mkMsg assistant "late"
                              (now world (clock_reads a))])%list.
Proof.
  intros Hparse Hrun.
  unfold streamAssistant, bind, getState. rewrite Hrun.
  cbn [chunks failure]. rewrite (relay_late Hparse).
  cbn. rewrite <- app_assoc. split; reflexivity.
Qed.

(** The sibling [streamAI] does stop there: the sentinel line ends the
    loop, and nothing that follows it is looked at. *)
Lemma streamAI_sentinel : StreamAI.line_step "data: [DONE]" = StreamAI.Stop.
Proof. reflexivity. Qed.

Lemma streamAI_stops_at_sentinel (before after : list string) (raw : string) :
  StreamAI.line_step raw = StreamAI.Stop ->
  StreamAI.run_lines (before ++ raw :: after)
  = StreamAI.run_lines (before ++ [raw]).
Proof.
  intros Hstop.
  induction before as [|l before IH]; cbn [List.app StreamAI.run_lines].
  - now rewrite Hstop.
  - destruct (StreamAI.line_step l); [exact IH | reflexivity | now rewrite IH].
Qed.

Lemma streamAI_ignores_later_chunks (chunk buf : string)
      (rest rest' : list string) :
  snd (StreamAI.run_lines (removelast (split_lines (buf ++ chunk)))) = true ->
  StreamAI.consume (chunk :: rest) buf = StreamAI.consume (chunk :: rest') buf.
Proof.
  intros Hstop. cbn [StreamAI.consume].
  destruct (StreamAI.run_lines (removelast (split_lines (buf ++ chunk))))
    as [ds stopped].
  cbn in Hstop. now subst.
Qed.

End Facts.

End StreamFacts.

(* ================================================================== *)
(** * The session controller *)
(* ================================================================== *)

Module AgentFacts.

Import Agent.
Local Open Scope string_scope.

Section Facts.

Context {R : Runtime} {U : UrlApi}.
Variable world : World.

(** C8.  A chat event whose text is empty or made of whitespace only is a
    silent no-op: the agent (its state, the rows of its table, the frames it
    has sent) is left as it was, and the handler returns. *)
Theorem blank_chat_is_noop (a : Agent) (frame : string) (data : value)
        (text : string) :
  JSON_parse frame = Return data ->
  get data "type" = Str "chat" ->
  get data "text" = Str text ->
  Blank text ->
  onMessage world (TextFrame frame) a = (a, Return tt).
Proof.
  intros Hparse Htype Htext Hblank.
  unfold onMessage. rewrite Hparse, Htype. cbn.
  unfold chat. rewrite Htext.
  assert (Htrim : forall receiver,
             Weather.call_trim receiver (or_value (Str text) (Str ""))
             = Return "").
  { intros receiver. unfold or_value. cbn. destruct (JS.truthy text); cbn.
    - now rewrite (JSFacts.trim_blank Hblank).
    - reflexivity. }
  unfold bind, lift. rewrite Htrim. reflexivity.
Qed.

(** The same when the event carries no text at all. *)
Lemma missing_chat_text_is_noop (a : Agent) (frame : string) (data : value) :
  JSON_parse frame = Return data ->
  get data "type" = Str "chat" ->
  get data "text" = Undefined ->
  onMessage world (TextFrame frame) a = (a, Return tt).
Proof.
  intros Hparse Htype Htext.
  unfold onMessage. rewrite Hparse, Htype. cbn.
  unfold chat. rewrite Htext. reflexivity.
Qed.

(** What a reset event does to an agent. *)
Lemma reset_effect (a : Agent) (frame : string) (data : value) :
  JSON_parse frame = Return data ->
  get data "type" = Str "reset" ->
  onMessage world (TextFrame frame) a
  = (mkAgent (name a)
             (mkState (model_or_default (state a)) []
                      (now world (clock_reads a))
                      (now world (S (clock_reads a)) + DAY))
             [] (sent a ++ [Cleared])%list (S (S (clock_reads a))),
     Return tt).
Proof.
  intros Hparse Htype.
  unfold onMessage. rewrite Hparse, Htype. reflexivity.
Qed.

(** C10.  A reset keeps the selected model: afterwards [state.model] is its
    value before the reset, or the default model when that value was unset
    (falsy); the messages are cleared and [createdAt] and [expiresAt] are
    read afresh from the clock. *)
Theorem reset_preserves_model (a : Agent) (frame : string) (data : value) :
  JSON_parse frame = Return data ->
  get data "type" = Str "reset" ->
  let s' := state (fst (onMessage world (TextFrame frame) a)) in
  model s' = (if toBoolean (model (state a)) then model (state a)
              else Str DEFAULT_MODEL)
  /\ messages s' = []
  /\ createdAt s' = now world (clock_reads a)
  /\ expiresAt s' = (now world (S (clock_reads a)) + DAY)%Z.
Proof.
  intros Hparse Htype.
  rewrite (@reset_effect a frame data Hparse Htype). cbn.
  repeat split.
Qed.

(** C7.  After a reset the durable log is empty, and a connect that follows
    sends a [ready] frame whose [state.messages] is empty. *)
Theorem reset_then_connect (a : Agent) (frame : string) (data : value) :
  JSON_parse frame = Return data ->
  get data "type" = Str "reset" ->
  let a1 := fst (onMessage world (TextFrame frame) a) in
  let a2 := fst (onConnect world a1) in
  rows a1 = []
  /\ exists s, sent a2 = (sent a1 ++ [Ready s])%list /\ messages s = [].
Proof.
  intros Hparse Htype.
  rewrite (@reset_effect a frame data Hparse Htype). cbn.
  split; [reflexivity|].
  eexists. split; reflexivity.
Qed.

End Facts.

End AgentFacts.

(* ================================================================== *)
(** * The capture pipelines *)
(* ================================================================== *)

Module CaptureFacts.

Import Capture.
Import Claimed.
Import CaptureTactics.
Local Open Scope string_scope.

Section Facts.

Context {U : UrlApi}.
Variable env : Env.

(** C4, as the code has it.  The trimmed input is accepted when it parses
    as an absolute URL whose scheme is http or https.  When it parses with
    another scheme it is rejected at once.  Only when it does not parse (or
    parses without a scheme) is "https://" put in front of it, and the
    result accepted if that parses (as an https URL).  Whenever
    normalization fails, either pipeline returns BAD_URL without having
    launched a browser or emitted anything. *)
Theorem normalizeUrl_cases (input : string) :
  (trim input = "" -> normalizeUrl input = None)
  /\ (forall u, trim input <> "" -> URL_new (trim input) = Return u ->
                URL_protocol u = "http:" \/ URL_protocol u = "https:" ->
                normalizeUrl input = Some u)
  /\ (forall u, trim input <> "" -> URL_new (trim input) = Return u ->
                URL_protocol u <> "" -> URL_protocol u <> "http:" ->
                URL_protocol u <> "https:" ->
                normalizeUrl input = None)
  /\ (forall e, trim input <> "" -> URL_new (trim input) = Throw e ->
                normalizeUrl input = retry (trim input))
  /\ (forall u, trim input <> "" -> URL_new (trim input) = Return u ->
                URL_protocol u = "" ->
                normalizeUrl input = retry (trim input))
  /\ (forall sid args, normalizeUrl (ss_url args) = None ->
                       captureScreenshot env sid args start
                       = (start, Return (Failed "Invalid URL" BAD_URL)))
  /\ (forall sid args, normalizeUrl (pdf_url args) = None ->
                       convertToPdf env sid args start
                       = (start, Return (Failed "Invalid URL" BAD_URL))).
Proof.
  split; [|split; [|split; [|split; [|split; [|split]]]]];
    try (unfold normalizeUrl; rewrite JSFacts.or_else_empty).
  - intros ->. reflexivity.
  - intros u Hraw Hnew Hproto.
    apply JSFacts.truthy_true in Hraw. rewrite Hraw, Hnew. cbn.
    destruct Hproto as [-> | ->]; reflexivity.
  - intros u Hraw Hnew H0 H1 H2.
    apply JSFacts.truthy_true in Hraw, H0. rewrite Hraw, Hnew, H0. cbn.
    apply String.eqb_neq in H1, H2. now rewrite H1, H2.
  - intros e Hraw Hnew.
    apply JSFacts.truthy_true in Hraw. rewrite Hraw, Hnew. cbn [negb].
    unfold retry. destruct (URL_new ("https://" ++ trim input)); [|reflexivity].
    now destruct (URL_protocol a =? "https:").
  - intros u Hraw Hnew Hproto.
    apply JSFacts.truthy_true in Hraw. rewrite Hraw, Hnew, Hproto.
    cbn [negb JS.truthy String.eqb].
    unfold retry. destruct (URL_new ("https://" ++ trim input)); [|reflexivity].
    now destruct (URL_protocol a =? "https:").
  - intros sid args H. unfold captureScreenshot. now rewrite H.
  - intros sid args H. unfold convertToPdf. now rewrite H.
Qed.

(** ** Exceptions *)

Lemma try_catch_returns {A} (m : M A) (h : Error -> M A) (r : Run) :
  (forall e r', returned (snd (h e r')) = true) ->
  returned (snd (try_catch m h r)) = true.
Proof.
  intros Hh. unfold try_catch.
  destruct (m r) as [r' [a|e]]; [reflexivity|apply Hh].
Qed.

Lemma on_error_returns {P} (e : Error) (r : Run) :
  returned (snd (@on_error P e r)) = true.
Proof.
  unfold on_error. now destruct (includes _ _).
Qed.

(** Past a successful launch nothing escapes either pipeline. *)
Lemma captureScreenshot_returns_after_launch (sid : string)
      (args : ScreenshotArgs) :
  launch env = Return tt ->
  returned (snd (captureScreenshot env sid args start)) = true.
Proof.
  intros Hlaunch. unfold captureScreenshot.
  destruct (normalizeUrl (ss_url args)); [|reflexivity].
  unfold bind at 1 2 3. cbn [emit mark_launched lift]. rewrite Hlaunch.
  unfold finally.
  match goal with
  | |- context [try_catch ?m ?h ?r] =>
      pose proof (@try_catch_returns _ m h r (@on_error_returns _)) as H;
      destruct (try_catch m h r)
  end.
  exact H.
Qed.

Lemma convertToPdf_returns_after_launch (sid : string) (args : PdfArgs) :
  launch env = Return tt ->
  returned (snd (convertToPdf env sid args start)) = true.
Proof.
  intros Hlaunch. unfold convertToPdf.
  destruct (normalizeUrl (pdf_url args)); [|reflexivity].
  unfold bind at 1 2 3. cbn [emit mark_launched lift]. rewrite Hlaunch.
  unfold finally.
  match goal with
  | |- context [try_catch ?m ?h ?r] =>
      pose proof (@try_catch_returns _ m h r (@on_error_returns _)) as H;
      destruct (try_catch m h r)
  end.
  exact H.
Qed.

(** C1, where the code departs from it.  [puppeteer.launch] is awaited
    before the [try] block of either pipeline: when the URL is valid and the
    launch rejects, the pipeline does not return a result, it throws the
    launch error to its caller. *)
Theorem capture_throws_when_launch_fails (sid : string)
        (ss : ScreenshotArgs) (pd : PdfArgs) (u1 u2 : URL) (e : Error) :
  normalizeUrl (ss_url ss) = Some u1 ->
  normalizeUrl (pdf_url pd) = Some u2 ->
  launch env = Throw e ->
  snd (captureScreenshot env sid ss start) = Throw e
  /\ snd (convertToPdf env sid pd start) = Throw e.
Proof.
  intros H1 H2 Hlaunch.
  unfold captureScreenshot, convertToPdf. rewrite H1, H2.
  split; unfold bind at 1 2 3; cbn [emit mark_launched lift];
    rewrite Hlaunch; reflexivity.
Qed.

(** ** The navigation ladder *)

(** [tryGo] records a timeout exactly for a failure that indicates one. *)
Lemma classify_outcome (c : completion unit) : classify c = outcome_of c.
Proof.
  destruct c as [x|e]; [reflexivity|].
  unfold classify, outcome_of, indicates_timeout, or_else, JS.truthy.
  now destruct (message e =? "").
Qed.

(** [withWww] gives the www.-prefixed host. *)
Lemma withWww_www_of (u : URL) : withWww u = www_of u.
Proof.
  unfold withWww, www_of. now destruct (startsWith (URL_hostname u) "www.").
Qed.

Lemma navigate_ladder (timeout : number) (want : WaitUntil) (url0 : URL)
      (r : Run) :
  exists (atts : list NavAttempt) (url : URL) (ok : NavOutcome) (r' : Run),
    navigate env timeout want url0 r = (r', Return (url, ok))
    /\ navAttempts r' = (navAttempts r ++ atts)%list
    /\ launched r' = launched r /\ closed r' = closed r
    /\ atts <> []
    /\ (forall i a, nth_error atts i = Some a ->
                    na_outcome a
                    = outcome_of (goto env (List.length (navAttempts r) + i)
                                       (na_dest a) (na_waitUntil a) timeout))
    /\ map key atts
       = firstn (List.length atts)
                (rungs (na_outcome (hd no_attempt atts)) url0 want)
    /\ (forall a, In a (removelast atts) -> na_outcome a <> nav_ok)
    /\ ok = na_outcome (last atts no_attempt)
    /\ (ok <> nav_ok ->
        List.length atts
        = List.length (rungs (na_outcome (hd no_attempt atts)) url0 want)).
Proof.
  unfold navigate, tryGo, bind, ret, attempts_so_far, push_attempt, emit.
  crunch.
  repeat rung.
  all: eexists _, _, _, _.
  all: split; [reflexivity|].
  all: split; [rewrite <- ?app_assoc; cbn [List.app]; reflexivity|].
  all: split; [reflexivity|]; split; [reflexivity|]; split; [discriminate|].
  all: split;
    [ intros i a Hi;
      do 7 (try destruct i as [|i]); cbn in Hi; try discriminate;
      injection Hi as <-; cbn [na_outcome na_dest na_waitUntil];
      rewrite ?Nat.add_0_r, <- classify_outcome; attempt_outcome | ].
  all: split;
    [ unfold rungs; rewrite <- withWww_www_of, ?W; cbn; reflexivity | ].
  all: split; [ cbn; intros a Hin; intuition (subst; discriminate) | ].
  all: split; [ cbn [last na_outcome]; first [reflexivity | attempt_outcome] | ].
  all: unfold rungs; rewrite <- withWww_www_of, ?W; cbn;
    first [ reflexivity | intros H; now destruct H ].
Qed.

(** ** The ladder inside the two pipelines *)




End Facts.

(** [getWeather] wraps its whole body in [try]/[catch]: whatever the body
    throws becomes the failure variant. *)
Lemma getWeather_catches {R : Runtime} (net : Weather.Net) (args : value)
      (e : Error) :
  Weather.getWeather_body net args = Throw e ->
  Weather.getWeather net args
  = Weather.WErr (or_else (message e) "Unknown error").
Proof. intros H. unfold Weather.getWeather. now rewrite H. Qed.

End CaptureFacts.

(* ================================================================== *)
(** * The forecast summary *)
(* ================================================================== *)

Module SummaryFacts.

Import Weather.
Import Agent.
Import Claimed.
Local Open Scope string_scope.

Lemma gt_Fin (a c : Q) : gt (Fin a) (Fin c) = true <-> c < a.
Proof.
  cbn. rewrite negb_true_iff. split.
  - intros H. apply Qnot_le_lt. intros Hle.
    apply Qle_bool_iff in Hle. congruence.
  - intros H. destruct (Qle_bool a c) eqn:E; [|reflexivity].
    apply Qle_bool_iff in E. exfalso. now apply (Qlt_not_le c a).
Qed.

Lemma gt_Fin_false (a c : Q) : gt (Fin a) (Fin c) = false <-> a <= c.
Proof.
  cbn. rewrite negb_false_iff. apply Qle_bool_iff.
Qed.

(** ** The weekly high and low *)

(** The high after the loop is [NegInf] when no day has a finite maximum,
    and the greatest finite maximum otherwise. *)
Lemma scan_high (days : list WeatherDay) :
  forall (i : Z) (acc : Scan),
    (weeklyHigh acc = NegInf
     \/ exists q0, weeklyHigh acc = Fin q0) ->
    (weeklyHigh (scan i days acc) = NegInf
     /\ weeklyHigh acc = NegInf
     /\ forall d, In d days -> isFinite (tMax d) = false)
    \/ (exists q, weeklyHigh (scan i days acc) = Fin q
                  /\ (weeklyHigh acc = Fin q
                      \/ exists d, In d days /\ tMax d = Fin q)
                  /\ (forall q0, weeklyHigh acc = Fin q0 -> q0 <= q)
                  /\ forall d q', In d days -> tMax d = Fin q' -> q' <= q).
Proof.
  induction days as [|d days IH]; intros i acc Hacc.
  - cbn. destruct Hacc as [H | [q0 H]].
    + left. repeat split; trivial. intros d [].
    + right. exists q0. repeat split; auto.
      * intros q1 H1. rewrite H in H1. injection H1 as <-. apply Qle_refl.
      * intros d q' [].
  - cbn [scan].
    set (acc' := mkScan _ _ _ _).
    assert (Hhi : weeklyHigh acc'
                  = if isFinite (tMax d) && gt (tMax d) (weeklyHigh acc)
                    then tMax d else weeklyHigh acc) by reflexivity.
    destruct (isFinite (tMax d) && gt (tMax d) (weeklyHigh acc)) eqn:Hc.
    + (* the day raises the high *)
      apply andb_prop in Hc as [Hfin Hgt].
      destruct (tMax d) as [| | |q] eqn:Hd; try discriminate.
      destruct (IH (i + 1)%Z acc') as [(H1 & H2 & H3) | (m & H1 & H2 & H3 & H4)].
      { right. exists q. exact Hhi. }
      { congruence. }
      right. exists m. split; [exact H1|]. split; [|split].
      * right. destruct H2 as [H2 | (d' & Hin & Hq)].
        -- exists d. split; [now left|]. congruence.
        -- exists d'. split; [now right|trivial].
      * intros q0 Hq0. rewrite Hq0 in Hgt. apply gt_Fin in Hgt.
        apply Qle_trans with q; [now apply Qlt_le_weak|]. now apply H3.
      * intros d' q' [<- | Hin] Hq'.
        -- rewrite Hd in Hq'. injection Hq' as <-. now apply H3.
        -- now apply (H4 d').
    + (* the day does not *)
      rewrite <- Hhi in Hacc.
      destruct (IH (i + 1)%Z acc' Hacc)
        as [(H1 & H2 & H3) | (m & H1 & H2 & H3 & H4)].
      * left. split; [exact H1|]. split; [congruence|].
        intros d' [<- | Hin]; [|now apply H3].
        destruct (tMax d) as [| | |q]; trivial.
        rewrite Hhi in H2. rewrite H2 in Hc. discriminate.
      * right. exists m. split; [exact H1|]. split; [|split].
        -- destruct H2 as [H2 | (d' & Hin & Hq)].
           ++ left. congruence.
           ++ right. exists d'. split; [now right|trivial].
        -- intros q0 Hq0. apply H3. congruence.
        -- intros d' q' [<- | Hin] Hq'; [|now apply (H4 d')].
           rewrite Hq' in Hc. cbn [isFinite andb] in Hc.
           destruct (weeklyHigh acc) as [| | |q0] eqn:Ha;
             try (destruct Hacc as [Hacc | [q1 Hacc]]; rewrite Hhi in Hacc;
                  discriminate).
           apply gt_Fin_false in Hc.
           apply Qle_trans with q0; trivial. apply H3. congruence.
Qed.

Lemma lt_Fin (a c : Q) : lt (Fin a) (Fin c) = true <-> a < c.
Proof. unfold lt. apply gt_Fin. Qed.

Lemma lt_Fin_false (a c : Q) : lt (Fin a) (Fin c) = false <-> c <= a.
Proof. unfold lt. apply gt_Fin_false. Qed.

(** The low after the loop is [PosInf] when no day has a finite minimum,
    and the least finite minimum otherwise. *)
Lemma scan_low (days : list WeatherDay) :
  forall (i : Z) (acc : Scan),
    (weeklyLow acc = PosInf
     \/ exists q0, weeklyLow acc = Fin q0) ->
    (weeklyLow (scan i days acc) = PosInf
     /\ weeklyLow acc = PosInf
     /\ forall d, In d days -> isFinite (tMin d) = false)
    \/ (exists q, weeklyLow (scan i days acc) = Fin q
                  /\ (weeklyLow acc = Fin q
                      \/ exists d, In d days /\ tMin d = Fin q)
                  /\ (forall q0, weeklyLow acc = Fin q0 -> q <= q0)
                  /\ forall d q', In d days -> tMin d = Fin q' -> q <= q').
Proof.
  induction days as [|d days IH]; intros i acc Hacc.
  - cbn. destruct Hacc as [H | [q0 H]].
    + left. repeat split; trivial. intros d [].
    + right. exists q0. repeat split; auto.
      * intros q1 H1. rewrite H in H1. injection H1 as <-. apply Qle_refl.
      * intros d q' [].
  - cbn [scan].
    set (acc' := mkScan _ _ _ _).
    assert (Hlo : weeklyLow acc'
                  = if isFinite (tMin d) && lt (tMin d) (weeklyLow acc)
                    then tMin d else weeklyLow acc) by reflexivity.
    destruct (isFinite (tMin d) && lt (tMin d) (weeklyLow acc)) eqn:Hc.
    + (* the day lowers the low *)
      apply andb_prop in Hc as [Hfin Hlt].
      destruct (tMin d) as [| | |q] eqn:Hd; try discriminate.
      destruct (IH (i + 1)%Z acc') as [(H1 & H2 & H3) | (m & H1 & H2 & H3 & H4)].
      { right. exists q. exact Hlo. }
      { congruence. }
      right. exists m. split; [exact H1|]. split; [|split].
      * right. destruct H2 as [H2 | (d' & Hin & Hq)].
        -- exists d. split; [now left|]. congruence.
        -- exists d'. split; [now right|trivial].
      * intros q0 Hq0. rewrite Hq0 in Hlt. apply lt_Fin in Hlt.
        apply Qle_trans with q; [now apply H3 | now apply Qlt_le_weak].
      * intros d' q' [<- | Hin] Hq'.
        -- rewrite Hd in Hq'. injection Hq' as <-. now apply H3.
        -- now apply (H4 d').
    + (* the day does not *)
      rewrite <- Hlo in Hacc.
      destruct (IH (i + 1)%Z acc' Hacc)
        as [(H1 & H2 & H3) | (m & H1 & H2 & H3 & H4)].
      * left. split; [exact H1|]. split; [congruence|].
        intros d' [<- | Hin]; [|now apply H3].
        destruct (tMin d) as [| | |q]; trivial.
        rewrite Hlo in H2. rewrite H2 in Hc. discriminate.
      * right. exists m. split; [exact H1|]. split; [|split].
        -- destruct H2 as [H2 | (d' & Hin & Hq)].
           ++ left. congruence.
           ++ right. exists d'. split; [now right|trivial].
        -- intros q0 Hq0. apply H3. congruence.
        -- intros d' q' [<- | Hin] Hq'; [|now apply (H4 d')].
           rewrite Hq' in Hc. cbn [isFinite andb] in Hc.
           destruct (weeklyLow acc) as [| | |q0] eqn:Ha;
             try (destruct Hacc as [Hacc | [q1 Hacc]]; rewrite Hlo in Hacc;
                  discriminate).
           apply lt_Fin_false in Hc.
           apply Qle_trans with q0; trivial. apply H3. congruence.
Qed.

(** ** The wettest day *)

(** The loop keeps a finite [maxPop]; it ends on the greatest of its initial
    value and the finite probabilities, and [wetIdx] is the index of the
    first day that reaches it, when a day raised it. *)
Lemma scan_pop (days : list WeatherDay) :
  forall (i : Z) (acc : Scan) (m0 : Q),
    maxPop acc = Fin m0 ->
    (maxPop (scan i days acc) = Fin m0
     /\ wetIdx (scan i days acc) = wetIdx acc
     /\ forall d q, In d days -> pop d = Fin q -> q <= m0)
    \/ (exists j d q,
           nth_error days j = Some d /\ pop d = Fin q /\ m0 < q
           /\ maxPop (scan i days acc) = Fin q
           /\ wetIdx (scan i days acc) = (i + Z.of_nat j)%Z
           /\ (forall d' q', In d' days -> pop d' = Fin q' -> q' <= q)
           /\ (forall k d' q', (k < j)%nat -> nth_error days k = Some d' ->
                               pop d' = Fin q' -> q' < q)).
Proof.
  induction days as [|d days IH]; intros i acc m0 Hacc.
  - left. cbn. repeat split; trivial. intros d q [].
  - cbn [scan].
    set (acc' := mkScan _ _ _ _).
    assert (Hm : maxPop acc'
                 = if isFinite (pop d) && gt (pop d) (maxPop acc)
                   then pop d else maxPop acc) by reflexivity.
    assert (Hw : wetIdx acc'
                 = if isFinite (pop d) && gt (pop d) (maxPop acc)
                   then i else wetIdx acc) by reflexivity.
    destruct (isFinite (pop d) && gt (pop d) (maxPop acc)) eqn:Hc.
    + (* the day raises the peak *)
      apply andb_prop in Hc as [Hfin Hgt].
      destruct (pop d) as [| | |q] eqn:Hd; try discriminate.
      rewrite Hacc in Hgt. apply gt_Fin in Hgt.
      destruct (IH (i + 1)%Z acc' q Hm)
        as [(H1 & H2 & H3) | (j & d' & q' & Hj & Hq & Hlt & H1 & H2 & H3 & H4)].
      * right. exists 0%nat, d, q. cbn [nth_error].
        repeat split; trivial.
        -- rewrite H2, Hw. lia.
        -- intros d' q' [<- | Hin] Hq'.
           ++ rewrite Hd in Hq'. injection Hq' as <-. apply Qle_refl.
           ++ now apply (H3 d').
        -- intros k d' q' Hk. lia.
      * right. exists (S j), d', q'. cbn [nth_error].
        repeat split; trivial.
        -- now apply Qlt_trans with q.
        -- rewrite H2. lia.
        -- intros d'' q'' [<- | Hin] Hq''.
           ++ rewrite Hd in Hq''. injection Hq'' as <-. now apply Qlt_le_weak.
           ++ now apply (H3 d'').
        -- intros k d'' q'' Hk Hnth Hq''. destruct k as [|k]; cbn in Hnth.
           ++ injection Hnth as <-. rewrite Hd in Hq''.
              now injection Hq'' as <-.
           ++ apply (H4 k d''); trivial. lia.
    + (* the day does not *)
      rewrite Hacc in Hm.
      destruct (IH (i + 1)%Z acc' m0 Hm)
        as [(H1 & H2 & H3) | (j & d' & q' & Hj & Hq & Hlt & H1 & H2 & H3 & H4)].
      * left. split; [exact H1|]. split; [congruence|].
        intros d' q' [<- | Hin] Hq'; [|now apply (H3 d')].
        rewrite Hq', Hacc in Hc. cbn [isFinite andb] in Hc.
        now apply gt_Fin_false in Hc.
      * right. exists (S j), d', q'. cbn [nth_error].
        repeat split; trivial.
        -- rewrite H2. lia.
        -- intros d'' q'' [<- | Hin] Hq''; [|now apply (H3 d'')].
           rewrite Hq'', Hacc in Hc. cbn [isFinite andb] in Hc.
           apply gt_Fin_false in Hc.
           apply Qle_trans with m0; trivial. now apply Qlt_le_weak.
        -- intros k d'' q'' Hk Hnth Hq''. destruct k as [|k]; cbn in Hnth.
           ++ injection Hnth as <-.
              rewrite Hq'', Hacc in Hc. cbn [isFinite andb] in Hc.
              apply gt_Fin_false in Hc.
              now apply Qle_lt_trans with m0.
           ++ apply (H4 k d''); trivial. lia.
Qed.

(** ** The three sentences *)

Lemma firstn_min {A} (n : nat) (l : list A) :
  firstn (Nat.min n (List.length l)) l = firstn n l.
Proof.
  destruct (Nat.le_ge_cases n (List.length l)) as [H | H].
  - now rewrite Nat.min_l.
  - rewrite Nat.min_r by trivial.
    now rewrite firstn_all, firstn_all2.
Qed.

Section Facts.

Context {R : Runtime} {U : UrlApi}.
Variable world : World.

(** The figures behind the text: the rounded weekly high and low and the
    peak of the first seven days. *)
Lemma summary_figures (place : Place) (units : Units)
      (daily : list WeatherDay) :
  exists hi lo p day,
    rounded_max tMax (firstn 7 daily) hi
    /\ rounded_min tMin (firstn 7 daily) lo
    /\ peak (firstn 7 daily) p day
    /\ summary_text place units daily
       = String.concat " " [ line1 (placeName place) (temp units) hi lo;
                             line2 p day; line3 hi lo p ].
Proof.
  unfold summary_text. rewrite firstn_min.
  set (days := firstn 7 daily).
  set (r := scan 0 days (mkScan NegInf PosInf (Fin (-1)) (-1))).
  exists (round_finite (weeklyHigh r)), (round_finite (weeklyLow r)).
  eexists. eexists.
  split; [|split; [|split; [|reflexivity]]].
  - (* the high *)
    destruct (scan_high days 0 (mkScan NegInf PosInf (Fin (-1)) (-1)))
      as [(H1 & _ & H3) | (q & H1 & H2 & _ & H4)]; [now left| |];
      fold r in H1; rewrite H1; cbn [round_finite rounded_max].
    + exact H3.
    + destruct H2 as [H2 | (d & Hin & Hd)]; [discriminate|].
      exists d, q. repeat split; trivial.
  - (* the low *)
    destruct (scan_low days 0 (mkScan NegInf PosInf (Fin (-1)) (-1)))
      as [(H1 & _ & H3) | (q & H1 & H2 & _ & H4)]; [now left| |];
      fold r in H1; rewrite H1; cbn [round_finite rounded_min].
    + exact H3.
    + destruct H2 as [H2 | (d & Hin & Hd)]; [discriminate|].
      exists d, q. repeat split; trivial.
  - (* the peak *)
    destruct (scan_pop days 0 (mkScan NegInf PosInf (Fin (-1)) (-1))
                       (m0 := -1) eq_refl)
      as [(H1 & H2 & H3) | (j & d & q & Hj & Hq & Hlt & H1 & H2 & H3 & H4)];
      fold r in H1, H2; rewrite H1.
    + cbn. intros d q Hin Hd.
      apply Qle_lt_trans with (-1); [now apply (H3 d)|reflexivity].
    + cbn [ge round_finite].
      destruct (Qle_bool 0 q) eqn:Hq0; cbn [peak].
      * apply Qle_bool_iff in Hq0.
        exists j, d, q. repeat split; trivial.
        rewrite H2.
        replace (0 + Z.of_nat j >=? 0)%Z with true
          by (symmetry; apply Z.geb_le; lia).
        replace (Z.to_nat (0 + Z.of_nat j)) with j by lia.
        now rewrite (nth_error_nth _ _ _ Hj).
      * intros d' q' Hin Hd'.
        apply Qle_lt_trans with q; [now apply (H3 d')|].
        apply Qnot_le_lt. intros Hle. apply Qle_bool_iff in Hle. congruence.
Qed.

(** The first sentence, by cases. *)
Lemma line1_cases (place unitT : string) (hi lo : option Z) :
  (forall h l, hi = Some h -> lo = Some l ->
               line1 place unitT hi lo
               = "Next week in " ++ place ++ ", expect highs around "
                   ++ Number_toString h ++ unitT ++ " and lows near "
                   ++ Number_toString l ++ unitT ++ ".")
  /\ (forall h, hi = Some h -> lo = None ->
                line1 place unitT hi lo
                = "Next week in " ++ place ++ ", expect highs around "
                    ++ Number_toString h ++ unitT ++ ".")
  /\ (forall l, hi = None -> lo = Some l ->
                line1 place unitT hi lo
                = "Next week in " ++ place ++ ", expect lows near "
                    ++ Number_toString l ++ unitT ++ ".")
  /\ (hi = None -> lo = None ->
      line1 place unitT hi lo
      = "Next week in " ++ place ++ ", temperatures vary through the week.").
Proof.
  repeat split.
  - now intros h l -> ->.
  - now intros h -> ->.
  - now intros l -> ->.
  - now intros -> ->.
Qed.

(** The second sentence, by cases. *)
Lemma line2_cases (p : option Z) (day : option string) :
  (forall z d, p = Some z -> (0 < z)%Z -> day = Some d -> d <> "" ->
               line2 p day
               = "Peak chance of precipitation is about " ++ Number_toString z
                   ++ "% on " ++ d ++ ".")
  /\ (forall z, p = Some z -> (0 < z)%Z -> day = None \/ day = Some "" ->
                line2 p day
                = "Peak chance of precipitation is about " ++ Number_toString z
                    ++ "%.")
  /\ (p = None \/ (exists z, p = Some z /\ (z <= 0)%Z) ->
      line2 p day = "Rain risk looks low overall.").
Proof.
  unfold line2. repeat split.
  - intros z d -> Hz -> Hd.
    replace (z >? 0)%Z with true by (symmetry; apply Z.gtb_lt; lia).
    apply JSFacts.truthy_true in Hd. now rewrite Hd.
  - intros z -> Hz Hday.
    replace (z >? 0)%Z with true by (symmetry; apply Z.gtb_lt; lia).
    now destruct Hday as [-> | ->].
  - intros [-> | (z & -> & Hz)]; [reflexivity|].
    replace (z >? 0)%Z with false; [reflexivity|].
    symmetry. rewrite Z.gtb_ltb. apply Z.ltb_ge. lia.
Qed.

(** The third sentence, by cases. *)
Lemma line3_cases (hi lo p : option Z) :
  (forall h l z, hi = Some h -> lo = Some l -> p = Some z -> (40 <= z)%Z ->
                 line3 hi lo p = umbrella)
  /\ (forall h l, hi = Some h -> lo = Some l ->
                  p = None \/ (exists z, p = Some z /\ (z < 40)%Z) ->
                  (10 <= h - l)%Z -> line3 hi lo p = layering)
  /\ (forall h l, hi = Some h -> lo = Some l ->
                  p = None \/ (exists z, p = Some z /\ (z < 40)%Z) ->
                  (h - l < 10)%Z -> line3 hi lo p = light_layers)
  /\ (hi = None \/ lo = None -> line3 hi lo p = flexible_layers).
Proof.
  unfold line3. repeat split.
  - intros h l z -> -> -> Hz.
    replace (z >=? 40)%Z with true by (symmetry; apply Z.geb_le; lia).
    reflexivity.
  - intros h l -> -> Hp Hr.
    replace (h - l >=? 10)%Z with true by (symmetry; apply Z.geb_le; lia).
    destruct Hp as [-> | (z & -> & Hz)]; [reflexivity|].
    replace (z >=? 40)%Z with false; [reflexivity|].
    symmetry. rewrite Z.geb_leb. apply Z.leb_gt. lia.
  - intros h l -> -> Hp Hr.
    replace (h - l >=? 10)%Z with false
      by (symmetry; rewrite Z.geb_leb; apply Z.leb_gt; lia).
    destruct Hp as [-> | (z & -> & Hz)]; [reflexivity|].
    replace (z >=? 40)%Z with false; [reflexivity|].
    symmetry. rewrite Z.geb_leb. apply Z.leb_gt. lia.
  - intros [-> | ->]; [reflexivity|]. now destruct hi.
Qed.

(** C3, as the code has it.  For a successful forecast with at least one
    day, the summary is computed over the first seven days at most and is
    made of three sentences joined by spaces, sent as one delta followed by
    [done] and persisted as one assistant message.  (1) The high/low
    sentence uses the rounded greatest daily maximum and the rounded least
    daily minimum, or whichever exists, or a generic sentence.  (2) The
    precipitation sentence gives the rounded highest probability and names
    the first day that reaches it when the rounded value is above 0, and is
    the low-risk sentence otherwise.  (3) When both the high and the low
    exist the packing sentence is the umbrella advice if the rounded peak is
    at least 40, else the layering advice if rounded high minus rounded low
    is at least 10, else the light-layers advice; when either is missing it
    is a fourth, generic sentence whatever the peak. *)
Theorem forecast_summary (a : Agent) (userText notes : string)
        (place : Place) (units : Units) (daily : list WeatherDay) :
  daily <> [] ->
  summarized world a userText notes place units daily.
Proof.
  intros Hne. unfold summarized.
  destruct (summary_figures place units daily)
    as (hi & lo & p & day & Hhi & Hlo & Hpeak & Htext).
  exists hi, lo, p, day, (line1 (placeName place) (temp units) hi lo),
    (line2 p day), (line3 hi lo p).
  split; [exact Hhi|]. split; [exact Hlo|]. split; [exact Hpeak|].
  split; [|split; [apply line1_cases
                  |split; [apply line2_cases | apply line3_cases]]].
  unfold streamSummary.
  destruct daily as [|d rest]; [now destruct Hne|].
  cbn [List.length]. rewrite <- Htext.
  change (Nat.min 7 (S (List.length rest)))
    with (S (Nat.min 6 (List.length rest))).
  cbn [firstn].
  cbn. rewrite <- app_assoc. split; reflexivity.
Qed.

End Facts.

End SummaryFacts.
(* ================================================================== *)
(** * Invariants of the session controller *)
(* ================================================================== *)

Module ControllerFacts.

Import Agent.
Import Observed.
Import ControllerTactics.
Local Open Scope string_scope.

Section Structure.

Context {R : Runtime} {U : UrlApi}.
Variable world : World.

(** ** How [keeps] composes *)

Lemma keeps_ret {A} (P : Agent -> Prop) (x : A) : keeps P (ret x).
Proof. intros a Ha. exact Ha. Qed.

Lemma keeps_lift {A} (P : Agent -> Prop) (c : completion A) : keeps P (lift c).
Proof. intros a Ha. exact Ha. Qed.

Lemma keeps_bind {A B} (P : Agent -> Prop) (m : Act A) (k : A -> Act B) :
  keeps P m -> (forall x, keeps P (k x)) -> keeps P (bind m k).
Proof.
  intros Hm Hk a Ha. unfold bind.
  specialize (Hm a Ha).
  destruct (m a) as [a' [x|e]]; cbn [fst] in *.
  - now apply Hk.
  - exact Hm.
Qed.

Lemma keeps_getState (P : Agent -> Prop) : keeps P getState.
Proof. intros a Ha. exact Ha. Qed.

Lemma keeps_this_name (P : Agent -> Prop) : keeps P this_name.
Proof. intros a Ha. exact Ha. Qed.

Lemma keeps_tryPlanTool (P : Agent -> Prop) (history : list ChatMessage)
      (userText : string) :
  keeps P (tryPlanTool world history userText).
Proof.
  intros a Ha.
  destruct (PlannerFacts.planner_returns world history userText a)
    as (res & Hres).
  now rewrite Hres.
Qed.

(** ** The turns of a chat, for an invariant kept by their steps *)

Variable P : Agent -> Prop.

Hypothesis reply_kept :
  forall ds, keeps P (sends (map Delta ds) ;;; send Done).
Hypothesis done_kept : keeps P (send Done).
Hypothesis tool_kept : forall t s m r, keeps P (send (Tool t s m r)).
Hypothesis steps_kept :
  forall t msgs,
    keeps P (sends (map (fun msg => Tool t step (Some msg) NoResult) msgs)).
Hypothesis assistant_kept : forall text, keeps P (saveAssistant world text).
Hypothesis envelope_kept :
  forall t v, get v "ok" = Bool true ->
              keeps P (saveToolRow world (tool_result t v)).

Lemma speak_kept (text : string) : keeps P (speak world text).
Proof.
  unfold speak.
  intros a Ha.
  pose proof (reply_kept [text] Ha) as H1.
  pose proof (@assistant_kept text) as H2.
  unfold bind in *. cbn [sends send map fst] in *.
  apply H2 in H1. exact H1.
Qed.

Lemma reply_then {A} (ds : list string) (k : Act A) :
  keeps P k -> keeps P (sends (map Delta ds) ;;; send Done ;;; k).
Proof.
  intros Hk a Ha.
  pose proof (reply_kept ds Ha) as H1.
  unfold bind in *. cbn [sends send fst] in *.
  now apply Hk.
Qed.

Lemma streamSummary_kept (userText : string) (result : Weather.WeatherResult) :
  keeps P (streamSummary world userText result).
Proof.
  unfold streamSummary.
  destruct result as [place units daily notes|err]; [|apply assistant_kept].
  destruct (firstn _ daily); [apply assistant_kept|].
  apply speak_kept.
Qed.

Lemma weather_turn_kept (userText : string) (args : value) :
  keeps P (weather_turn world userText args).
Proof.
  unfold weather_turn.
  apply keeps_bind; [apply speak_kept|intros _].
  apply keeps_bind; [apply tool_kept|intros _].
  apply keeps_bind; [apply tool_kept|intros _].
  destruct (Weather.getWeather (net world) args) as [p u d n|err] eqn:E.
  - apply keeps_bind; [apply tool_kept|intros _].
    apply keeps_bind; [now apply envelope_kept|intros _].
    apply streamSummary_kept.
  - apply keeps_bind; [apply tool_kept|intros _].
    apply assistant_kept.
Qed.

Lemma run_capture_kept {Q} (tool : string)
      (m : Capture.M (Capture.Result Q)) :
  keeps P (run_capture tool m).
Proof.
  unfold run_capture.
  destruct (m Capture.start) as [run c].
  apply keeps_bind; [apply steps_kept|intros _].
  apply keeps_lift.
Qed.

Lemma screenshot_with_kept (userText target : string)
      (args : Capture.ScreenshotArgs) :
  keeps P (screenshot_with world userText target args).
Proof.
  unfold screenshot_with.
  apply keeps_bind; [apply speak_kept|intros _].
  apply keeps_bind; [apply tool_kept|intros _].
  apply keeps_bind; [apply keeps_this_name|intros sid].
  apply keeps_bind; [apply run_capture_kept|intros res].
  destruct res as [p|err code].
  - apply keeps_bind; [apply tool_kept|intros _].
    apply keeps_bind; [now apply envelope_kept|intros _].
    apply keeps_bind; [apply keeps_getState|intros s].
    apply speak_kept.
  - apply keeps_bind; [apply tool_kept|intros _].
    apply keeps_bind; [apply keeps_getState|intros s].
    apply speak_kept.
Qed.

Lemma pdf_with_kept (userText target : string) (args : Capture.PdfArgs) :
  keeps P (pdf_with world userText target args).
Proof.
  unfold pdf_with.
  apply keeps_bind; [apply speak_kept|intros _].
  apply keeps_bind; [apply tool_kept|intros _].
  apply keeps_bind; [apply keeps_this_name|intros sid].
  apply keeps_bind; [apply run_capture_kept|intros res].
  destruct res as [p|err code].
  - apply keeps_bind; [apply tool_kept|intros _].
    apply keeps_bind; [now apply envelope_kept|intros _].
    apply keeps_bind; [apply keeps_getState|intros s].
    apply speak_kept.
  - apply keeps_bind; [apply tool_kept|intros _].
    apply keeps_bind; [apply keeps_getState|intros s].
    apply speak_kept.
Qed.

Lemma streamAssistant_kept (history : list ChatMessage) :
  keeps P (streamAssistant world history).
Proof.
  unfold streamAssistant.
  apply keeps_bind; [apply keeps_getState|intros s].
  destruct (AI_run world _ _) as [[out|stream]|e].
  - apply keeps_bind; [apply assistant_kept|intros _]. apply done_kept.
  - destruct (failure stream); apply reply_then; apply assistant_kept.
  - apply keeps_bind; [apply done_kept|intros _]. apply assistant_kept.
Qed.

Lemma respond_kept (userText : string) : keeps P (respond world userText).
Proof.
  unfold respond.
  apply keeps_bind; [apply keeps_getState|intros s].
  apply keeps_bind; [apply keeps_tryPlanTool|intros planned].
  destruct planned as [args|]; [apply weather_turn_kept|].
  destruct (RegExp.test ssRe userText); [apply screenshot_with_kept|].
  destruct (RegExp.test pdfRe userText); [apply pdf_with_kept|].
  apply streamAssistant_kept.
Qed.

(** The [chat] branch stores the user's message and responds. *)
Lemma chat_respond (text : value) (a : Agent) :
  chat world text a
  = match Weather.call_trim text_or_empty (or_value text (Str "")) with
    | Return userText =>
        if JS.truthy userText
        then respond world userText (fst (remember_user world userText a))
        else (a, Return tt)
    | Throw e => (a, Throw e)
    end.
Proof.
  unfold chat. unfold bind at 1. unfold lift.
  destruct (Weather.call_trim _ _) as [userText|e]; [|reflexivity].
  destruct (JS.truthy userText); reflexivity.
Qed.

Hypothesis user_kept : forall text, keeps P (remember_user world text).

Lemma chat_kept (text : value) : keeps P (chat world text).
Proof.
  intros a Ha. rewrite chat_respond.
  destruct (Weather.call_trim _ _) as [userText|e]; [|exact Ha].
  destruct (JS.truthy userText); [|exact Ha].
  apply respond_kept. now apply user_kept.
Qed.

Hypothesis model_kept :
  forall v,
    keeps P (s <- getState ;;
             t <- Date_now world ;;
             setState (mkState v (messages s) (createdAt s) (t + DAY))).
Hypothesis reset_kept :
  keeps P (sql_delete ;;;
           s <- getState ;;
           c <- Date_now world ;;
           t <- Date_now world ;;
           setState (mkState (model_or_default s) [] c (t + DAY)) ;;;
           send Cleared).

Lemma onMessage_kept (frame : Frame) : keeps P (onMessage world frame).
Proof.
  unfold onMessage.
  destruct frame as [m|]; [|apply keeps_ret].
  destruct (negb (toBoolean _)); [apply keeps_ret|].
  destruct (is_str _ "model" && _); [apply model_kept|].
  destruct (is_str _ "reset"); [apply reset_kept|].
  destruct (is_str _ "chat"); [apply chat_kept|apply keeps_ret].
Qed.

End Structure.

Section Invariants.

Context {R : Runtime} {U : UrlApi}.
Variable world : World.

(** X1.  The in-memory log and the table hold the same rows, in the same
    order: each handler keeps it so, whether it returns or throws. *)
Theorem state_mirrors_table (a : Agent) :
  messages (state a) = rows a ->
  (forall frame,
      let a' := fst (onMessage world frame a) in messages (state a') = rows a')
  /\ (let a' := fst (onConnect world a) in messages (state a') = rows a').
Proof.
  intros Ha. split.
  - intros frame.
    apply (@onMessage_kept R U world
             (fun a => messages (state a) = rows a));
      try (intros; intros x Hx; step_by_step; congruence);
      try (intros x Hx; step_by_step; congruence).
    exact Ha.
  - unfold onConnect. step_by_step.
    destruct (messages (state a)) eqn:E; cbn; [|congruence].
    rewrite <- Ha. reflexivity.
Qed.

(** ** The frames of a reply *)

Lemma unfinished_app (es fs : list Event) :
  unfinished (es ++ fs)
  = fold_left (fun open e => match e with
                             | Delta _ => true
                             | Done => false
                             | _ => open
                             end) fs (unfinished es).
Proof. unfold unfinished. apply fold_left_app. Qed.

Lemma unfinished_steps (tool : string) (msgs : list string) (open : bool) :
  fold_left (fun open e => match e with
                           | Delta _ => true
                           | Done => false
                           | _ => open
                           end)
            (map (fun msg => Tool tool step (Some msg) NoResult) msgs) open
  = open.
Proof. induction msgs as [|msg msgs IH]; [reflexivity|exact IH]. Qed.

(** X2.  Every reply is closed within the call that opens it: when no [delta]
    frame was waiting for its [done] before a message is handled, none is
    after, whether the handler returns or throws. *)
Theorem replies_are_closed (frame : Frame) (a : Agent) :
  unfinished (sent a) = false ->
  unfinished (sent (fst (onMessage world frame a))) = false.
Proof.
  apply (@onMessage_kept R U world (fun a => unfinished (sent a) = false)).
  - intros ds x Hx. step_by_step. now rewrite unfinished_app.
  - intros x Hx. step_by_step. now rewrite unfinished_app.
  - intros t s m r x Hx. step_by_step. now rewrite unfinished_app.
  - intros t msgs x Hx. step_by_step.
    now rewrite unfinished_app, unfinished_steps.
  - intros text x Hx. step_by_step. exact Hx.
  - intros t v _ x Hx. step_by_step. exact Hx.
  - intros text x Hx. step_by_step. exact Hx.
  - intros v x Hx. step_by_step. exact Hx.
  - intros x Hx. step_by_step. now rewrite unfinished_app.
Qed.

(** ** The expiry *)

(** X3.  A handler that reads the clock or writes the state leaves the expiry
    one day after its last reading of the clock. *)
Theorem expiry_slides (frame : Frame) (a : Agent) :
  let a' := fst (onMessage world frame a) in
  (clock_reads a' = clock_reads a /\ state a' = state a)
  \/ expiresAt (state a')
     = (now world (Nat.pred (clock_reads a')) + DAY)%Z.
Proof.
  apply (@onMessage_kept R U world
           (fun x => (clock_reads x = clock_reads a /\ state x = state a)
                     \/ expiresAt (state x)
                        = (now world (Nat.pred (clock_reads x)) + DAY)%Z));
    try (intros; intros x Hx; step_by_step; first [exact Hx | now right]);
    try (intros x Hx; step_by_step; first [exact Hx | now right]).
  now left.
Qed.

(** ** The log *)

(** The text of a chat frame that is a string, trimmed. *)
Lemma trimmed_text (s : string) :
  Weather.call_trim text_or_empty (or_value (Str s) (Str "")) = Return (trim s).
Proof.
  unfold or_value. cbn [toBoolean]. destruct (JS.truthy s) eqn:Hs.
  - reflexivity.
  - apply JSFacts.truthy_false in Hs. now subst s.
Qed.

(** X4.  A chat turn only appends to the table.  For a text that trims to
    something it appends first the user's message, trimmed and stamped with
    the first reading of the clock, then rows that are not the user's.  For
    a text that trims to nothing, or is falsy, it leaves the agent as it
    was; for a truthy text that is not a string the handler throws, and the
    agent is as it was. *)
Theorem chat_appends (text : value) (a : Agent) :
  let a' := fst (chat world text a) in
  (forall s, text = Str s -> trim s <> "" ->
             exists replies,
               rows a'
               = (rows a ++ mkMsg user (trim s) (now world (clock_reads a))
                         :: replies)%list
               /\ Forall (fun m => role m <> user) replies)
  /\ (forall s, text = Str s -> trim s = "" ->
                chat world text a = (a, Return tt))
  /\ (toBoolean text = false -> chat world text a = (a, Return tt))
  /\ (toBoolean text = true -> (forall s, text <> Str s) ->
      exists e, chat world text a = (a, Throw e)).
Proof.
  cbv zeta. rewrite chat_respond.
  split; [|split; [|split]].
  - intros s -> Hne.
    rewrite trimmed_text.
    remember (trim s) as userText eqn:HuserText. clear HuserText.
    apply JSFacts.truthy_true in Hne. rewrite Hne.
    set (urow := mkMsg user userText (now world (clock_reads a))).
    apply (@respond_kept R U world
             (fun x => exists replies,
                  rows x = (rows a ++ urow :: replies)%list
                  /\ Forall (fun m => role m <> user) replies)).
    + intros ds x Hx. step_by_step. exact Hx.
    + intros x Hx. step_by_step. exact Hx.
    + intros t st m r x Hx. step_by_step. exact Hx.
    + intros t msgs x Hx. step_by_step. exact Hx.
    + intros t x (replies & Hrows & Hall). step_by_step.
      eexists. rewrite Hrows. split.
      * rewrite <- app_assoc. cbn [List.app]. rewrite app_comm_cons.
        change (urow :: replies) with ([urow] ++ replies)%list.
        rewrite <- app_assoc. reflexivity.
      * apply Forall_app. split; [exact Hall|].
        constructor; [discriminate|constructor].
    + intros t v _ x (replies & Hrows & Hall). step_by_step.
      eexists. rewrite Hrows. split.
      * rewrite <- app_assoc. cbn [List.app]. rewrite app_comm_cons.
        change (urow :: replies) with ([urow] ++ replies)%list.
        rewrite <- app_assoc. reflexivity.
      * apply Forall_app. split; [exact Hall|].
        constructor; [discriminate|constructor].
    + step_by_step. exists []. split; [reflexivity|constructor].
  - intros s -> Hblank.
    unfold or_value. cbn [toBoolean]. destruct (JS.truthy s) eqn:Hs.
    + cbn [Weather.call_trim]. now rewrite Hblank.
    + reflexivity.
  - intros Hfalse. unfold or_value. rewrite Hfalse. reflexivity.
  - intros Htrue Hstr. unfold or_value. rewrite Htrue.
    destruct text as [| |v|n|s|items|fields]; try discriminate Htrue;
      try (eexists; reflexivity).
    now destruct (Hstr s).
Qed.

(** X5.  A chat turn stores a tool result only when the tool succeeded: every
    [tool] row it appends holds the envelope of a result whose [ok] is [true].
    A failed forecast or capture leaves no row of its own. *)
Theorem only_successes_are_stored (text : value) (a : Agent) :
  exists new,
    rows (fst (chat world text a)) = (rows a ++ new)%list
    /\ Forall (fun m => role m = tool -> ok_envelope m) new.
Proof.
  apply (@chat_kept R U world
           (fun x => exists new,
                rows x = (rows a ++ new)%list
                /\ Forall (fun m => role m = tool -> ok_envelope m) new));
    try (intros; intros x Hx; step_by_step; exact Hx);
    try (intros x Hx; step_by_step; exact Hx).
  - intros t x (new & Hrows & Hall). step_by_step.
    exists (new ++ [mkMsg assistant t (now world (clock_reads x))])%list.
    rewrite Hrows, app_assoc. split; [reflexivity|].
    apply Forall_app. split; [exact Hall|].
    constructor; [discriminate|constructor].
  - intros t v Hok x (new & Hrows & Hall). step_by_step.
    exists (new ++ [mkMsg tool (tool_result t v)
                          (now world (clock_reads x))])%list.
    rewrite Hrows, app_assoc. split; [reflexivity|].
    apply Forall_app. split; [exact Hall|].
    constructor; [|constructor].
    intros _. exists t, v. now split.
  - intros t x (new & Hrows & Hall). step_by_step.
    exists (new ++ [mkMsg user t (now world (clock_reads x))])%list.
    rewrite Hrows, app_assoc. split; [reflexivity|].
    apply Forall_app. split; [exact Hall|].
    constructor; [discriminate|constructor].
  - exists []. now rewrite app_nil_r.
Qed.

(** A chat turn changes neither the model, nor the creation time, nor the
    name of the session. *)
Theorem chat_keeps_session (text : value) (a : Agent) :
  let a' := fst (chat world text a) in
  model (state a') = model (state a)
  /\ createdAt (state a') = createdAt (state a)
  /\ name a' = name a.
Proof.
  apply (@chat_kept R U world
           (fun x => model (state x) = model (state a)
                     /\ createdAt (state x) = createdAt (state a)
                     /\ name x = name a));
    try (intros; intros x Hx; step_by_step; exact Hx);
    try (intros x Hx; step_by_step; exact Hx).
  repeat split.
Qed.

(** ** Frames that are ignored *)

(** X6.  A frame is dropped without a trace (no row, no frame sent, no clock
    reading, state untouched) when it is binary, when it is not JSON, when it
    has no truthy [type], when its [type] is none of "model", "reset" and
    "chat", and when it is a [model] frame without a truthy [model]. *)
Theorem ignored_frames (a : Agent) :
  onMessage world BinaryFrame a = (a, Return tt)
  /\ (forall m e, JSON_parse m = Throw e ->
                  onMessage world (TextFrame m) a = (a, Return tt))
  /\ (forall m data, JSON_parse m = Return data ->
                     toBoolean (get data "type") = false ->
                     onMessage world (TextFrame m) a = (a, Return tt))
  /\ (forall m data, JSON_parse m = Return data ->
                     is_str (get data "type") "model" = false ->
                     is_str (get data "type") "reset" = false ->
                     is_str (get data "type") "chat" = false ->
                     onMessage world (TextFrame m) a = (a, Return tt))
  /\ (forall m data, JSON_parse m = Return data ->
                     get data "type" = Str "model" ->
                     toBoolean (get data "model") = false ->
                     onMessage world (TextFrame m) a = (a, Return tt)).
Proof.
  split; [reflexivity|].
  split; [intros m e H; unfold onMessage; now rewrite H|].
  split; [intros m data H Ht; unfold onMessage; now rewrite H, Ht|].
  split.
  - intros m data H Hm Hr Hc. unfold onMessage. rewrite H, Hm, Hr, Hc.
    cbn [andb]. now destruct (negb _).
  - intros m data H Ht Hm. unfold onMessage. rewrite H, Ht, Hm. reflexivity.
Qed.

(** ** The model *)

(** X7.  A [model] frame with a truthy [model] stores it and answers nothing:
    no frame is sent and no row is written. A [reset] that follows keeps the
    model that was chosen. *)
Theorem model_choice_survives_reset (a : Agent) (f1 f2 : string)
        (d1 d2 : value) :
  JSON_parse f1 = Return d1 ->
  get d1 "type" = Str "model" ->
  toBoolean (get d1 "model") = true ->
  JSON_parse f2 = Return d2 ->
  get d2 "type" = Str "reset" ->
  let a1 := fst (onMessage world (TextFrame f1) a) in
  let a2 := fst (onMessage world (TextFrame f2) a1) in
  model (state a1) = get d1 "model"
  /\ messages (state a1) = messages (state a)
  /\ createdAt (state a1) = createdAt (state a)
  /\ rows a1 = rows a
  /\ sent a1 = sent a
  /\ model (state a2) = get d1 "model".
Proof.
  intros H1 T1 M1 H2 T2. cbv zeta.
  assert (E1 : onMessage world (TextFrame f1) a
               = (mkAgent (name a)
                    (mkState (get d1 "model") (messages (state a))
                             (createdAt (state a))
                             (now world (clock_reads a) + DAY))
                    (rows a) (sent a) (S (clock_reads a)), Return tt)).
  { unfold onMessage. rewrite H1, T1, M1. reflexivity. }
  rewrite E1. cbn [fst state model messages createdAt rows sent].
  repeat (split; [reflexivity|]).
  unfold onMessage. rewrite H2, T2. cbn [toBoolean JS.truthy].
  step_by_step. cbn. unfold model_or_default. cbn [model]. now rewrite M1.
Qed.

(** ** The answer of the plain chat *)

(** X8.  The streamed answer always comes to an end: whatever the model
    binding does (throw, return a value that is not a stream, stream and
    fail), the call returns, the frames it sends are [delta] frames followed
    by one [done], and one assistant row is written, stamped with the next
    reading of the clock. When text was streamed, the row holds exactly that
    text. *)
Theorem plain_chat_always_answers (history : list ChatMessage) (a : Agent) :
  exists deltas text,
    let row := mkMsg assistant text (now world (clock_reads a)) in
    streamAssistant world history a
    = (mkAgent (name a)
         (mkState (model (state a)) (messages (state a) ++ [row])%list
                  (createdAt (state a))
                  (now world (S (clock_reads a)) + DAY))
         (rows a ++ [row])%list
         (sent a ++ map Delta deltas ++ [Done])%list
         (S (S (clock_reads a))), Return tt)
    /\ (String.concat "" deltas <> "" -> text = String.concat "" deltas).
Proof.
  unfold streamAssistant. unfold bind at 1. unfold getState at 1.
  destruct (AI_run world _ _) as [[out|stream]|e].
  - exists [], (match out with Str s => s | _ => "[no response]" end).
    step_by_step. cbn [map List.app].
    split; [reflexivity|]. intros H. now destruct H.
  - destruct (failure stream) as [e|].
    + exists (relay (chunks stream) ""),
        (or_else (String.concat "" (relay (chunks stream) ""))
                 "_(stream error)_").
      step_by_step. rewrite <- app_assoc.
      split; [reflexivity|].
      intros H. apply JSFacts.truthy_true in H. unfold or_else. now rewrite H.
    + exists (relay (chunks stream) ""),
        (String.concat "" (relay (chunks stream) "")).
      step_by_step. rewrite <- app_assoc.
      split; [reflexivity|]. reflexivity.
  - exists [], "_(stream error)_".
    step_by_step. cbn [map List.app].
    split; [reflexivity|]. intros H. now destruct H.
Qed.

(** ** The history handed to the model *)

Lemma last_n_snoc {A} (n : nat) (l : list A) (x : A) :
  last_n (S n) (l ++ [x]) = (last_n n l ++ [x])%list.
Proof.
  unfold last_n. rewrite length_app. cbn [List.length].
  replace (List.length l + 1 - S n)%nat with (List.length l - n)%nat by lia.
  rewrite skipn_app.
  replace (List.length l - n - List.length l)%nat with 0%nat by lia.
  reflexivity.
Qed.

Lemma last_n_length {A} (n : nat) (l : list A) :
  (List.length (last_n n l) <= n)%nat.
Proof. unfold last_n. rewrite length_skipn. lia. Qed.

(** X9.  Once the user's message is stored, the history built for the turn
    holds at most 40 entries, none of them a tool row, and ends with that
    message. The planner, which appends the user's text to the history it is
    given, therefore reads it twice. *)
Theorem history_window (userText : string) (a : Agent) :
  let h := history_of (state (fst (remember_user world userText a))) in
  (List.length h <= 40)%nat
  /\ Forall (fun m => cm_role m = "user" \/ cm_role m = "assistant") h
  /\ exists earlier,
       h = (earlier ++ [mkChat "user" userText])%list
       /\ planner_messages h userText
          = (mkChat "system" planner_system :: earlier
               ++ [mkChat "user" userText; mkChat "user" userText])%list.
Proof.
  cbv zeta. step_by_step. unfold history_of. cbn [messages].
  split; [|split].
  - rewrite length_map.
    etransitivity; [apply filter_length_le|apply last_n_length].
  - apply Forall_map. apply Forall_forall. intros m Hm.
    apply filter_In in Hm. destruct Hm as [_ Hm].
    unfold isUserOrAssistant in Hm. destruct (role m); cbn; auto.
    discriminate.
  - rewrite last_n_snoc, filter_app, map_app. cbn [filter isUserOrAssistant role map].
    eexists. split; [reflexivity|].
    unfold planner_messages. cbn [List.app Role_toString content].
    now rewrite <- app_assoc.
Qed.

(** ** Connecting *)

Lemma insert_by_ts_perm (m : Msg) (l : list Msg) :
  Permutation.Permutation (insert_by_ts m l) (m :: l).
Proof.
  induction l as [|x l IH]; cbn [insert_by_ts]; [apply Permutation.Permutation_refl|].
  destruct (ts m <? ts x)%Z; [apply Permutation.Permutation_refl|].
  eapply Permutation.perm_trans; [apply Permutation.perm_skip, IH|].
  apply Permutation.perm_swap.
Qed.

Lemma insert_by_ts_sorted (m : Msg) (l : list Msg) :
  Sorted.StronglySorted (fun x y => (ts x <= ts y)%Z) l ->
  Sorted.StronglySorted (fun x y => (ts x <= ts y)%Z) (insert_by_ts m l).
Proof.
  induction 1 as [|x l Hl IH Hx]; cbn [insert_by_ts].
  - constructor; constructor.
  - destruct (Z.ltb_spec (ts m) (ts x)) as [Hlt|Hge].
    + constructor; [now constructor|].
      constructor; [lia|].
      eapply Forall_impl; [|exact Hx]. cbn. intros y Hy. lia.
    + constructor; [exact IH|].
      eapply Permutation.Permutation_Forall;
        [apply Permutation.Permutation_sym, insert_by_ts_perm|].
      constructor; assumption.
Qed.

Lemma order_by_ts_spec (l : list Msg) :
  Permutation.Permutation (order_by_ts l) l
  /\ Sorted.StronglySorted (fun x y => (ts x <= ts y)%Z) (order_by_ts l).
Proof.
  unfold order_by_ts.
  assert (H : forall acc,
             Sorted.StronglySorted (fun x y => (ts x <= ts y)%Z) acc ->
             Permutation.Permutation
               (fold_left (fun acc m => insert_by_ts m acc) l acc)
               (acc ++ l)
             /\ Sorted.StronglySorted (fun x y => (ts x <= ts y)%Z)
                  (fold_left (fun acc m => insert_by_ts m acc) l acc)).
  { induction l as [|m l IH]; intros acc Hacc; cbn [fold_left].
    - rewrite app_nil_r. split; [apply Permutation.Permutation_refl|exact Hacc].
    - destruct (IH (insert_by_ts m acc) (insert_by_ts_sorted m Hacc))
        as [Hp Hs].
      split; [|exact Hs].
      eapply Permutation.perm_trans; [exact Hp|].
      eapply Permutation.perm_trans;
        [apply Permutation.Permutation_app_tail, insert_by_ts_perm|].
      cbn [List.app]. apply Permutation.Permutation_middle. }
  destruct (H [] (Sorted.SSorted_nil _)) as [Hp Hs].
  split; [exact Hp|exact Hs].
Qed.

(** X10.  [onConnect] returns, sends one [ready] frame that carries the state
    it leaves, and writes no row. With messages in memory it changes nothing
    and does not read the table; with none it loads every row of the table,
    once each, by ascending timestamp, and renews the expiry. *)
Theorem onConnect_ready (a : Agent) :
  let a' := fst (onConnect world a) in
  snd (onConnect world a) = Return tt
  /\ sent a' = (sent a ++ [Ready (state a')])%list
  /\ rows a' = rows a
  /\ (messages (state a) <> [] ->
      state a' = state a /\ clock_reads a' = clock_reads a)
  /\ (messages (state a) = [] ->
      Permutation.Permutation (messages (state a')) (rows a)
      /\ Sorted.StronglySorted (fun x y => (ts x <= ts y)%Z)
           (messages (state a'))
      /\ model (state a') = model (state a)
      /\ createdAt (state a') = createdAt (state a)
      /\ expiresAt (state a') = (now world (clock_reads a) + DAY)%Z).
Proof.
  cbv zeta. unfold onConnect. step_by_step.
  destruct (messages (state a)) as [|m ms] eqn:E; cbn.
  - repeat (split; [reflexivity|]).
    split; [intros H; now destruct H|].
    intros _. destruct (order_by_ts_spec (rows a)) as [Hp Hs].
    repeat split; assumption.
  - repeat (split; [reflexivity|]).
    split; [intros _; split; reflexivity|discriminate].
Qed.

(** ** The frames of a tool *)

Lemma steps_keep_running (tool : string) (msgs : list string) :
  fold_left advance (map (fun msg => Tool tool step (Some msg) NoResult) msgs)
            (Some (Running tool))
  = Some (Running tool).
Proof.
  induction msgs as [|msg msgs IH]; [reflexivity|].
  cbn [map fold_left advance]. now rewrite String.eqb_refl.
Qed.

Lemma deltas_do_not_count (ds : list string) (phase : Phase) :
  fold_left advance (map Delta ds) (Some phase) = Some phase.
Proof.
  induction ds as [|d ds IH]; [reflexivity|].
  cbn [map fold_left advance]. now destruct phase.
Qed.

Lemma streamSummary_orderly (userText : string)
      (result : Weather.WeatherResult) (a : Agent) :
  exists new,
    sent (fst (streamSummary world userText result a)) = (sent a ++ new)%list
    /\ (forall phase, fold_left advance new (Some phase) = Some phase).
Proof.
  unfold streamSummary.
  destruct result as [place units daily notes|err].
  - destruct (firstn _ daily).
    + exists []. step_by_step. split; [now rewrite app_nil_r|reflexivity].
    + eexists. step_by_step. rewrite <- app_assoc.
      split; [reflexivity|]. intros phase. now destruct phase.
  - exists []. step_by_step. split; [now rewrite app_nil_r|reflexivity].
Qed.

Lemma bind_returns {A B} (m : Act A) (k : A -> Act B) (a a1 : Agent) (x : A) :
  m a = (a1, Return x) -> bind m k a = k x a1.
Proof.
  intros H. unfold bind. now rewrite H.
Qed.

Lemma weather_turn_orderly (userText : string) (args : value) :
  orderly (weather_turn world userText args).
Proof.
  intros [nm st rws snt clk]. unfold weather_turn. cbv zeta.
  destruct (Weather.getWeather (net world) args) as [p u d n|err] eqn:E.
  - do 5 (erewrite bind_returns by (run_steps; reflexivity)).
    match goal with
    | |- context [streamSummary world userText ?res ?x] =>
        destruct (streamSummary_orderly userText res x) as (new & Hnew & Hph)
    end.
    cbn [sent] in Hnew.
    eexists _, Finished. rewrite Hnew. cbn [sent]. rewrite <- !app_assoc.
    split; [reflexivity|]. split; [|discriminate].
    unfold protocol. cbn [List.app fold_left advance String.eqb Ascii.eqb
                          Bool.eqb andb succeeded Weather.w_ok].
    apply Hph.
  - run_steps. eexists _, Finished. rewrite <- !app_assoc.
    split; [reflexivity|]. split; [reflexivity|discriminate].
Qed.

Lemma screenshot_with_orderly (userText target : string)
      (args : Capture.ScreenshotArgs) :
  orderly (screenshot_with world userText target args).
Proof.
  intros [nm st rws snt clk]. unfold screenshot_with. cbv zeta.
  do 3 (erewrite bind_returns by (run_steps; reflexivity)).
  unfold run_capture.
  destruct (Capture.captureScreenshot _ _ _ _) as [run [[p|err code]|e]].
  - run_steps. eexists _, Finished. rewrite <- !app_assoc.
    split; [reflexivity|]. split; [|discriminate].
    unfold protocol. cbn [List.app fold_left advance].
    rewrite fold_left_app, steps_keep_running. reflexivity.
  - run_steps. eexists _, Finished. rewrite <- !app_assoc.
    split; [reflexivity|]. split; [|discriminate].
    unfold protocol. cbn [List.app fold_left advance].
    rewrite fold_left_app, steps_keep_running. reflexivity.
  - run_steps. eexists _, (Running "screenshot"). rewrite <- !app_assoc.
    split; [reflexivity|]. split; [|intros _ _; now exists e].
    unfold protocol. cbn [List.app fold_left advance].
    apply steps_keep_running.
Qed.

Lemma pdf_with_orderly (userText target : string) (args : Capture.PdfArgs) :
  orderly (pdf_with world userText target args).
Proof.
  intros [nm st rws snt clk]. unfold pdf_with. cbv zeta.
  do 3 (erewrite bind_returns by (run_steps; reflexivity)).
  unfold run_capture.
  destruct (Capture.convertToPdf _ _ _ _) as [run [[p|err code]|e]].
  - run_steps. eexists _, Finished. rewrite <- !app_assoc.
    split; [reflexivity|]. split; [|discriminate].
    unfold protocol. cbn [List.app fold_left advance].
    rewrite fold_left_app, steps_keep_running. reflexivity.
  - run_steps. eexists _, Finished. rewrite <- !app_assoc.
    split; [reflexivity|]. split; [|discriminate].
    unfold protocol. cbn [List.app fold_left advance].
    rewrite fold_left_app, steps_keep_running. reflexivity.
  - run_steps. eexists _, (Running "convertToPdf"). rewrite <- !app_assoc.
    split; [reflexivity|]. split; [|intros _ _; now exists e].
    unfold protocol. cbn [List.app fold_left advance].
    apply steps_keep_running.
Qed.

Lemma streamAssistant_orderly (history : list ChatMessage) :
  orderly (streamAssistant world history).
Proof.
  intros a. unfold streamAssistant. unfold bind at 1. unfold getState at 1.
  destruct (AI_run world _ _) as [[out|stream]|e].
  - step_by_step. eexists _, Idle. split; [reflexivity|].
    split; [reflexivity|discriminate].
  - destruct (failure stream); step_by_step; eexists _, Idle;
      rewrite <- app_assoc; (split; [reflexivity|]);
      (split; [|discriminate]); unfold protocol;
      now rewrite fold_left_app, deltas_do_not_count.
  - step_by_step. eexists _, Idle. split; [reflexivity|].
    split; [reflexivity|discriminate].
Qed.

(** X11.  Within a chat turn the frames of a tool keep to this order: one
    [started], then [step] frames, then one [done] that carries a successful
    result, or one [error] that carries none; at most one tool runs in a turn,
    and every frame of it bears its name. A tool is left without its last
    frame only when the handler throws. *)
Theorem tool_frames_are_orderly (text : value) (a : Agent) :
  exists new phase,
    sent (fst (chat world text a)) = (sent a ++ new)%list
    /\ protocol new = Some phase
    /\ (forall t, phase = Running t ->
                  exists e, snd (chat world text a) = Throw e).
Proof.
  rewrite chat_respond.
  destruct (Weather.call_trim _ _) as [userText|e].
  2: { exists [], Idle. rewrite app_nil_r. repeat split. discriminate. }
  destruct (JS.truthy userText).
  2: { exists [], Idle. rewrite app_nil_r. repeat split. discriminate. }
  set (a1 := fst (remember_user world userText a)).
  assert (Hsent : sent a1 = sent a) by reflexivity.
  rewrite <- Hsent. clearbody a1.
  destruct (PlannerFacts.planner_returns world (history_of (state a1))
                                         userText a1) as (res & Hres).
  assert (E : respond world userText a1
              = match res with
                | Some args => weather_turn world userText args
                | None =>
                    if RegExp.test ssRe userText
                    then screenshot_turn world userText
                    else if RegExp.test pdfRe userText
                         then pdf_turn world userText
                         else streamAssistant world (history_of (state a1))
                end a1).
  { unfold respond, bind, getState. now rewrite Hres. }
  rewrite E. clear E Hres.
  destruct res as [args|]; [apply weather_turn_orderly|].
  destruct (RegExp.test ssRe userText); [apply screenshot_with_orderly|].
  destruct (RegExp.test pdfRe userText); [apply pdf_with_orderly|].
  apply streamAssistant_orderly.
Qed.

(** ** The summary of a capture *)

(** X12.  The summary of a capture is the deterministic fallback whenever the
    model gives no usable text: when the model id is not a non-empty string
    (the binding is then not called at all), when the call throws, and when
    the reply is an object whose [response], [output] and [text] hold no text,
    or only whitespace. A reply that is a string is returned as it is. For a
    failed capture the fallback names the step and the code. *)
Theorem summary_falls_back (modelId : value) (userQuery : string)
        (tool : CaptureTool) (encoded : value) (fb : string) :
  let summary := summarizeToolOutcome world modelId userQuery tool encoded fb in
  let asked m :=
    AI_run world (Str m)
      (SummaryInput
         [ mkChat "system" summary_system;
           mkChat "user"
             ("User request:" ++ LF ++ userQuery ++ LF ++ LF
              ++ "Tool: " ++ CaptureTool_toString tool ++ LF ++ LF
              ++ "Result JSON (truncated):" ++ LF
              ++ take_chars 1800 (JSON_stringify encoded)) ]) in
  ((forall m, modelId = Str m -> m = "") -> summary = fb)
  /\ (forall m e, modelId = Str m -> m <> "" -> asked m = Throw e ->
                  summary = fb)
  /\ (forall m text, modelId = Str m -> m <> "" ->
                     asked m = Return (OutValue (Str text)) -> summary = text)
  /\ (forall m fields txt,
         modelId = Str m -> m <> "" ->
         asked m = Return (OutValue (Obj fields)) ->
         or_value (get (Obj fields) "response")
           (or_value (get (Obj fields) "output")
              (or_value (get (Obj fields) "text") (Str ""))) = Str txt ->
         summary = if JS.truthy (trim txt) then trim txt else fb)
  /\ (forall err code,
         fallback_screenshot T_screenshot (Capture.Failed err code)
         = "The screenshot step failed ("
             ++ Capture.ToolErrorCode_toString code
             ++ "). You can retry with a longer timeout or a different URL."
         /\ fallback_pdf T_convertToPdf (Capture.Failed err code)
            = "The PDF step failed ("
                ++ Capture.ToolErrorCode_toString code
                ++ "). You can retry with a longer timeout or a different URL.").
Proof.
  cbv zeta. unfold summarizeToolOutcome.
  split; [|split; [|split; [|split]]].
  - intros H. destruct modelId; try reflexivity.
    now rewrite (H s eq_refl).
  - intros m e -> Hm Hask. apply JSFacts.truthy_true in Hm.
    rewrite Hm. cbn [negb]. now rewrite Hask.
  - intros m text -> Hm Hask. apply JSFacts.truthy_true in Hm.
    rewrite Hm. cbn [negb]. now rewrite Hask.
  - intros m fields txt -> Hm Hask Htxt. apply JSFacts.truthy_true in Hm.
    rewrite Hm. cbn [negb]. now rewrite Hask, Htxt.
  - intros err code. split; destruct code; reflexivity.
Qed.

End Invariants.

End ControllerFacts.

(* ================================================================== *)
(** * The forecast tool *)
(* ================================================================== *)

Module WeatherFacts.

Import Weather.
Local Open Scope string_scope.

Section Facts.

Context {R : Runtime}.

(** ** Places *)

Lemma prop_get (v : value) (k : string) :
  v <> Undefined -> v <> Null -> prop v k = Return (get v k).
Proof. intros H1 H2. destruct v; try reflexivity; contradiction. Qed.

Lemma prop_number (v : value) (k : string) :
  is_number (get v k) = true -> prop v k = Return (get v k).
Proof. intros H. destruct v; try reflexivity; discriminate H. Qed.

(** X13.  Without a pair of numeric coordinates and without a location that
    holds more than whitespace, the tool reports that it needs a place. It
    does so on every network: no request is made. *)
Theorem forecast_needs_a_place (net : Net) (args : value) (loc : string) :
  args <> Undefined -> args <> Null ->
  is_number (get args "latitude") && is_number (get args "longitude") = false ->
  nullish (get args "location") (Str "") = Str loc ->
  Blank loc ->
  getWeather net args = WErr "Please provide a city/location I can find.".
Proof.
  intros Hdef Hnull Hnum Hloc Hblank.
  unfold getWeather, getWeather_body, geocodeIfNeeded.
  rewrite (prop_get "latitude" Hdef Hnull). cbn [bindc].
  rewrite Hnum, Hloc. cbn [call_trim bindc].
  now rewrite (JSFacts.trim_blank Hblank).
Qed.

(** Arguments that are [null] or [undefined] make the first read of the
    tool throw; the text of that TypeError is what the tool reports. *)
Lemma forecast_without_arguments (net : Net) :
  getWeather net Undefined = WErr (cannot_read "undefined" "latitude")
  /\ getWeather net Null = WErr (cannot_read "null" "latitude").
Proof. split; reflexivity. Qed.

(** X14.  With numeric coordinates the geocoder is not asked: the result
    depends on the network only through the answers of the forecast endpoint.
    A successful result carries the coordinates as given, and as its name the
    location of the arguments, or "location" when there is none. *)
Theorem coordinates_skip_the_geocoder (net1 net2 : Net) (args : value) :
  is_number (get args "latitude") = true ->
  is_number (get args "longitude") = true ->
  (forall req, base req = "https://api.open-meteo.com/v1/forecast" ->
               fetch net1 req = fetch net2 req) ->
  getWeather net1 args = getWeather net2 args
  /\ forall p u d n,
       getWeather net1 args = WOk p u d n ->
       lat p = get args "latitude" /\ lon p = get args "longitude"
       /\ name p = nullish (get args "location") (Str "location")
       /\ region p = Undefined /\ country p = Undefined.
Proof.
  intros Hlat Hlon Hsame.
  unfold getWeather, getWeather_body, geocodeIfNeeded.
  rewrite (prop_number _ _ Hlat). cbn [bindc].
  rewrite Hlat, Hlon. cbn [andb bindc g_lat g_lon g_name g_region g_country].
  rewrite <- Hsame by reflexivity.
  split; [reflexivity|].
  intros p u d n.
  destruct (fetch net1 _) as [r|e]; cbn [bindc]; [|discriminate].
  destruct (resp_ok r); cbn [negb]; [|discriminate].
  destruct (json r) as [j|e]; cbn [bindc]; [|discriminate].
  intros H. injection H as <- _ _ _. repeat split.
Qed.

(** ** Failures *)

(** X15.  With the place known, every failure of the forecast request comes
    back as the failure variant: the message of what [fetch] or [json] threw
    ("Unknown error" when it has none), or the status of a response that is
    not ok. *)
Theorem forecast_failures_are_reported (net : Net) (args : value) :
  is_number (get args "latitude") = true ->
  is_number (get args "longitude") = true ->
  let req := buildForecastUrl (get args "latitude") (get args "longitude")
               (get args "days") (asISODate (get args "startDate"))
               (asISODate (get args "endDate")) (get args "units") in
  (forall e, fetch net req = Throw e ->
             getWeather net args = WErr (or_else (message e) "Unknown error"))
  /\ (forall r, fetch net req = Return r -> resp_ok r = false ->
                getWeather net args
                = WErr ("Weather API error (" ++ Number_toString (status r) ++ ")"))
  /\ (forall r e, fetch net req = Return r -> resp_ok r = true ->
                  json r = Throw e ->
                  getWeather net args
                  = WErr (or_else (message e) "Unknown error")).
Proof.
  intros Hlat Hlon req.
  unfold getWeather, getWeather_body, geocodeIfNeeded.
  rewrite (prop_number _ _ Hlat). cbn [bindc].
  rewrite Hlat, Hlon. cbn [andb bindc g_lat g_lon g_name g_region g_country].
  fold req.
  split; [|split].
  - intros e ->. reflexivity.
  - intros r H1 H2. rewrite H1. cbn [bindc]. rewrite H2. reflexivity.
  - intros r e H1 H2 H3. rewrite H1. cbn [bindc]. rewrite H2. cbn [negb].
    rewrite H3. reflexivity.
Qed.

(** ** The request *)

(** [clamp] into a range, by cases. *)
Lemma clamp_cases (v : number) :
  match v with
  | NaN => clamp v (Fin 1) (Fin 16) = NaN
  | PosInf => clamp v (Fin 1) (Fin 16) = Fin 16
  | NegInf => clamp v (Fin 1) (Fin 16) = Fin 1
  | Fin q => (q <= 1 -> clamp v (Fin 1) (Fin 16) = Fin 1)
             /\ (16 <= q -> clamp v (Fin 1) (Fin 16) = Fin 16)
             /\ (1 < q -> q < 16 -> clamp v (Fin 1) (Fin 16) = Fin q)
  end.
Proof.
  destruct v as [| | |q]; try reflexivity.
  unfold clamp, num_max, num_min. cbn [gt].
  destruct (Qle_bool q 1) eqn:E1; cbn [negb].
  - apply Qle_bool_iff in E1.
    replace (Qle_bool 16 1) with false by reflexivity. cbn [negb].
    split; [reflexivity|]. split.
    + intros H. exfalso. apply (Qle_not_lt _ _ (Qle_trans _ _ _ H E1)).
      reflexivity.
    + intros H. exfalso. now apply (Qle_not_lt _ _ E1).
  - assert (H1 : 1 < q).
    { apply Qnot_le_lt. intros H. apply Qle_bool_iff in H. congruence. }
    destruct (Qle_bool 16 q) eqn:E2; cbn [negb].
    + apply Qle_bool_iff in E2. split; [|split].
      * intros H. exfalso. now apply (Qle_not_lt _ _ H).
      * reflexivity.
      * intros _ H. exfalso. now apply (Qle_not_lt _ _ E2).
    + split; [|split].
      * intros H. exfalso. now apply (Qle_not_lt _ _ H).
      * intros H. apply Qle_bool_iff in H. congruence.
      * reflexivity.
Qed.

(** X16.  The request for the forecast names its days in one way only. When a
    start and an end date are both given it carries [start_date] and
    [end_date]. Otherwise it carries one [forecast_days]: the number of days
    asked for, 7 when none is, brought into the range 1..16 - 1 below the
    range, 16 above it, the number itself within it. A number of days that is
    NaN is passed on as NaN. *)
Theorem forecast_days_are_clamped (lat lon days start end_ units : value) :
  let ps := params (buildForecastUrl lat lon days start end_ units) in
  let asked := match days with
               | Undefined | Null => Fin 7
               | Num n => n
               | _ => Number_of days
               end in
  (toBoolean start && toBoolean end_ = true ->
   In ("start_date", String_of start) ps
   /\ In ("end_date", String_of end_) ps
   /\ forall v, ~ In ("forecast_days", v) ps)
  /\ (toBoolean start && toBoolean end_ = false ->
      (forall v, ~ In ("start_date", v) ps /\ ~ In ("end_date", v) ps)
      /\ exists n,
           (forall v, In ("forecast_days", v) ps <-> v = String_of (Num n))
           /\ match asked with
              | NaN => n = NaN
              | PosInf => n = Fin 16
              | NegInf => n = Fin 1
              | Fin q => (q <= 1 -> n = Fin 1)
                         /\ (16 <= q -> n = Fin 16)
                         /\ (1 < q -> q < 16 -> n = Fin q)
              end).
Proof.
  cbv zeta. unfold buildForecastUrl. cbn [params].
  split; intros Hse; rewrite Hse.
  - split; [|split].
    + rewrite !in_app_iff. cbn. tauto.
    + rewrite !in_app_iff. cbn. tauto.
    + intros v. rewrite !in_app_iff. cbn.
      destruct (is_str units "imperial"); cbn;
        intuition discriminate.
  - split.
    + intros v. rewrite !in_app_iff. cbn.
      destruct (is_str units "imperial"); cbn;
        intuition discriminate.
    + exists (clamp (ToNumber (nullish days (Num (Fin 7)))) (Fin 1) (Fin 16)).
      split.
      * intros v. rewrite !in_app_iff. cbn.
        destruct (is_str units "imperial"); cbn; split.
        all: try (intros ->; tauto).
        all: intros H;
          repeat (destruct H as [H|H]; try discriminate H; try tauto);
          try (now injection H as <-).
      * assert (Hasked : ToNumber (nullish days (Num (Fin 7)))
                         = match days with
                           | Undefined | Null => Fin 7
                           | Num n => n
                           | _ => Number_of days
                           end) by now destruct days.
        rewrite Hasked. apply clamp_cases.
Qed.

(** X17.  The labels of a result are the Fahrenheit and inch labels exactly
    when the request asks for Fahrenheit and inches, and the Celsius and
    millimetre labels otherwise. *)
Theorem labels_match_request (lat lon days start end_ units : value) :
  let ps := params (buildForecastUrl lat lon days start end_ units) in
  let labels := unitLabels (nullish units (Str "auto")) in
  (In ("temperature_unit", "fahrenheit") ps
   /\ In ("precipitation_unit", "inch") ps
   /\ labels = mkUnits "°F" "in")
  \/ ((forall v, ~ In ("temperature_unit", v) ps)
      /\ (forall v, ~ In ("precipitation_unit", v) ps)
      /\ labels = mkUnits "°C" "mm").
Proof.
  cbv zeta. unfold buildForecastUrl, unitLabels. cbn [params].
  destruct (is_str units "imperial") eqn:E.
  - left. apply JSFacts.is_str_spec in E. subst units. cbn [nullish is_str].
    rewrite !in_app_iff. cbn. tauto.
  - right.
    assert (E' : is_str (nullish units (Str "auto")) "imperial" = false)
      by (destruct units; cbn in *; congruence).
    rewrite E'.
    split; [|split; [|reflexivity]].
    all: intros v; rewrite !in_app_iff; cbn.
    all: destruct (toBoolean start && toBoolean end_); cbn;
      intuition discriminate.
Qed.

(** ** Dates *)

Lemma chars_cons (c : ascii) (r : string) :
  RegExp.width c = 1%nat ->
  RegExp.chars (String c r) = String c "" :: RegExp.chars r.
Proof. unfold RegExp.chars. cbn. now intros ->. Qed.

Lemma digit_width (c : ascii) : Observed.digit c = true -> RegExp.width c = 1%nat.
Proof.
  unfold Observed.digit, RegExp.width, RegExp.byte_in.
  intros H. apply andb_true_iff in H. destruct H as [H1 H2].
  apply Nat.leb_le in H1, H2.
  repeat match goal with
         | |- context [(?a <=? ?b)%nat] => destruct (Nat.leb_spec a b); try lia
         end; reflexivity.
Qed.

Lemma step_digit {X} (rest : RegExp.re) (prev : option string) (c : ascii)
      (r : string) (k : option string -> list string -> option X) :
  RegExp.run (RegExp.Seq RegExp.d_ rest) prev (RegExp.chars (String c r)) k
  = if Observed.digit c
    then RegExp.run rest (Some (String c "")) (RegExp.chars r) k
    else None.
Proof.
  destruct (Observed.digit c) eqn:E.
  - rewrite chars_cons by now apply digit_width.
    cbn [RegExp.run RegExp.d_]. unfold Observed.digit in E. now rewrite E.
  - unfold RegExp.chars. cbn [String.length RegExp.chars_fuel].
    destruct (RegExp.take _ r) as [a z]. cbn [RegExp.run RegExp.d_].
    unfold Observed.digit in E. destruct a; [now rewrite E|reflexivity].
Qed.

Lemma last_digit {X} (prev : option string) (c : ascii) (r : string)
      (k : option string -> list string -> option X) :
  RegExp.run RegExp.d_ prev (RegExp.chars (String c r)) k
  = if Observed.digit c then k (Some (String c "")) (RegExp.chars r) else None.
Proof.
  destruct (Observed.digit c) eqn:E.
  - rewrite chars_cons by now apply digit_width.
    cbn [RegExp.run RegExp.d_]. unfold Observed.digit in E. now rewrite E.
  - unfold RegExp.chars. cbn [String.length RegExp.chars_fuel].
    destruct (RegExp.take _ r) as [a z]. cbn [RegExp.run RegExp.d_].
    unfold Observed.digit in E. destruct a; [now rewrite E|reflexivity].
Qed.

Lemma lower_dash (c : ascii) :
  (String (lower_ascii c) "" =? String (lower_ascii "-") "")%string
  = Observed.dash c.
Proof.
  destruct c as [[] [] [] [] [] [] [] []]; reflexivity.
Qed.

Lemma step_dash {X} (rest : RegExp.re) (prev : option string) (c : ascii)
      (r : string) (k : option string -> list string -> option X) :
  RegExp.run (RegExp.Seq (RegExp.ci "-") rest) prev
             (RegExp.chars (String c r)) k
  = if Observed.dash c
    then RegExp.run rest (Some (String c "")) (RegExp.chars r) k
    else None.
Proof.
  destruct (Observed.dash c) eqn:E.
  - unfold Observed.dash in E. apply Ascii.eqb_eq in E. subst c.
    rewrite chars_cons by reflexivity. reflexivity.
  - unfold RegExp.chars. cbn [String.length RegExp.chars_fuel].
    destruct (RegExp.take _ r) as [a z]. cbn [RegExp.run RegExp.ci].
    destruct a as [|c' a].
    + cbn [toLowerCase]. now rewrite lower_dash, E.
    + cbn [toLowerCase]. cbn [String.eqb].
      destruct (Ascii.eqb _ _); reflexivity.
Qed.

Lemma test_whole_iso (s : string) :
  RegExp.test_whole isoRe s = Observed.iso_shape s.
Proof.
  unfold RegExp.test_whole, isoRe, Observed.iso_shape.
  do 4 (destruct s as [|? s]; [reflexivity|];
        rewrite step_digit; cbn [Observed.shaped];
        destruct (Observed.digit _); [cbn [andb]|reflexivity]).
  destruct s as [|? s]; [reflexivity|].
  rewrite step_dash; cbn [Observed.shaped];
    destruct (Observed.dash _); [cbn [andb]|reflexivity].
  do 2 (destruct s as [|? s]; [reflexivity|];
        rewrite step_digit; cbn [Observed.shaped];
        destruct (Observed.digit _); [cbn [andb]|reflexivity]).
  destruct s as [|? s]; [reflexivity|].
  rewrite step_dash; cbn [Observed.shaped];
    destruct (Observed.dash _); [cbn [andb]|reflexivity].
  destruct s as [|? s]; [reflexivity|];
    rewrite step_digit; cbn [Observed.shaped];
    destruct (Observed.digit _); [cbn [andb]|reflexivity].
  destruct s as [|? s]; [reflexivity|].
  rewrite last_digit; cbn [Observed.shaped];
    destruct (Observed.digit _); [cbn [andb]|reflexivity].
  destruct s as [|c s]; [reflexivity|].
  unfold RegExp.chars. cbn [String.length RegExp.chars_fuel].
  now destruct (RegExp.take _ s).
Qed.

(** X18.  [asISODate] lets a string through, unchanged, exactly when it is
    made of four digits, a dash, two digits, a dash and two digits; anything
    else, the empty string included, becomes [undefined]. The digits are not
    read as a date: 0000-00-00 and 9999-99-99 pass. *)
Theorem asISODate_shape (s : string) :
  String_of (Str s) = s ->
  asISODate (Str s) = if Observed.iso_shape s then Str s else Undefined.
Proof.
  intros Hs. unfold asISODate. rewrite Hs, test_whole_iso.
  cbn [toBoolean]. destruct s; reflexivity.
Qed.


(** X19.  A response is shaped into one row per entry of [daily.time],
    whatever the other arrays hold. A series that is missing, or is not an
    array, gives every row the default of its field: NaN for the temperatures,
    0 for the weather code and the precipitation figures. *)
Theorem one_row_per_date (j : value) :
  let daily := get j "daily" in
  let missing k := match get daily k with Arr _ => False | _ => True end in
  List.length (shape j) = List.length (array_or_empty (get daily "time"))
  /\ (missing "temperature_2m_max" ->
      Forall (fun d => tMax d = NaN) (shape j))
  /\ (missing "temperature_2m_min" ->
      Forall (fun d => tMin d = NaN) (shape j))
  /\ (missing "weathercode" ->
      Forall (fun d => code d = Fin 0) (shape j))
  /\ (missing "precipitation_sum" ->
      Forall (fun d => precipMm d = Fin 0) (shape j))
  /\ (missing "precipitation_probability_max" ->
      Forall (fun d => pop d = Fin 0) (shape j)).
Proof.
  cbv zeta. unfold shape.
  split; [now rewrite length_map, length_seq|].
  repeat split; intros Hmiss; apply Forall_map, Forall_forall; intros i _;
    cbn [tMax tMin code precipMm pop];
    match goal with
    | |- context [array_or_empty (get ?d ?k)] =>
        match type of Hmiss with
        | context [get d k] => destruct (get d k); try (now destruct Hmiss)
        end
    end;
    unfold at_; cbn [array_or_empty]; now destruct i.
Qed.

End Facts.

End WeatherFacts.

(* ================================================================== *)
(** * What the capture pipelines guarantee *)
(* ================================================================== *)

Module PipelineFacts.

Import Capture.
Import Claimed.
Import CaptureLogic.
Import CaptureTactics.
Local Open Scope string_scope.

Section Facts.

Context {U : UrlApi}.
Variable env : Env.

(** ** The rules of [ensures] *)

Lemma ensures_ret {A} (P : Run -> Prop) (x : A) (Q : Run -> A -> Prop) :
  (forall r, P r -> Q r x) -> ensures P (ret x) Q.
Proof. intros H r Hr r' y E. injection E as <- <-. now apply H. Qed.

Lemma ensures_bind {A B} (P : Run -> Prop) (m : M A) (k : A -> M B)
      (Q1 : Run -> A -> Prop) (Q : Run -> B -> Prop) :
  ensures P m Q1 -> (forall x, ensures (fun r => Q1 r x) (k x) Q) ->
  ensures P (bind m k) Q.
Proof.
  intros Hm Hk r Hr r' y E. unfold bind in E.
  destruct (m r) as [r1 [x|e]] eqn:Em; [|discriminate].
  eapply Hk; [|exact E]. eapply Hm; eassumption.
Qed.

Lemma ensures_weaken {A} (P P' : Run -> Prop) (m : M A)
      (Q Q' : Run -> A -> Prop) :
  ensures P' m Q' -> (forall r, P r -> P' r) ->
  (forall r x, Q' r x -> Q r x) -> ensures P m Q.
Proof. intros H HP HQ r Hr r' x E. apply HQ. eapply H; eauto. Qed.

Lemma ensures_lift {A} (P : Run -> Prop) (c : completion A) :
  ensures P (lift c) (fun r x => P r /\ c = Return x).
Proof. intros r Hr r' x E. injection E as <- ->. now split. Qed.

Lemma ensures_try_catch {A} (P : Run -> Prop) (m : M A) (h : Error -> M A)
      (Q : Run -> A -> Prop) :
  ensures P m Q -> (forall e, ensures (fun _ => True) (h e) Q) ->
  ensures P (try_catch m h) Q.
Proof.
  intros Hm Hh r Hr r' x E. unfold try_catch in E.
  destruct (m r) as [r1 [y|e]] eqn:Em.
  - injection E as <- <-. eapply Hm; eassumption.
  - eapply Hh; [exact I|exact E].
Qed.

Lemma ensures_finally {A} (P : Run -> Prop) (m : M A) (f : Run -> Run)
      (Q Q' : Run -> A -> Prop) :
  ensures P m Q' -> (forall r x, Q' r x -> Q (f r) x) ->
  ensures P (finally m f) Q.
Proof.
  intros Hm Hf r Hr r' x E. unfold finally in E.
  destruct (m r) as [r1 c] eqn:Em. injection E as <- ->.
  apply Hf. eapply Hm; eassumption.
Qed.

(** ** The messages of the steps *)

Lemma said_emit (l : list string) (msg : string) :
  ensures (said l) (emit msg) (fun r _ => said (l ++ [msg])%list r).
Proof.
  intros r Hr r' x E. injection E as <- _. unfold said in *. cbn.
  now rewrite Hr.
Qed.

Lemma navigated_emit (want : WaitUntil) (tail : list string) (msg : string) :
  ensures (navigated want tail) (emit msg)
          (fun r _ => navigated want (tail ++ [msg])%list r).
Proof.
  intros r [retried Hr] r' x E. injection E as <- _. exists retried. cbn.
  rewrite Hr. now rewrite <- !app_assoc.
Qed.

Lemma silent_ensures {A} (P : list string -> Prop) (m : M A) :
  silent m ->
  ensures (fun r => P (emitted r)) m (fun r _ => P (emitted r)).
Proof.
  intros Hm r Hr r' x E. specialize (Hm r). rewrite E in Hm. cbn in Hm.
  now rewrite Hm.
Qed.

Lemma silent_lift {A} (c : completion A) : silent (lift c).
Proof. intros r. reflexivity. Qed.

Lemma silent_bind {A B} (m : M A) (k : A -> M B) :
  silent m -> (forall x, silent (k x)) -> silent (bind m k).
Proof.
  intros Hm Hk r. unfold bind. specialize (Hm r).
  destruct (m r) as [r1 [x|e]]; cbn [fst] in *.
  - now rewrite Hk.
  - exact Hm.
Qed.

Lemma silent_page_setup (viewport : Viewport) (timeout : number) :
  silent (page_setup env viewport timeout).
Proof.
  unfold page_setup.
  repeat (apply silent_bind; [apply silent_lift|intros _]).
  apply silent_lift.
Qed.

Lemma silent_read_title : silent (read_title env).
Proof.
  intros r. unfold read_title, try_catch, bind, lift, ret.
  now destruct (title env).
Qed.

Lemma navigate_says (timeout : number) (want : WaitUntil) (url0 : URL) (r : Run) :
  emitted (fst (navigate env timeout want url0 r)) = emitted r
  \/ emitted (fst (navigate env timeout want url0 r))
     = (emitted r ++ ["Retrying with www…"])%list.
Proof.
  unfold navigate, tryGo, bind, ret, attempts_so_far, push_attempt, emit.
  crunch.
  repeat rung.
  all: cbn [fst emitted]; tauto.
Qed.

Lemma navigate_after (timeout : number) (want shown : WaitUntil) (url0 : URL) :
  ensures (said ["Launching browser…";
                 "Navigating (" ++ WaitUntil_toString shown ++ ")…"])
          (navigate env timeout want url0)
          (fun r _ => navigated shown [] r).
Proof.
  intros r Hr r' x E.
  destruct (navigate_says timeout want url0 r) as [H|H];
    rewrite E in H; cbn [fst] in H; unfold said in Hr; rewrite Hr in H.
  - exists false. now rewrite H.
  - exists true. now rewrite H.
Qed.

(** ** Stepping through a pipeline *)

Lemma after_lift {A B} (P : Run -> Prop) (c : completion A) (k : A -> M B)
      (Q : Run -> B -> Prop) :
  (forall x, c = Return x -> ensures P (k x) Q) ->
  ensures P (bind (lift c) k) Q.
Proof.
  intros H r Hr r' y E. unfold bind, lift in E.
  destruct c as [x|e]; [|discriminate].
  eapply H; [reflexivity|exact Hr|exact E].
Qed.

Lemma after_emit {B} (l : list string) (msg : string) (k : M B)
      (Q : Run -> B -> Prop) :
  ensures (said (l ++ [msg])%list) k Q ->
  ensures (said l) (emit msg ;;; k) Q.
Proof.
  intros H. eapply ensures_bind; [apply said_emit|intros ?; exact H].
Qed.

Lemma after_emit_navigated {B} (want : WaitUntil) (tail : list string)
      (msg : string) (k : M B) (Q : Run -> B -> Prop) :
  ensures (navigated want (tail ++ [msg])%list) k Q ->
  ensures (navigated want tail) (emit msg ;;; k) Q.
Proof.
  intros H. eapply ensures_bind; [apply navigated_emit|intros ?; exact H].
Qed.

Lemma after_silent {A B} (l : list string) (m : M A) (k : A -> M B)
      (Q : Run -> B -> Prop) :
  silent m -> (forall x, ensures (said l) (k x) Q) ->
  ensures (said l) (bind m k) Q.
Proof.
  intros Hm H. eapply ensures_bind; [|exact H].
  apply (silent_ensures (fun e => e = l) Hm).
Qed.

Lemma after_silent_navigated {A B} (want : WaitUntil) (tail : list string)
      (m : M A) (k : A -> M B) (Q : Run -> B -> Prop) :
  silent m -> (forall x, ensures (navigated want tail) (k x) Q) ->
  ensures (navigated want tail) (bind m k) Q.
Proof.
  intros Hm H. eapply ensures_bind; [|exact H].
  apply (silent_ensures
           (fun e => exists retried : bool,
                e = (["Launching browser…";
                      ("Navigating (" ++ WaitUntil_toString want ++ ")…")%string]
                     ++ (if retried then ["Retrying with www…"] else [])
                     ++ tail)%list) Hm).
Qed.

Lemma after_navigate {B} (timeout : number) (want shown : WaitUntil) (url0 : URL)
      (k : URL * NavOutcome -> M B) (Q : Run -> B -> Prop) :
  (forall nav, ensures (navigated shown []) (k nav) Q) ->
  ensures (said ["Launching browser…";
                 ("Navigating (" ++ WaitUntil_toString shown ++ ")…")%string])
          (bind (navigate env timeout want url0) k) Q.
Proof.
  intros H. eapply ensures_bind; [apply navigate_after|exact H].
Qed.

Lemma silent_mark_launched : silent mark_launched.
Proof. intros r. reflexivity. Qed.

(** ** The outcome of a call *)

Lemma captureScreenshot_outcome (sid : string) (args : ScreenshotArgs)
      (r' : Run) (res : ScreenshotResult) :
  captureScreenshot env sid args start = (r', Return res) ->
  screenshot_outcome env sid args r' res.
Proof.
  intros E.
  assert (H : ensures (said []) (captureScreenshot env sid args)
                      (screenshot_outcome env sid args)).
  2: { exact (H start eq_refl r' res E). }
  clear E. unfold captureScreenshot.
  destruct (normalizeUrl (ss_url args)) as [url0|] eqn:Hn.
  2: { apply ensures_ret. intros r _. cbn. rewrite Hn. tauto. }
  assert (Hcode : forall code, code <> BAD_URL ->
                    (code = BAD_URL <-> Some url0 = None))
    by (intros code Hc; split; [intros ->; now destruct Hc|discriminate]).
  apply after_emit. cbn [List.app].
  apply after_silent; [apply silent_mark_launched|intros _].
  apply after_lift. intros _ _.
  eapply ensures_finally with (Q' := screenshot_outcome env sid args).
  2: { intros r [p|err code]; cbn; rewrite ?Hn; trivial. }
  apply ensures_try_catch.
  2: { intros e. unfold on_error.
       destruct (includes _ _); apply ensures_ret; intros r _; cbn;
         rewrite Hn; (split; [reflexivity|now apply Hcode]). }
  apply after_silent; [apply silent_page_setup|intros _].
  apply after_emit. cbn [List.app].
  apply after_navigate. intros [url ok].
  destruct (negb (is_true ok)).
  { unfold nav_failure. eapply ensures_bind; [apply navigated_emit|intros ?].
    apply ensures_ret. intros r _. unfold nav_code.
    destruct (is_timeout ok); cbn; rewrite Hn;
      (split; [reflexivity|now apply Hcode]). }
  apply after_emit_navigated. cbn [List.app].
  apply after_silent_navigated; [apply silent_read_title|intros _].
  apply after_emit_navigated. cbn [List.app].
  apply after_lift. intros bytes Hshot.
  apply after_emit_navigated. cbn [List.app].
  apply ensures_try_catch.
  2: { intros e. apply ensures_ret. intros r _. cbn. rewrite Hn.
       split; [reflexivity|now apply Hcode]. }
  apply after_lift. intros [] Hput.
  apply ensures_ret. intros r [retried Hr]. cbn.
  split; [reflexivity|]. split; [exact Hshot|]. split; [exact Hput|].
  exists retried. exact Hr.
Qed.

Lemma convertToPdf_outcome (sid : string) (args : PdfArgs)
      (r' : Run) (res : PdfResult) :
  convertToPdf env sid args start = (r', Return res) ->
  pdf_outcome env sid args r' res.
Proof.
  intros E.
  assert (H : ensures (said []) (convertToPdf env sid args)
                      (pdf_outcome env sid args)).
  2: { exact (H start eq_refl r' res E). }
  clear E. unfold convertToPdf.
  destruct (normalizeUrl (pdf_url args)) as [url0|] eqn:Hn.
  2: { apply ensures_ret. intros r _. cbn. rewrite Hn. tauto. }
  assert (Hcode : forall code, code <> BAD_URL ->
                    (code = BAD_URL <-> Some url0 = None))
    by (intros code Hc; split; [intros ->; now destruct Hc|discriminate]).
  apply after_emit. cbn [List.app].
  apply after_silent; [apply silent_mark_launched|intros _].
  apply after_lift. intros _ _.
  eapply ensures_finally with (Q' := pdf_outcome env sid args).
  2: { intros r [p|err code]; cbn; rewrite ?Hn; trivial. }
  apply ensures_try_catch.
  2: { intros e. unfold on_error.
       destruct (includes _ _); apply ensures_ret; intros r _; cbn;
         rewrite Hn; (split; [reflexivity|now apply Hcode]). }
  apply after_silent; [apply silent_page_setup|intros _].
  apply after_emit. cbn [List.app].
  apply after_navigate. intros [url ok].
  destruct (negb (is_true ok)).
  { unfold nav_failure. eapply ensures_bind; [apply navigated_emit|intros ?].
    apply ensures_ret. intros r _. unfold nav_code.
    destruct (is_timeout ok); cbn; rewrite Hn;
      (split; [reflexivity|now apply Hcode]). }
  apply after_emit_navigated. cbn [List.app].
  apply after_silent_navigated; [apply silent_read_title|intros _].
  apply after_emit_navigated. cbn [List.app].
  apply after_lift. intros bytes Hshot.
  apply after_emit_navigated. cbn [List.app].
  apply ensures_try_catch.
  2: { intros e. apply ensures_ret. intros r _. cbn. rewrite Hn.
       split; [reflexivity|now apply Hcode]. }
  apply after_lift. intros [] Hput.
  apply ensures_ret. intros r [retried Hr]. cbn.
  split; [reflexivity|]. split; [exact Hshot|]. split; [exact Hput|].
  exists retried. exact Hr.
Qed.

(** ** Failures *)

(** X20.  A failed capture never carries the text of what was thrown: its
    error text is the fixed text of its code. The code is BAD_URL exactly when
    the URL did not normalize. *)
Theorem failure_text_follows_code (sid : string) (ss : ScreenshotArgs)
        (pd : PdfArgs) :
  (forall r err code,
      captureScreenshot env sid ss start = (r, Return (Failed err code)) ->
      err = failure_text code
      /\ (code = BAD_URL <-> normalizeUrl (ss_url ss) = None))
  /\ (forall r err code,
         convertToPdf env sid pd start = (r, Return (Failed err code)) ->
         err = failure_text code
         /\ (code = BAD_URL <-> normalizeUrl (pdf_url pd) = None)).
Proof.
  split; intros r err code E.
  - exact (captureScreenshot_outcome _ _ E).
  - exact (convertToPdf_outcome _ _ E).
Qed.

(** ** Successes *)

(** X21.  A capture that reports success has stored what it reports: the
    object was put, without error, under the key of the result, "files/", the
    session id, "/", a fresh UUID and the extension; the link of the result is
    that key behind a slash; the byte count is that of the capture; the source
    is the URL of the page, and a screenshot carries the viewport asked for
    (1280 by 800 when none is). *)
Theorem success_names_a_stored_object (sid : string) (ss : ScreenshotArgs)
        (pd : PdfArgs) :
  (forall r p,
      captureScreenshot env sid ss start = (r, Return (Ok p)) ->
      sso_r2Key p = "files/" ++ sid ++ "/" ++ randomUUID env ++ ".png"
      /\ sso_url p = "/" ++ sso_r2Key p
      /\ sso_contentType p = "image/png"
      /\ put env (sso_r2Key p) (sso_contentType p) = Return tt
      /\ screenshot env (match ss_fullPage ss with Some v => v | None => true end)
         = Return (sso_bytes p)
      /\ sso_sourceUrl p = page_url env
      /\ sso_viewport p = viewport_of (ss_viewport ss)
      /\ sso_width p = width (sso_viewport p)
      /\ sso_height p = height (sso_viewport p))
  /\ (forall r p,
         convertToPdf env sid pd start = (r, Return (Ok p)) ->
         pdo_r2Key p = "files/" ++ sid ++ "/" ++ randomUUID env ++ ".pdf"
         /\ pdo_url p = "/" ++ pdo_r2Key p
         /\ pdo_contentType p = "application/pdf"
         /\ put env (pdo_r2Key p) (pdo_contentType p) = Return tt
         /\ pdo_sourceUrl p = page_url env).
Proof.
  split; intros r p E.
  - destruct (captureScreenshot_outcome _ _ E) as (Hp & Hshot & Hput & _).
    rewrite Hp. cbn. repeat split; assumption.
  - destruct (convertToPdf_outcome _ _ E) as (Hp & Hpdf & Hput & _).
    rewrite Hp. cbn. repeat split; assumption.
Qed.

(** X22.  The progress messages of a capture that succeeds are, in this order:
    "Launching browser…", "Navigating (...)…" with the wait condition asked
    for, "Retrying with www…" if the www host was tried, "Settling…", the
    message of the capture step and "Uploading…". *)
Theorem progress_of_a_success (sid : string) (ss : ScreenshotArgs)
        (pd : PdfArgs) :
  (forall r p,
      captureScreenshot env sid ss start = (r, Return (Ok p)) ->
      exists retried,
        emitted r = progress (want_of (ss_waitUntil ss)) retried
                             "Capturing screenshot…")
  /\ (forall r p,
         convertToPdf env sid pd start = (r, Return (Ok p)) ->
         exists retried,
           emitted r = progress (want_of (pdf_waitUntil pd)) retried
                                "Rendering PDF…").
Proof.
  split; intros r p E.
  - now destruct (captureScreenshot_outcome _ _ E) as (_ & _ & _ & H).
  - now destruct (convertToPdf_outcome _ _ E) as (_ & _ & _ & H).
Qed.

(** ** The browser *)

Lemma steady_ret {A} (x : A) : steady (ret x).
Proof. intros r. now split. Qed.

Lemma steady_lift {A} (c : completion A) : steady (lift c).
Proof. intros r. now split. Qed.

Lemma steady_emit (msg : string) : steady (emit msg).
Proof. intros r. now split. Qed.

Lemma steady_bind {A B} (m : M A) (k : A -> M B) :
  steady m -> (forall x, steady (k x)) -> steady (bind m k).
Proof.
  intros Hm Hk r. unfold bind. specialize (Hm r).
  destruct (m r) as [r1 [x|e]]; cbn [fst] in *; [|exact Hm].
  destruct (Hk x r1) as [H1 H2]. destruct Hm as [H3 H4].
  split; congruence.
Qed.

Lemma steady_try_catch {A} (m : M A) (h : Error -> M A) :
  steady m -> (forall e, steady (h e)) -> steady (try_catch m h).
Proof.
  intros Hm Hh r. unfold try_catch. specialize (Hm r).
  destruct (m r) as [r1 [x|e]]; cbn [fst] in *; [exact Hm|].
  destruct (Hh e r1) as [H1 H2]. destruct Hm as [H3 H4].
  split; congruence.
Qed.

Lemma steady_navigate (timeout : number) (want : WaitUntil) (url0 : URL) :
  steady (navigate env timeout want url0).
Proof.
  intros r.
  destruct (CaptureFacts.navigate_ladder env timeout want url0 r)
    as (atts & url & ok & r1 & Hnav & _ & Hl & Hc & _).
  rewrite Hnav. now split.
Qed.

Lemma steady_page_setup (viewport : Viewport) (timeout : number) :
  steady (page_setup env viewport timeout).
Proof.
  unfold page_setup.
  repeat (apply steady_bind; [apply steady_lift|intros _]).
  apply steady_lift.
Qed.

Lemma steady_on_error {Q} (e : Error) : steady (@on_error Q e).
Proof. unfold on_error. destruct (includes _ _); apply steady_ret. Qed.

(** Past the normalization either pipeline has this form: a browser is
    asked for, and once there is one the work is done within [try], with
    the browser closed in the [finally] clause. *)
Lemma guarded_run {A} (body : M A) (h : Error -> M A) :
  steady body -> (forall e, steady (h e)) ->
  let run := (emit "Launching browser…" ;;; mark_launched ;;;
              lift (launch env) ;;;
              finally (try_catch body h) mark_closed) start in
  launched (fst run) = true
  /\ (closed (fst run) = true <-> launch env = Return tt).
Proof.
  intros Hb Hh. cbv zeta.
  unfold bind; cbn [emit mark_launched lift ret fst].
  destruct (launch env) as [[]|e] eqn:El; unfold finally.
  - match goal with
    | |- context [try_catch ?m ?h ?r] =>
        destruct (@steady_try_catch _ m h Hb Hh r) as [H1 H2];
        destruct (try_catch m h r) as [r1 c]
    end.
    cbn [fst launched closed mark_closed] in *. rewrite H1.
    repeat split.
  - cbn [fst launched closed start]. repeat split; discriminate.
Qed.

Lemma screenshot_browser (sid : string) (ss : ScreenshotArgs) :
  let r := fst (captureScreenshot env sid ss start) in
  (launched r = true <-> normalizeUrl (ss_url ss) <> None)
  /\ (closed r = true <->
      normalizeUrl (ss_url ss) <> None /\ launch env = Return tt).
Proof.
  cbv zeta. unfold captureScreenshot.
  destruct (normalizeUrl (ss_url ss)) as [u|].
  - match goal with
    | |- context [finally (try_catch ?b ?h) mark_closed] =>
        destruct (@guarded_run _ b h) as [H1 H2]
    end.
    + unfold read_title, nav_failure.
      repeat first
        [ apply steady_ret | apply steady_lift | apply steady_emit
        | apply steady_navigate | apply steady_page_setup
        | apply steady_on_error
        | apply steady_try_catch; [|intros ?]
        | apply steady_bind; [|intros ?]
        | match goal with
          | |- steady (let '(_, _) := ?p in _) => destruct p
          | |- steady (if ?c then _ else _) => destruct c
          end ].
    + intros e. apply steady_on_error.
    + split; [split; [discriminate|intros _; exact H1]|].
      split; [intros H; split; [discriminate|now apply H2]|].
      intros [_ H]. now apply H2.
  - cbn. repeat split; try discriminate; try tauto.
Qed.

Lemma pdf_browser (sid : string) (pd : PdfArgs) :
  let r := fst (convertToPdf env sid pd start) in
  (launched r = true <-> normalizeUrl (pdf_url pd) <> None)
  /\ (closed r = true <->
      normalizeUrl (pdf_url pd) <> None /\ launch env = Return tt).
Proof.
  cbv zeta. unfold convertToPdf.
  destruct (normalizeUrl (pdf_url pd)) as [u|].
  - match goal with
    | |- context [finally (try_catch ?b ?h) mark_closed] =>
        destruct (@guarded_run _ b h) as [H1 H2]
    end.
    + unfold read_title, nav_failure.
      repeat first
        [ apply steady_ret | apply steady_lift | apply steady_emit
        | apply steady_navigate | apply steady_page_setup
        | apply steady_on_error
        | apply steady_try_catch; [|intros ?]
        | apply steady_bind; [|intros ?]
        | match goal with
          | |- steady (let '(_, _) := ?p in _) => destruct p
          | |- steady (if ?c then _ else _) => destruct c
          end ].
    + intros e. apply steady_on_error.
    + split; [split; [discriminate|intros _; exact H1]|].
      split; [intros H; split; [discriminate|now apply H2]|].
      intros [_ H]. now apply H2.
  - cbn. repeat split; try discriminate; try tauto.
Qed.

(** X23.  A browser is asked for exactly when the URL normalizes, and a
    browser that was obtained is closed before the call ends, whatever
    happened in between. *)
Theorem browser_is_closed (sid : string) (ss : ScreenshotArgs) (pd : PdfArgs) :
  let r1 := fst (captureScreenshot env sid ss start) in
  let r2 := fst (convertToPdf env sid pd start) in
  (launched r1 = true <-> normalizeUrl (ss_url ss) <> None)
  /\ (closed r1 = true <->
      normalizeUrl (ss_url ss) <> None /\ launch env = Return tt)
  /\ (launched r2 = true <-> normalizeUrl (pdf_url pd) <> None)
  /\ (closed r2 = true <->
      normalizeUrl (pdf_url pd) <> None /\ launch env = Return tt).
Proof.
  cbv zeta.
  destruct (screenshot_browser sid ss) as [H1 H2].
  destruct (pdf_browser sid pd) as [H3 H4].
  split; [exact H1|]. split; [exact H2|]. split; [exact H3|exact H4].
Qed.

(** ** Timeouts *)

(** The timeout of a call, by cases. *)
Lemma clamp_timeout_cases (t : option number) :
  match t with
  | None => clamp_timeout t = Fin 20000
  | Some NaN => clamp_timeout t = NaN
  | Some PosInf => clamp_timeout t = Fin 60000
  | Some NegInf => clamp_timeout t = Fin 1000
  | Some (Fin q) =>
      (q <= 1000 -> clamp_timeout t = Fin 1000)
      /\ (60000 <= q -> clamp_timeout t = Fin 60000)
      /\ (1000 < q -> q < 60000 -> clamp_timeout t = Fin q)
  end.
Proof.
  destruct t as [[| | |q]|]; try reflexivity.
  unfold clamp_timeout, num_max, num_min. cbn [gt].
  destruct (Qle_bool 60000 q) eqn:E1; cbn [negb gt].
  - apply Qle_bool_iff in E1.
    replace (Qle_bool 60000 1000) with false by reflexivity. cbn [negb].
    split; [|split].
    + intros H. exfalso. apply (Qle_not_lt _ _ (Qle_trans _ _ _ E1 H)).
      reflexivity.
    + reflexivity.
    + intros _ H. exfalso. now apply (Qle_not_lt _ _ E1).
  - assert (H1 : q < 60000).
    { apply Qnot_le_lt. intros H. apply Qle_bool_iff in H. congruence. }
    destruct (Qle_bool q 1000) eqn:E2; cbn [negb].
    + apply Qle_bool_iff in E2. split; [|split].
      * reflexivity.
      * intros H. exfalso. now apply (Qle_not_lt _ _ H).
      * intros H. exfalso. now apply (Qle_not_lt _ _ E2).
    + split; [|split].
      * intros H. apply Qle_bool_iff in H. congruence.
      * intros H. exfalso. now apply (Qle_not_lt _ _ H).
      * reflexivity.
Qed.

Lemma clamp_timeout_in_range (t : option number) :
  t <> Some NaN -> in_range (clamp_timeout t) = true.
Proof.
  intros Ht. pose proof (clamp_timeout_cases t) as H.
  destruct t as [[| | |q]|];
    [now destruct Ht|now rewrite H|now rewrite H| |now rewrite H].
  destruct H as (H1 & H2 & H3).
  destruct (Qlt_le_dec 1000 q) as [Hlo|Hlo].
  - destruct (Qlt_le_dec q 60000) as [Hhi|Hhi].
    + rewrite (H3 Hlo Hhi). unfold in_range. cbn [ge].
      apply andb_true_iff. split; apply Qle_bool_iff; now apply Qlt_le_weak.
    + now rewrite (H2 Hhi).
  - now rewrite (H1 Hlo).
Qed.

(** X24.  Unless the timeout a call asks for is NaN, the browser is only given
    timeouts between one second and one minute: 20 seconds when none is asked
    for, the one asked for when it lies in that range, and the nearer end of
    the range otherwise.  A browser that throws on any other timeout, in
    [goto], in [setDefaultNavigationTimeout] or in [pdf], then cannot be told
    apart from the same browser without that check.  A timeout that is NaN
    is handed to the browser as it is. *)
Theorem timeouts_are_bounded (sid : string) (ss : ScreenshotArgs)
        (pd : PdfArgs) (r : Run) :
  (ss_timeoutMs ss <> Some NaN ->
   captureScreenshot (strict env) sid ss r = captureScreenshot env sid ss r)
  /\ (pdf_timeoutMs pd <> Some NaN ->
      convertToPdf (strict env) sid pd r = convertToPdf env sid pd r)
  /\ (forall t, t <> Some NaN -> in_range (clamp_timeout t) = true)
  /\ clamp_timeout None = Fin 20000
  /\ clamp_timeout (Some PosInf) = Fin 60000
  /\ clamp_timeout (Some NegInf) = Fin 1000
  /\ (forall q, q <= 1000 -> clamp_timeout (Some (Fin q)) = Fin 1000)
  /\ (forall q, 60000 <= q -> clamp_timeout (Some (Fin q)) = Fin 60000)
  /\ (forall q, 1000 < q -> q < 60000 ->
                clamp_timeout (Some (Fin q)) = Fin q)
  /\ clamp_timeout (Some NaN) = NaN.
Proof.
  split; [|split; [|split]].
  - intros Ht.
    unfold captureScreenshot, page_setup, navigate, tryGo, read_title.
    cbn [strict launch newPage setViewport setBypassCSP
         setDefaultNavigationTimeout setExtraHTTPHeaders setUserAgent on goto
         page_url title screenshot pdf randomUUID put close].
    now rewrite (clamp_timeout_in_range Ht).
  - intros Ht.
    unfold convertToPdf, page_setup, navigate, tryGo, read_title.
    cbn [strict launch newPage setViewport setBypassCSP
         setDefaultNavigationTimeout setExtraHTTPHeaders setUserAgent on goto
         page_url title screenshot pdf randomUUID put close].
    now rewrite (clamp_timeout_in_range Ht).
  - intros t. apply clamp_timeout_in_range.
  - repeat split; try reflexivity.
    + intros q. apply (clamp_timeout_cases (Some (Fin q))).
    + intros q. apply (clamp_timeout_cases (Some (Fin q))).
    + intros q. apply (clamp_timeout_cases (Some (Fin q))).
Qed.

End Facts.

End PipelineFacts.

(* ================================================================== *)
(** * Streams are read by their text, not by their chunks *)
(* ================================================================== *)

Module ChunkFacts.

Import Agent.
Import Observed.
Import ControllerTactics.
Local Open Scope string_scope.

(** ** Text *)

Lemma concat_cons (x : string) (xs : list string) :
  String.concat "" (x :: xs) = x ++ String.concat "" xs.
Proof.
  destruct xs as [|y ys]; cbn [String.concat].
  - induction x as [|c x IH]; cbn; [reflexivity|now rewrite <- IH].
  - reflexivity.
Qed.

Lemma append_nil (s : string) : s ++ "" = s.
Proof. induction s as [|c s IH]; cbn; [reflexivity|now rewrite IH]. Qed.

Lemma append_assoc (a b c : string) : (a ++ b) ++ c = a ++ b ++ c.
Proof. induction a as [|x a IH]; cbn; [reflexivity|now rewrite IH]. Qed.

(** ** Lines *)

Lemma split_lines_nonempty (s : string) : split_lines s <> [].
Proof.
  induction s as [|c s IH]; cbn [split_lines]; [discriminate|].
  destruct (nat_of_ascii c =? 10)%nat; [discriminate|].
  destruct (split_lines s); discriminate.
Qed.

(** Splitting a text that goes on: the lines that are complete stay, and
    the last one goes on. *)
Lemma split_lines_app (a b : string) :
  split_lines (a ++ b)
  = (removelast (split_lines a)
       ++ split_lines (List.last (split_lines a) "" ++ b))%list.
Proof.
  induction a as [|c a IH]; [reflexivity|].
  cbn [String.append split_lines].
  pose proof (split_lines_nonempty a) as Hne.
  destruct (nat_of_ascii c =? 10)%nat eqn:Ec.
  - rewrite IH. destruct (split_lines a) as [|l ls]; [now destruct Hne|].
    reflexivity.
  - rewrite IH. destruct (split_lines a) as [|l ls]; [now destruct Hne|].
    destruct ls as [|l' ls].
    + cbn [removelast List.last List.app String.append split_lines].
      rewrite Ec. reflexivity.
    + cbn [removelast List.app]. reflexivity.
Qed.

(** The last line of a split holds no line feed. *)
Lemma last_line_is_one_line (s : string) :
  split_lines (List.last (split_lines s) "")
  = [List.last (split_lines s) ""].
Proof.
  induction s as [|c s IH]; [reflexivity|].
  cbn [split_lines].
  pose proof (split_lines_nonempty s) as Hne.
  destruct (nat_of_ascii c =? 10)%nat eqn:Ec.
  - destruct (split_lines s) as [|l ls]; [now destruct Hne|]. exact IH.
  - destruct (split_lines s) as [|l ls]; [now destruct Hne|].
    destruct ls as [|l' ls]; [|exact IH].
    cbn [List.last] in *. cbn [split_lines]. rewrite Ec, IH. reflexivity.
Qed.

Section Lines.

Context {R : Runtime}.

Lemma run_lines_app (l1 l2 : list string) :
  StreamAI.run_lines (l1 ++ l2)
  = let '(ds, stopped) := StreamAI.run_lines l1 in
    if stopped then (ds, true)
    else let '(ds', stopped') := StreamAI.run_lines l2 in
         ((ds ++ ds')%list, stopped').
Proof.
  induction l1 as [|raw l1 IH]; cbn [List.app StreamAI.run_lines].
  - now destruct (StreamAI.run_lines l2).
  - destruct (StreamAI.line_step raw); [exact IH|reflexivity|].
    rewrite IH. destruct (StreamAI.run_lines l1) as [ds [|]]; [reflexivity|].
    now destruct (StreamAI.run_lines l2).
Qed.

(** The loop over the chunks is the loop over the complete lines of the
    text they add up to. *)
Lemma consume_lines (chunks : list string) :
  forall buf, split_lines buf = [buf] ->
    StreamAI.consume chunks buf
    = StreamAI.run_lines
        (removelast (split_lines (buf ++ String.concat "" chunks))).
Proof.
  induction chunks as [|chunk rest IH]; intros buf Hbuf.
  - cbn [String.concat StreamAI.consume]. rewrite append_nil, Hbuf.
    reflexivity.
  - cbn [StreamAI.consume]. rewrite concat_cons, <- append_assoc.
    rewrite (split_lines_app (buf ++ chunk)).
    rewrite removelast_app by apply split_lines_nonempty.
    rewrite run_lines_app.
    rewrite (IH _ (last_line_is_one_line (buf ++ chunk))).
    reflexivity.
Qed.

(** X25.  [streamAI] reads its stream by the text it carries, whatever the way
    the text is cut into chunks: two streams with the same text and the same
    end give the same deltas and the same completion. The deltas are those of
    the complete lines of the text, up to the sentinel; what follows the last
    line feed is never read. *)
Theorem streamAI_reads_whole_lines (s1 s2 : Stream) :
  String.concat "" (chunks s1) = String.concat "" (chunks s2) ->
  failure s1 = failure s2 ->
  StreamAI.streamAI (Return s1) = StreamAI.streamAI (Return s2)
  /\ fst (StreamAI.streamAI (Return s1))
     = fst (StreamAI.run_lines
              (removelast (split_lines (String.concat "" (chunks s1))))).
Proof.
  intros Htext Hend. unfold StreamAI.streamAI.
  rewrite !(consume_lines _ (buf := "")) by reflexivity.
  cbn [String.append]. rewrite <- Htext, <- Hend.
  split; [reflexivity|].
  destruct (StreamAI.run_lines _) as [ds [|]]; [reflexivity|].
  now destruct (failure s1).
Qed.

End Lines.

(** ** Frames *)

Lemma prefix_app (p a b : string) :
  prefix p a = true -> prefix p (a ++ b) = true.
Proof.
  revert a. induction p as [|c p IH]; intros a H;
    [now destruct (a ++ b)|].
  destruct a as [|x a]; [discriminate|]. cbn in *.
  destruct (ascii_dec c x); [now apply IH|discriminate].
Qed.

Lemma prefix_app_false (p a b : string) :
  prefix p a = false -> (String.length p <= String.length a)%nat ->
  prefix p (a ++ b) = false.
Proof.
  revert a. induction p as [|c p IH]; intros a H Hlen;
    [now destruct a|].
  destruct a as [|x a]; [cbn in Hlen; lia|]. cbn in *.
  destruct (ascii_dec c x); [apply IH; [exact H|lia]|reflexivity].
Qed.

Lemma index_bound (p a : string) (i : nat) :
  p <> "" -> index 0 p a = Some i ->
  (i + String.length p <= String.length a)%nat.
Proof.
  intros Hp H.
  pose proof (index_correct1 _ _ _ _ H) as Hsub.
  pose proof (JSFacts.substring_length a i (String.length p)) as Hle.
  rewrite Hsub in Hle.
  destruct p; [now destruct Hp|]. cbn [String.length] in *. lia.
Qed.

Lemma index_app (p a b : string) :
  p <> "" ->
  forall i, index 0 p a = Some i -> index 0 p (a ++ b) = Some i.
Proof.
  intros Hp. induction a as [|c a IH]; intros i H.
  - destruct p; [now destruct Hp|discriminate].
  - cbn [String.append]. cbn [index] in *.
    destruct (prefix p (String c a)) eqn:Hpre.
    + change (String c (a ++ b)) with (String c a ++ b).
      now rewrite (@prefix_app _ _ b Hpre).
    + destruct (index 0 p a) as [n|] eqn:Hn; [|discriminate].
      pose proof (@index_bound p a n Hp Hn) as Hb.
      change (String c (a ++ b)) with (String c a ++ b).
      rewrite prefix_app_false; [|exact Hpre|cbn [String.length]; lia].
      now rewrite (IH n eq_refl).
Qed.

Lemma substring_all (s : string) : substring 0 (String.length s) s = s.
Proof. induction s as [|c s IH]; cbn; [reflexivity|now rewrite IH]. Qed.

Lemma substring_app_head (a b : string) :
  forall n, (n <= String.length a)%nat ->
            substring 0 n (a ++ b) = substring 0 n a.
Proof.
  induction a as [|c a IH]; intros n Hn.
  - cbn in Hn. replace n with 0%nat by lia. now destruct b.
  - destruct n as [|n]; [reflexivity|]. cbn in *. rewrite IH by lia.
    reflexivity.
Qed.

Lemma slice_from_app (a b : string) :
  forall k, (k <= String.length a)%nat ->
            slice_from k (a ++ b) = slice_from k a ++ b.
Proof.
  unfold slice_from.
  induction a as [|c a IH]; intros k Hk.
  - cbn in Hk. replace k with 0%nat by lia. cbn [String.append String.length].
    rewrite Nat.sub_0_r. apply substring_all.
  - destruct k as [|k].
    + rewrite !Nat.sub_0_r, !substring_all. reflexivity.
    + cbn [String.append String.length substring Nat.sub].
      apply IH. cbn in Hk. lia.
Qed.

Section Frames.

Context {R : Runtime} {U : UrlApi}.

Lemma drain_enough (fuel : nat) :
  forall fuel' buffer,
    (String.length buffer <= fuel)%nat -> (String.length buffer <= fuel')%nat ->
    drain fuel buffer = drain fuel' buffer.
Proof.
  induction fuel as [|fuel IH]; intros fuel' buffer H H'.
  - destruct buffer; [|cbn in H; lia]. now destruct fuel'.
  - destruct fuel' as [|fuel'].
    + destruct buffer; [reflexivity|cbn in H'; lia].
    + cbn [drain].
      destruct (index 0 (LF ++ LF) buffer) as [idx|] eqn:Hidx; [|reflexivity].
      assert (Hp : LF ++ LF <> "") by discriminate.
      pose proof (@index_bound _ _ _ Hp Hidx) as Hb.
      cbn [String.length LF chr1 String.append] in Hb.
      pose proof (JSFacts.substring_bound buffer (idx + 2)
                    (String.length buffer - (idx + 2))) as Hrest.
      rewrite (IH fuel' (slice_from (idx + 2) buffer));
        [reflexivity|unfold slice_from; lia|unfold slice_from; lia].
Qed.

(** Draining a buffer that goes on: what was a frame stays one, and what
    was left goes on. *)
Lemma drain_app (n : nat) :
  forall a b, (String.length a <= n)%nat ->
    drain (String.length (a ++ b)) (a ++ b)
    = let '(ds, rest) := drain (String.length a) a in
      let '(ds', rest') := drain (String.length (rest ++ b)) (rest ++ b) in
      ((ds ++ ds')%list, rest').
Proof.
  induction n as [|n IH]; intros a b Hlen.
  - destruct a; [|cbn in Hlen; lia]. cbn [String.append String.length drain].
    now destruct (drain _ b).
  - destruct a as [|c a].
    + cbn [String.append String.length drain]. now destruct (drain _ b).
    + remember (String c a) as s eqn:Hs.
      destruct (index 0 (LF ++ LF) s) as [idx|] eqn:Hidx.
      * assert (Hp : LF ++ LF <> "") by discriminate.
        pose proof (@index_bound _ _ _ Hp Hidx) as Hb.
        cbn [String.length LF chr1 String.append] in Hb.
        pose proof (JSFacts.substring_bound s (idx + 2)
                      (String.length s - (idx + 2))) as Hrest.
        assert (Hs1 : String.length s = S (String.length a))
          by (subst s; reflexivity).
        assert (Hs2 : String.length (s ++ b)
                      = S (String.length a + String.length b))
          by (rewrite JSFacts.length_append, Hs1; reflexivity).
        rewrite Hs2, Hs1. cbn [drain].
        rewrite (@index_app _ _ b Hp _ Hidx), Hidx.
        rewrite substring_app_head by lia.
        rewrite slice_from_app by lia.
        rewrite (@drain_enough (String.length a + String.length b)
                   (String.length (slice_from (idx + 2) s ++ b)));
          [|rewrite JSFacts.length_append; unfold slice_from; lia|lia].
        rewrite (@drain_enough (String.length a)
                   (String.length (slice_from (idx + 2) s)));
          [|unfold slice_from; lia|lia].
        rewrite (IH (slice_from (idx + 2) s) b)
          by (unfold slice_from; lia).
        destruct (drain _ (slice_from (idx + 2) s)) as [ds rest].
        destruct (drain _ (rest ++ b)) as [ds' rest'].
        now rewrite app_assoc.
      * assert (Hd : drain (String.length s) s = ([], s)).
        { subst s. cbn [String.length drain]. now rewrite Hidx. }
        rewrite Hd. now destruct (drain _ (s ++ b)).
Qed.

(** The loop over the chunks is the loop over the frames of the text they
    add up to. *)
Lemma relay_frames (chunks : list string) :
  forall buffer,
    index 0 (LF ++ LF) buffer = None ->
    relay chunks buffer
    = fst (drain (String.length (buffer ++ String.concat "" chunks))
                 (buffer ++ String.concat "" chunks)).
Proof.
  induction chunks as [|chunk rest IH]; intros buffer Hb.
  - cbn [relay String.concat]. rewrite append_nil.
    destruct buffer; cbn [String.length drain]; [reflexivity|].
    now rewrite Hb.
  - cbn [relay]. rewrite concat_cons, <- append_assoc.
    rewrite (@drain_app (String.length (buffer ++ chunk)) (buffer ++ chunk)
               (String.concat "" rest)) by lia.
    pose proof (@StreamFacts.drain_complete R (String.length (buffer ++ chunk))
                  (buffer ++ chunk) (Nat.le_refl _)) as Hc.
    destruct (drain _ (buffer ++ chunk)) as [ds remaining].
    cbn [snd] in Hc. rewrite (IH _ Hc).
    now destruct (drain _ (remaining ++ String.concat "" rest)).
Qed.

Variable world : World.

(** X26.  The plain chat reads the stream of the model by the text it carries,
    whatever the way the text is cut into chunks: two streams with the same
    text and the same end leave the agent in the same state, with the same
    frames sent and the same row stored. *)
Theorem plain_chat_reads_whole_frames (s1 s2 : Stream)
        (history : list ChatMessage) (a : Agent) :
  String.concat "" (chunks s1) = String.concat "" (chunks s2) ->
  failure s1 = failure s2 ->
  streamAssistant (serving world s1) history a
  = streamAssistant (serving world s2) history a.
Proof.
  intros Htext Hend. unfold streamAssistant, serving.
  cbn [AI_run now]. unfold bind at 1 3. unfold getState at 1 2.
  rewrite !(@relay_frames _ "") by reflexivity.
  cbn [String.append]. now rewrite Htext, Hend.
Qed.

(** X27.  A frame counts only once the blank line that ends it has arrived. A
    stream whose text holds no blank line yields no delta: the only frame sent
    is [done], and the row stored for the assistant is empty, or holds the
    stream-error text when the stream failed. *)
Theorem unterminated_frame_is_dropped (s : Stream)
        (history : list ChatMessage) (a : Agent) :
  index 0 (LF ++ LF) (String.concat "" (chunks s)) = None ->
  let text := match failure s with
              | None => ""
              | Some _ => "_(stream error)_"
              end in
  let row := mkMsg assistant text (now world (clock_reads a)) in
  streamAssistant (serving world s) history a
  = (mkAgent (name a)
       (mkState (model (state a)) (messages (state a) ++ [row])%list
                (createdAt (state a))
                (now world (S (clock_reads a)) + DAY))
       (rows a ++ [row])%list (sent a ++ [Done])%list
       (S (S (clock_reads a))), Return tt).
Proof.
  intros Hnone. cbv zeta. unfold streamAssistant, serving.
  cbn [AI_run now]. unfold bind at 1. unfold getState at 1.
  rewrite (@relay_frames _ "") by reflexivity.
  cbn [String.append].
  assert (Hd : drain (String.length (String.concat "" (chunks s)))
                     (String.concat "" (chunks s))
               = ([], String.concat "" (chunks s))).
  { destruct (String.concat "" (chunks s)); cbn [String.length drain];
      [reflexivity|now rewrite Hnone]. }
  rewrite Hd. cbn [fst map String.concat].
  destruct (failure s); step_by_step; now rewrite app_nil_r.
Qed.

End Frames.

End ChunkFacts.

(* ================================================================== *)
(** * The worker: sessions and files *)
(* ================================================================== *)

Module WorkerFacts.

Import Worker.
Import Observed.
Local Open Scope string_scope.

(** ** Paths *)

Lemma split_on_segment (sep c : ascii) (a : string) :
  split_on sep (String c a) = [String c a] ->
  Ascii.eqb c sep = false /\ split_on sep a = [a].
Proof.
  cbn [split_on]. destruct (Ascii.eqb c sep); [discriminate|].
  destruct (split_on sep a) as [|l ls] eqn:E; intros H.
  - injection H as H. subst a. discriminate E.
  - injection H as H1 H2. subst. now split.
Qed.

Lemma split_on_sep (sep : ascii) (a b : string) :
  split_on sep a = [a] ->
  split_on sep (a ++ String sep b) = a :: split_on sep b.
Proof.
  induction a as [|c a IH]; intros Ha.
  - cbn. now rewrite Ascii.eqb_refl.
  - destruct (@split_on_segment _ _ _ Ha) as [Hc Ha'].
    cbn [String.append split_on]. rewrite Hc, (IH Ha'). reflexivity.
Qed.

Lemma split_on_app (sep : ascii) (a b : string) :
  split_on sep a = [a] -> split_on sep b = [b] ->
  split_on sep (a ++ b) = [a ++ b].
Proof.
  induction a as [|c a IH]; intros Ha Hb; [exact Hb|].
  destruct (@split_on_segment _ _ _ Ha) as [Hc Ha'].
  cbn [String.append split_on]. rewrite Hc, (IH Ha' Hb). reflexivity.
Qed.

Lemma prefix_append (p s : string) : prefix p (p ++ s) = true.
Proof.
  induction p as [|c p IH]; [now destruct s|].
  cbn. destruct (ascii_dec c c) as [_|H]; [exact IH|now destruct H].
Qed.

Lemma concat_one (sep x : string) : String.concat sep [x] = x.
Proof. reflexivity. Qed.

(** ** Session ids *)

Lemma sid_width (c : ascii) : sid_char c = true -> RegExp.width c = 1%nat.
Proof.
  destruct c as [[] [] [] [] [] [] [] []]; cbn; intros H;
    first [reflexivity|discriminate H].
Qed.

Lemma step_sid {X} (rest : RegExp.re) (prev : option string) (c : ascii)
      (r : string) (k : option string -> list string -> option X) :
  RegExp.run (RegExp.Seq sid_class rest) prev (RegExp.chars (String c r)) k
  = if sid_char c
    then RegExp.run rest (Some (String c "")) (RegExp.chars r) k
    else None.
Proof.
  destruct (sid_char c) eqn:E.
  - rewrite WeatherFacts.chars_cons by now apply sid_width.
    cbn [RegExp.run sid_class]. now rewrite E.
  - unfold RegExp.chars. cbn [String.length RegExp.chars_fuel].
    destruct (RegExp.take _ r) as [a z]. cbn [RegExp.run sid_class].
    destruct a; [now rewrite E|reflexivity].
Qed.

Lemma star_sid {X} (prev : option string) (c : ascii) (r : string)
      (k : option string -> list string -> option X) :
  RegExp.run (RegExp.Star sid_class) prev (RegExp.chars (String c r)) k
  = if sid_char c
    then match RegExp.run (RegExp.Star sid_class) (Some (String c ""))
                 (RegExp.chars r) k with
         | Some x => Some x
         | None => k prev (RegExp.chars (String c r))
         end
    else k prev (RegExp.chars (String c r)).
Proof.
  destruct (sid_char c) eqn:E.
  - rewrite WeatherFacts.chars_cons by now apply sid_width.
    cbn [RegExp.run List.length sid_class]. rewrite E.
    assert (Hlt : (List.length (RegExp.chars r)
                   <? S (List.length (RegExp.chars r)))%nat = true)
      by (apply Nat.ltb_lt; lia).
    rewrite Hlt. reflexivity.
  - unfold RegExp.chars. cbn [String.length RegExp.chars_fuel].
    destruct (RegExp.take _ r) as [a z].
    cbn [RegExp.run List.length sid_class].
    destruct a; [now rewrite E|reflexivity].
Qed.

Lemma star_sid_whole (s : string) :
  forall prev,
    RegExp.run (RegExp.Star sid_class) prev (RegExp.chars s)
               (fun _ rest => match rest with [] => Some tt | _ => None end)
    = if every sid_char s then Some tt else None.
Proof.
  induction s as [|c s IH]; intros prev; [reflexivity|].
  rewrite star_sid. cbn [every]. rewrite IH.
  destruct (sid_char c) eqn:E; cbn [andb].
  - destruct (every sid_char s); [reflexivity|].
    rewrite WeatherFacts.chars_cons by now apply sid_width. reflexivity.
  - unfold RegExp.chars. cbn [String.length RegExp.chars_fuel].
    now destruct (RegExp.take _ s).
Qed.

Lemma test_whole_sid (s : string) :
  RegExp.test_whole sidRe s
  = (8 <=? String.length s)%nat && every sid_char s.
Proof.
  unfold RegExp.test_whole, sidRe.
  do 8 (destruct s as [|? s]; [reflexivity|];
        rewrite step_sid; cbn [every];
        destruct (sid_char _);
        [cbn [andb]|now rewrite ?andb_false_r, ?andb_false_l]).
  rewrite star_sid_whole. cbn [String.length Nat.leb andb].
  now destruct (every sid_char s).
Qed.

Lemma validSid_shape (s : string) :
  validSid (Some s)
  = if (8 <=? String.length s)%nat && every sid_char s then Some s else None.
Proof.
  unfold validSid. rewrite test_whole_sid.
  destruct s; [reflexivity|]. reflexivity.
Qed.

Lemma star_sid_all (id tail : string) :
  every sid_char id = true -> closes_id tail = true ->
  forall prev,
    RegExp.run (RegExp.Star sid_class) prev (RegExp.chars (id ++ tail))
               (fun _ rest => Some rest)
    = Some (RegExp.chars tail).
Proof.
  intros Hid Htail. induction id as [|c id IH]; intros prev.
  - cbn [String.append]. destruct tail as [|c r]; [reflexivity|].
    cbn [closes_id] in Htail. apply negb_true_iff in Htail.
    now rewrite star_sid, Htail.
  - cbn [every] in Hid. apply andb_true_iff in Hid. destruct Hid as [Hc Hs].
    cbn [String.append]. rewrite star_sid, Hc, (IH Hs). reflexivity.
Qed.

Lemma chars_sid_app (id tail : string) :
  every sid_char id = true ->
  RegExp.chars (id ++ tail) = (RegExp.chars id ++ RegExp.chars tail)%list.
Proof.
  induction id as [|c id IH]; intros Hid; [reflexivity|].
  cbn [every] in Hid. apply andb_true_iff in Hid. destruct Hid as [Hc Hs].
  cbn [String.append].
  rewrite !WeatherFacts.chars_cons by now apply sid_width.
  now rewrite (IH Hs).
Qed.

Lemma take_spec (n : nat) :
  forall s a z, RegExp.take n s = (a, z) ->
                s = a ++ z /\ (String.length z <= String.length s)%nat.
Proof.
  induction n as [|n IH]; intros s a z H.
  - cbn in H. injection H as <- <-. split; [reflexivity|lia].
  - destruct s as [|c s]; cbn in H.
    + injection H as <- <-. split; [reflexivity|lia].
    + destruct (RegExp.take n s) as [a' z'] eqn:E.
      injection H as <- <-. destruct (IH _ _ _ E) as [-> Hl].
      split; [reflexivity|cbn; lia].
Qed.

Lemma join_chars_fuel (fuel : nat) :
  forall s, (String.length s <= fuel)%nat ->
            RegExp.join (RegExp.chars_fuel fuel s) = s.
Proof.
  induction fuel as [|fuel IH]; intros s H.
  - destruct s; [reflexivity|cbn in H; lia].
  - destruct s as [|c s]; [reflexivity|].
    cbn [RegExp.chars_fuel].
    destruct (RegExp.take _ s) as [a z] eqn:E.
    destruct (take_spec _ _ E) as [-> Hl].
    cbn [RegExp.join fold_right String.append].
    change (fold_right String.append "" (RegExp.chars_fuel fuel z))
      with (RegExp.join (RegExp.chars_fuel fuel z)).
    rewrite IH; [reflexivity|].
    cbn in H. rewrite JSFacts.length_append in H. lia.
Qed.

Lemma join_chars (s : string) : RegExp.join (RegExp.chars s) = s.
Proof. apply join_chars_fuel. lia. Qed.

(** The id of a cookie header that starts with the session cookie. *)
Lemma cookie_round_trip (id tail : string) :
  id <> "" -> every sid_char id = true -> closes_id tail = true ->
  session_of_cookie ("cf_session=" ++ id ++ tail) = Some id.
Proof.
  intros Hne Hid Htail. unfold session_of_cookie, RegExp.exec.
  assert (Hc : RegExp.chars ("cf_session=" ++ id ++ tail)
               = (RegExp.chars ("cf_session=" ++ id)
                    ++ RegExp.chars tail)%list).
  { cbn [String.append].
    repeat rewrite WeatherFacts.chars_cons by reflexivity.
    now rewrite chars_sid_app. }
  assert (Hm : RegExp.match_here cookieRe None
                 (RegExp.chars ("cf_session=" ++ id ++ tail))
               = Some (RegExp.chars tail)).
  { unfold RegExp.match_here, cookieRe.
    cbn [String.append].
    repeat rewrite WeatherFacts.chars_cons by reflexivity.
    cbn [word RegExp.run exactly String.eqb Ascii.eqb Bool.eqb andb
         RegExp.Plus].
    destruct id as [|c id]; [now destruct Hne|].
    cbn [every] in Hid. apply andb_true_iff in Hid. destruct Hid as [Hc1 Hs].
    change (RegExp.run (RegExp.Seq sid_class (RegExp.Star sid_class))
              (Some "=") (RegExp.chars (String c (id ++ tail)))
              (fun _ rest => Some rest) = Some (RegExp.chars tail)).
    rewrite step_sid, Hc1. now apply star_sid_all. }
  assert (Hs : RegExp.search cookieRe None
                 (RegExp.chars ("cf_session=" ++ id ++ tail))
               = Some (RegExp.chars ("cf_session=" ++ id))).
  { destruct (RegExp.chars ("cf_session=" ++ id ++ tail)) as [|u cs] eqn:E.
    - cbn [RegExp.search]. rewrite Hm. cbn [RegExp.chars] in Hc.
      destruct id; discriminate Hc.
    - cbn [RegExp.search]. rewrite Hm, Hc. f_equal.
      rewrite length_app, Nat.add_sub, firstn_app, Nat.sub_diag, firstn_all.
      cbn [firstn]. apply app_nil_r. }
  rewrite Hs. cbn [option_map]. rewrite join_chars.
  unfold slice_from. cbn [String.append String.length Nat.sub substring].
  now rewrite Nat.sub_0_r, ChunkFacts.substring_all.
Qed.

(** ** The cookie header, read from the left *)

Lemma star_step {X} (prev : option string) (u : string) (cs : list string)
      (k : option string -> list string -> option X) :
  RegExp.run (RegExp.Star sid_class) prev (u :: cs) k
  = if id_char u
    then match RegExp.run (RegExp.Star sid_class) (Some u) cs k with
         | Some x => Some x
         | None => k prev (u :: cs)
         end
    else k prev (u :: cs).
Proof.
  cbn [RegExp.run List.length sid_class].
  change (match u with
          | String c EmptyString => sid_char c
          | _ => false
          end) with (id_char u).
  destruct (id_char u); [|reflexivity].
  assert (Hlt : (List.length cs <? S (List.length cs))%nat = true)
    by (apply Nat.ltb_lt; lia).
  rewrite Hlt. reflexivity.
Qed.

Lemma leading_skipn (p : string -> bool) (cs : list string) :
  (leading p cs ++ skipn (List.length (leading p cs)) cs)%list = cs.
Proof.
  induction cs as [|c cs IH]; [reflexivity|].
  cbn [leading]. destruct (p c); [|reflexivity].
  cbn [List.length skipn List.app]. now rewrite IH.
Qed.

Lemma star_leading (cs : list string) :
  forall prev,
    RegExp.run (RegExp.Star sid_class) prev cs (fun _ rest => Some rest)
    = Some (skipn (List.length (leading id_char cs)) cs).
Proof.
  induction cs as [|u cs IH]; intros prev; [reflexivity|].
  rewrite star_step. cbn [leading].
  destruct (id_char u); [|reflexivity].
  now rewrite IH.
Qed.

Lemma after_app (w cs rest : list string) :
  after w cs = Some rest -> cs = (w ++ rest)%list.
Proof.
  revert cs. induction w as [|x w IH]; intros cs H.
  - cbn in H. now injection H as ->.
  - destruct cs as [|c cs]; [discriminate H|]. cbn [after] in H.
    destruct (c =? x)%string eqn:E; [|discriminate H].
    apply String.eqb_eq in E. subst c. cbn [List.app].
    now rewrite (IH _ H).
Qed.

(** The pattern of the cookie, tried at the head of [cs]. *)
Lemma cookie_here (prev : option string) (cs : list string) :
  RegExp.match_here cookieRe prev cs
  = match after (RegExp.chars "cf_session=") cs with
    | Some (u :: more) =>
        if id_char u
        then Some (skipn (List.length (leading id_char more)) more)
        else None
    | _ => None
    end.
Proof.
  unfold RegExp.match_here, cookieRe.
  change (RegExp.chars "cf_session=")
    with ["c"; "f"; "_"; "s"; "e"; "s"; "s"; "i"; "o"; "n"; "="].
  cbn [word RegExp.run exactly RegExp.Plus].
  do 11 (destruct cs as [|? cs]; [reflexivity|]; cbn [after];
         match goal with
         | |- context [(?x =? ?y)%string] =>
             destruct (x =? y)%string; [|reflexivity]
         end).
  destruct cs as [|u more]; [reflexivity|].
  cbn [RegExp.run sid_class].
  change (match u with
          | String c EmptyString => sid_char c
          | _ => false
          end) with (id_char u).
  destruct (id_char u); [|reflexivity].
  exact (star_leading more (Some u)).
Qed.

(** The leftmost match of the pattern is the word and the id that
    [first_id] reads. *)
Lemma cookie_search (cs : list string) :
  forall prev,
    RegExp.search cookieRe prev cs
    = option_map (fun id => (RegExp.chars "cf_session=" ++ id)%list)
                 (first_id cs).
Proof.
  induction cs as [|c cs IH]; intros prev; [reflexivity|].
  cbn [RegExp.search first_id]. rewrite cookie_here.
  destruct (after (RegExp.chars "cf_session=") (c :: cs))
    as [[|u more]|] eqn:E; try apply IH.
  destruct (id_char u); [|apply IH].
  cbn [option_map]. f_equal.
  rewrite (after_app _ _ E).
  pose proof (leading_skipn id_char more) as Hmore.
  set (word := RegExp.chars "cf_session=").
  set (run := leading id_char more) in *.
  set (rest := skipn (List.length run) more) in *.
  clearbody run rest. subst more.
  replace (word ++ u :: run ++ rest)%list
    with ((word ++ u :: run) ++ rest)%list
    by (rewrite <- app_assoc; reflexivity).
  rewrite length_app, Nat.add_sub, firstn_app, Nat.sub_diag, firstn_all.
  cbn [firstn]. apply app_nil_r.
Qed.

Lemma join_app (a b : list string) :
  RegExp.join (a ++ b) = RegExp.join a ++ RegExp.join b.
Proof.
  induction a as [|x a IH]; [reflexivity|].
  cbn [List.app RegExp.join fold_right].
  change (fold_right String.append "" (a ++ b)%list)
    with (RegExp.join (a ++ b)).
  rewrite IH. unfold RegExp.join. now rewrite ChunkFacts.append_assoc.
Qed.

(** What the worker reads in a cookie header is the id that the header
    holds, read from the left. *)
Lemma session_of_cookie_id (header : string) :
  session_of_cookie header = cookie_id header.
Proof.
  unfold session_of_cookie, cookie_id, RegExp.exec.
  rewrite cookie_search.
  destruct (first_id (RegExp.chars header)) as [id|]; [|reflexivity].
  cbn [option_map]. f_equal. rewrite join_app.
  change (RegExp.join (RegExp.chars "cf_session=")) with "cf_session=".
  unfold slice_from. cbn [String.append String.length Nat.sub substring].
  now rewrite Nat.sub_0_r, ChunkFacts.substring_all.
Qed.

Section Sessions.

Context {R : Runtime}.
Variable platform : Platform.

(** X28.  The session id is the [sid] parameter when that is made of at
    least eight characters among a-z, 0-9 and the dash, whatever the cookie
    says; a parameter of any other form counts as absent.  Without a valid
    parameter the id is the one the [Cookie] header holds, wherever in the
    header it stands: at the first place where "cf_session=" is followed by
    a character of an id, the characters of an id that follow.  Without
    such a place (no header, an empty one, other cookies only) the id is a
    fresh UUID.  In every case the id is recorded in the store and sent
    back in the cookie and in the body. *)
Theorem session_id_precedence (request : Request) (param : option string) :
  searchParam platform (url request) "sid" = Return param ->
  let supplied :=
    match param with
    | Some s => if (8 <=? String.length s)%nat && every sid_char s
                then Some s else None
    | None => None
    end in
  let header := match cookie request with Some c => c | None => "" end in
  getOrCreateSession platform request
  = issued platform
      match supplied, cookie_id header with
      | Some s, _ => s
      | None, Some id => id
      | None, None => randomUUID platform
      end
  /\ (forall id tail,
         id <> "" -> every sid_char id = true -> closes_id tail = true ->
         cookie_id ("cf_session=" ++ id ++ tail) = Some id)
  /\ cookie_id "" = None.
Proof.
  intros Hparam. cbv zeta. split; [|split].
  - unfold getOrCreateSession. rewrite Hparam. cbn [Weather.bindc].
    assert (Hheader : match cookie request with
                      | Some c => or_else c ""
                      | None => ""
                      end
                      = match cookie request with Some c => c | None => "" end).
    { destruct (cookie request) as [c|]; [|reflexivity].
      unfold or_else. destruct (JS.truthy c) eqn:E; [reflexivity|].
      apply JSFacts.truthy_false in E. now subst c. }
    rewrite Hheader, session_of_cookie_id.
    destruct param as [s|]; [rewrite validSid_shape|].
    + destruct ((8 <=? String.length s)%nat && every sid_char s);
        [reflexivity|].
      now destruct (cookie_id _).
    + cbn [validSid]. now destruct (cookie_id _).
  - intros id tail Hne Hid Htail. rewrite <- session_of_cookie_id.
    now apply cookie_round_trip.
  - reflexivity.
Qed.

End Sessions.

Section Files.

Context {R : Runtime}.
Variable platform : Platform.

(** The path of a stored file leads to its key. *)
Lemma file_route (request : Request) (sid name : string) :
  segment sid -> segment name ->
  pathname platform (url request) = Return ("/files/" ++ sid ++ "/" ++ name) ->
  routeAgentRequest platform request = Return None ->
  decodeURIComponent platform name = Return name ->
  fetch platform request
  = match bucket_get platform ("files/" ++ sid ++ "/" ++ name) with
    | Return (Some obj) =>
        Return (stream_object obj name
                  [("cache-control", "private, max-age=0, must-revalidate")])
    | Return None => Return (mkResponse 404 [] "Not found")
    | Throw e => Throw e
    end.
Proof.
  intros [Hs1 Hs2] [Hn1 Hn2] Hpath Hroute Hdec.
  unfold fetch. rewrite Hpath. cbn [Weather.bindc]. rewrite Hroute.
  cbn [Weather.bindc].
  assert (Hsplit : split_on "/" ("/files/" ++ sid ++ "/" ++ name)
                   = [""; "files"; sid; name]).
  { change ("/files/" ++ sid ++ "/" ++ name)
      with ("" ++ String "/" ("files" ++ String "/" (sid ++ String "/" name))).
    rewrite split_on_sep by reflexivity.
    rewrite split_on_sep by reflexivity.
    rewrite split_on_sep by exact Hs2.
    now rewrite Hn2. }
  change (startsWith ("/files/" ++ sid ++ "/" ++ name) "/files/")
    with (prefix "/files/" ("/files/" ++ (sid ++ "/" ++ name))).
  rewrite prefix_append.
  replace (("/files/" ++ sid ++ "/" ++ name =? "/api/session")%string)
    with false by reflexivity.
  cbn [andb]. unfold serve_file. rewrite Hsplit.
  apply JSFacts.truthy_true in Hs1, Hn1.
  cbn [filter]. rewrite Hs1, Hn1.
  cbn [JS.truthy String.eqb negb List.length Nat.add Nat.leb nth skipn].
  rewrite concat_one, Hdec. cbn [Weather.bindc].
  destruct (bucket_get platform _) as [[obj|]|e]; reflexivity.
Qed.

(** X29.  A link that a capture returns leads, through the file route of the
    worker, to the object the capture stored: a request for the [url] of a
    successful result reads the bucket at the [r2Key] of that result, and
    answers with the object, or with 404 when the bucket has none. The session
    id and the UUID are taken to be path segments that decoding leaves as they
    are. *)
Theorem capture_link_is_served {U : UrlApi} (env : Capture.Env) (sid : string)
        (ss : Capture.ScreenshotArgs) (pd : Capture.PdfArgs)
        (request : Request) :
  segment sid -> segment (Capture.randomUUID env) ->
  routeAgentRequest platform request = Return None ->
  (forall ext, decodeURIComponent platform (Capture.randomUUID env ++ ext)
               = Return (Capture.randomUUID env ++ ext)) ->
  (forall r p,
      Capture.captureScreenshot env sid ss Capture.start
      = (r, Return (Capture.Ok p)) ->
      pathname platform (url request) = Return (Capture.sso_url p) ->
      fetch platform request
      = match bucket_get platform (Capture.sso_r2Key p) with
        | Return (Some obj) =>
            Return (stream_object obj (Capture.randomUUID env ++ ".png")
                      [("cache-control",
                        "private, max-age=0, must-revalidate")])
        | Return None => Return (mkResponse 404 [] "Not found")
        | Throw e => Throw e
        end)
  /\ (forall r p,
         Capture.convertToPdf env sid pd Capture.start
         = (r, Return (Capture.Ok p)) ->
         pathname platform (url request) = Return (Capture.pdo_url p) ->
         fetch platform request
         = match bucket_get platform (Capture.pdo_r2Key p) with
           | Return (Some obj) =>
               Return (stream_object obj (Capture.randomUUID env ++ ".pdf")
                         [("cache-control",
                           "private, max-age=0, must-revalidate")])
           | Return None => Return (mkResponse 404 [] "Not found")
           | Throw e => Throw e
           end).
Proof.
  intros Hsid [Hu1 Hu2] Hroute Hdec.
  assert (Hname : forall ext, split_on "/" ext = [ext] ->
                    segment (Capture.randomUUID env ++ ext)).
  { intros ext Hext. split; [|now apply split_on_app].
    destruct (Capture.randomUUID env); [now destruct Hu1|discriminate]. }
  split; intros r p E Hpath.
  - destruct (@PipelineFacts.captureScreenshot_outcome _ _ _ _ _ _ E)
      as (Hp & _ & _ & _).
    rewrite Hp in Hpath |- *. cbn [Capture.sso_url Capture.sso_r2Key] in *.
    apply file_route; auto.
  - destruct (@PipelineFacts.convertToPdf_outcome _ _ _ _ _ _ E) as (Hp & _ & _ & _).
    rewrite Hp in Hpath |- *. cbn [Capture.pdo_url Capture.pdo_r2Key] in *.
    apply file_route; auto.
Qed.

(** X30.  A file path that names no file is refused before anything is looked
    up: with at most one segment after "/files/", or after "/api/files/", the
    answer is 400, whatever the bucket holds. *)
Theorem file_route_needs_a_name (request : Request) (x : string) :
  split_on "/" x = [x] ->
  routeAgentRequest platform request = Return None ->
  (pathname platform (url request) = Return ("/files/" ++ x) ->
   fetch platform request = Return (mkResponse 400 [] "Bad Request"))
  /\ (pathname platform (url request) = Return ("/api/files/" ++ x) ->
      fetch platform request = Return (mkResponse 400 [] "Bad Request")).
Proof.
  intros Hx Hroute. split; intros Hpath.
  - unfold fetch. rewrite Hpath. cbn [Weather.bindc]. rewrite Hroute.
    cbn [Weather.bindc].
    assert (Hsplit : split_on "/" ("/files/" ++ x) = [""; "files"; x]).
    { change ("/files/" ++ x) with ("" ++ String "/" ("files" ++ String "/" x)).
      rewrite split_on_sep by reflexivity.
      rewrite split_on_sep by reflexivity.
      now rewrite Hx. }
    change (startsWith ("/files/" ++ x) "/files/")
      with (prefix "/files/" ("/files/" ++ x)).
    rewrite prefix_append.
    replace (("/files/" ++ x =? "/api/session")%string)
      with false by reflexivity.
    cbn [andb]. unfold serve_file. rewrite Hsplit.
    cbn [filter]. now destruct (JS.truthy x).
  - unfold fetch. rewrite Hpath. cbn [Weather.bindc]. rewrite Hroute.
    cbn [Weather.bindc].
    assert (Hsplit : split_on "/" ("/api/files/" ++ x)
                     = [""; "api"; "files"; x]).
    { change ("/api/files/" ++ x)
        with ("" ++ String "/" ("api" ++ String "/"
                                 ("files" ++ String "/" x))).
      rewrite split_on_sep by reflexivity.
      rewrite split_on_sep by reflexivity.
      rewrite split_on_sep by reflexivity.
      now rewrite Hx. }
    replace (startsWith ("/api/files/" ++ x) "/files/")
      with false by reflexivity.
    change (startsWith ("/api/files/" ++ x) "/api/files/")
      with (prefix "/api/files/" ("/api/files/" ++ x)).
    rewrite prefix_append.
    replace (("/api/files/" ++ x =? "/api/session")%string)
      with false by reflexivity.
    cbn [andb]. unfold serve_file. rewrite Hsplit.
    cbn [filter]. now destruct (JS.truthy x).
Qed.

End Files.

End WorkerFacts.

(* ================================================================== *)
(** * Captures without a target *)
(* ================================================================== *)

Module TargetFacts.

Import Agent.
Import Observed.
Import ControllerTactics.
Import Claimed.
Local Open Scope string_scope.

Section Facts.

Context {R : Runtime} {U : UrlApi}.
Variable world : World.

(** The default target is a valid URL for the pipelines as soon as the
    parser reads it as an https address. *)
Lemma default_target_normalizes (u : URL) :
  URL_new "https://example.com" = Return u ->
  URL_protocol u = "https:" ->
  Capture.normalizeUrl "https://example.com" = Some u.
Proof.
  intros Hnew Hproto. unfold Capture.normalizeUrl.
  change (trim (or_else "https://example.com" "")) with "https://example.com".
  cbn [JS.truthy String.eqb Ascii.eqb Bool.eqb negb].
  rewrite Hnew, Hproto. reflexivity.
Qed.

(** The frames of a screenshot turn. *)
Lemma screenshot_with_frames (userText target : string)
      (args : Capture.ScreenshotArgs) (a : Agent) :
  let pipeline :=
    Capture.captureScreenshot (browser world) (name a) args Capture.start in
  let turn := screenshot_with world userText target args a in
  exists rest,
    sent (fst turn)
    = (sent a
         ++ [Delta ("Okay — I’ll capture a full-page screenshot of "
                      ++ or_else target "that page" ++ "…");
             Done;
             Tool "screenshot" started (Some "Planning capture…") NoResult]
         ++ map (fun msg => Tool "screenshot" step (Some msg) NoResult)
                (Capture.emitted (fst pipeline))
         ++ rest)%list
    /\ match snd pipeline with
       | Throw e => rest = [] /\ snd turn = Throw e
       | Return (Capture.Ok p) =>
           snd turn = Return tt
           /\ exists summary,
                rest = [Tool "screenshot" done (Some "Screenshot ready")
                             (ScreenshotPayload (Capture.Ok p));
                        Delta summary; Done]
       | Return (Capture.Failed err code) =>
           snd turn = Return tt
           /\ exists summary,
                rest = [Tool "screenshot" error (Some err)
                             (ScreenshotPayload (Capture.Failed err code));
                        Delta summary; Done]
       end.
Proof.
  destruct a as [nm st rws snt clk]. cbv zeta.
  unfold screenshot_with. cbv zeta.
  do 3 (erewrite ControllerFacts.bind_returns by (run_steps; reflexivity)).
  unfold run_capture. cbn [name].
  destruct (Capture.captureScreenshot _ _ _ _) as [run [[p|err code]|e]].
  - run_steps. eexists. split.
    + rewrite <- !app_assoc. cbn [List.app]. reflexivity.
    + split; [reflexivity|]. eexists. reflexivity.
  - run_steps. eexists. split.
    + rewrite <- !app_assoc. cbn [List.app]. reflexivity.
    + split; [reflexivity|]. eexists. reflexivity.
  - run_steps. exists []. split.
    + rewrite <- !app_assoc. cbn [List.app]. now rewrite app_nil_r.
    + split; reflexivity.
Qed.

(** The frames of a PDF turn. *)
Lemma pdf_with_frames (userText target : string) (args : Capture.PdfArgs)
      (a : Agent) :
  let pipeline :=
    Capture.convertToPdf (browser world) (name a) args Capture.start in
  let turn := pdf_with world userText target args a in
  exists rest,
    sent (fst turn)
    = (sent a
         ++ [Delta ("Got it — I’ll render a PDF of "
                      ++ or_else target "that page" ++ "…");
             Done;
             Tool "convertToPdf" started (Some "Planning PDF…") NoResult]
         ++ map (fun msg => Tool "convertToPdf" step (Some msg) NoResult)
                (Capture.emitted (fst pipeline))
         ++ rest)%list
    /\ match snd pipeline with
       | Throw e => rest = [] /\ snd turn = Throw e
       | Return (Capture.Ok p) =>
           snd turn = Return tt
           /\ exists summary,
                rest = [Tool "convertToPdf" done (Some "PDF ready")
                             (PdfPayload (Capture.Ok p));
                        Delta summary; Done]
       | Return (Capture.Failed err code) =>
           snd turn = Return tt
           /\ exists summary,
                rest = [Tool "convertToPdf" error (Some err)
                             (PdfPayload (Capture.Failed err code));
                        Delta summary; Done]
       end.
Proof.
  destruct a as [nm st rws snt clk]. cbv zeta.
  unfold pdf_with. cbv zeta.
  do 3 (erewrite ControllerFacts.bind_returns by (run_steps; reflexivity)).
  unfold run_capture. cbn [name].
  destruct (Capture.convertToPdf _ _ _ _) as [run [[p|err code]|e]].
  - run_steps. eexists. split.
    + rewrite <- !app_assoc. cbn [List.app]. reflexivity.
    + split; [reflexivity|]. eexists. reflexivity.
  - run_steps. eexists. split.
    + rewrite <- !app_assoc. cbn [List.app]. reflexivity.
    + split; [reflexivity|]. eexists. reflexivity.
  - run_steps. exists []. split.
    + rewrite <- !app_assoc. cbn [List.app]. now rewrite app_nil_r.
    + split; reflexivity.
Qed.

(** A chat turn for which the planner declines, by its intent. *)
Lemma chat_by_intent (a : Agent) (s : string) :
  let userText := trim s in
  let a1 := fst (remember_user world userText a) in
  userText <> "" ->
  snd (tryPlanTool world (history_of (state a1)) userText a1) = Return None ->
  chat world (Str s) a
  = (if RegExp.test ssRe userText
     then screenshot_turn world userText
     else if RegExp.test pdfRe userText
          then pdf_turn world userText
          else streamAssistant world (history_of (state a1))) a1.
Proof.
  intros userText a1 Hne Hplan.
  rewrite ControllerFacts.chat_respond, ControllerFacts.trimmed_text.
  fold userText.
  apply JSFacts.truthy_true in Hne. rewrite Hne.
  fold a1. unfold respond, bind, getState.
  destruct (PlannerFacts.planner_returns world (history_of (state a1))
                                         userText a1) as (res & Hres).
  rewrite Hres in Hplan |- *. cbn in Hplan. injection Hplan as ->.
  reflexivity.
Qed.

(** C9, as the code has it.  When the planner returns no forecast call, a
    chat text that (trimmed) matches the screenshot pattern and holds no
    URL-like token runs the screenshot pipeline on "https://example.com"; a
    text that matches the PDF pattern, not the screenshot pattern, and holds
    no URL-like token runs the PDF pipeline on "https://example.com".  With
    a URL parser that reads that address as an https one, the pipeline gets
    past the check of its URL in both cases: a browser is asked for and the
    result is not BAD_URL.  The turn announces the capture of "that page",
    starts the tool, relays the progress of the pipeline and ends with its
    result and a summary; it does not ask for a URL. *)
Theorem default_capture_target (a : Agent) (s : string) (u : URL) :
  let userText := trim s in
  let a1 := fst (remember_user world userText a) in
  userText <> "" ->
  snd (tryPlanTool world (history_of (state a1)) userText a1) = Return None ->
  RegExp.exec urlRe userText = None ->
  URL_new "https://example.com" = Return u ->
  URL_protocol u = "https:" ->
  (RegExp.test ssRe userText = true ->
   default_capture "screenshot"
     "Okay — I’ll capture a full-page screenshot of that page…"
     "Planning capture…" "Screenshot ready" ScreenshotPayload
     (Capture.captureScreenshot (browser world) (name a)
        (Capture.mkScreenshotArgs "https://example.com" (Some true)
                                  None None None)
        Capture.start)
     a (chat world (Str s) a))
  /\ (RegExp.test ssRe userText = false ->
      RegExp.test pdfRe userText = true ->
      default_capture "convertToPdf"
        "Got it — I’ll render a PDF of that page…"
        "Planning PDF…" "PDF ready" PdfPayload
        (Capture.convertToPdf (browser world) (name a)
           (Capture.mkPdfArgs "https://example.com" None None None
              (Some (Capture.mkPdfOpts (Some Capture.A4) None (Some 1%Q))))
           Capture.start)
        a (chat world (Str s) a)).
Proof.
  intros userText a1 Hne Hplan Hurl Hnew Hproto.
  pose proof (default_target_normalizes Hnew Hproto) as Hnorm.
  rewrite (chat_by_intent a s Hne Hplan). fold userText a1.
  assert (Hsent : sent a1 = sent a) by reflexivity.
  assert (Hname : name a1 = name a) by reflexivity.
  split.
  - intros ->.
    unfold screenshot_turn, url_token, screenshot_args. rewrite Hurl.
    cbn [or_else JS.truthy String.eqb negb].
    set (args := Capture.mkScreenshotArgs "https://example.com" (Some true)
                                          None None None).
    unfold default_capture.
    destruct (PipelineFacts.screenshot_browser (browser world) (name a) args)
      as [Hlaunched _].
    split; [apply Hlaunched; cbn [Capture.ss_url args]; now rewrite Hnorm|].
    split.
    + intros msg Hfail.
      destruct (Capture.captureScreenshot (browser world) (name a) args
                                          Capture.start) as [run c] eqn:E.
      cbn [snd] in Hfail. subst c.
      destruct (@PipelineFacts.captureScreenshot_outcome _ _ _ _ _ _ E)
        as (_ & Hbad).
      destruct Hbad as [Hbad _].
      cbn [Capture.ss_url args] in Hbad.
      rewrite Hnorm in Hbad. now specialize (Hbad eq_refl).
    + destruct (screenshot_with_frames userText "" args a1)
        as (rest & Hframes & Hend).
      rewrite Hsent, Hname in Hframes. rewrite Hname in Hend.
      exists rest. split; [exact Hframes|exact Hend].
  - intros -> ->.
    unfold pdf_turn, url_token, pdf_args. rewrite Hurl.
    cbn [or_else JS.truthy String.eqb negb].
    set (args := Capture.mkPdfArgs "https://example.com" None None None
                   (Some (Capture.mkPdfOpts (Some Capture.A4) None
                                            (Some 1%Q)))).
    unfold default_capture.
    destruct (PipelineFacts.pdf_browser (browser world) (name a) args)
      as [Hlaunched _].
    split; [apply Hlaunched; cbn [Capture.pdf_url args]; now rewrite Hnorm|].
    split.
    + intros msg Hfail.
      destruct (Capture.convertToPdf (browser world) (name a) args
                                     Capture.start) as [run c] eqn:E.
      cbn [snd] in Hfail. subst c.
      destruct (@PipelineFacts.convertToPdf_outcome _ _ _ _ _ _ E)
        as (_ & Hbad).
      destruct Hbad as [Hbad _].
      cbn [Capture.pdf_url args] in Hbad.
      rewrite Hnorm in Hbad. now specialize (Hbad eq_refl).
    + destruct (pdf_with_frames userText "" args a1)
        as (rest & Hframes & Hend).
      rewrite Hsent, Hname in Hframes. rewrite Hname in Hend.
      exists rest. split; [exact Hframes|exact Hend].
Qed.

End Facts.

End TargetFacts.


(* ================================================================== *)
(** * The theorems at concrete inputs *)
(* ================================================================== *)

Module Examples.

Import Sample.
Import Scenario.
Import Agent.
Local Open Scope string_scope.

(** ** The controller *)

Lemma blank_chat_witness :
  onMessage w_text (TextFrame (chat_frame "   ")) agent0 = (agent0, Return tt).
Proof.
  apply (@AgentFacts.blank_chat_is_noop runtime urls w_text agent0
           (chat_frame "   ")
           (Obj [("type", Str "chat"); ("text", Str "   ")]) "   ").
  - reflexivity.
  - reflexivity.
  - reflexivity.
  - apply (@Blank_cons " " "  "); [cbn; tauto|].
    apply (@Blank_cons " " " "); [cbn; tauto|].
    apply (@Blank_cons " " ""); [cbn; tauto|].
    apply Blank_nil.
Defined.

Lemma reset_preserves_model_witness :
  model (state (fst (onMessage w_text (TextFrame reset_frame) agent0)))
  = Str "@hf/nousresearch/hermes-2-pro-mistral-7b"
  /\ messages (state (fst (onMessage w_text (TextFrame reset_frame) agent0)))
     = []
  /\ createdAt (state (fst (onMessage w_text (TextFrame reset_frame) agent0)))
     = 1700000000000%Z
  /\ expiresAt (state (fst (onMessage w_text (TextFrame reset_frame) agent0)))
     = (1700000000001 + DAY)%Z.
Proof.
  apply (@AgentFacts.reset_preserves_model runtime urls w_text agent0
           reset_frame (Obj [("type", Str "reset")])); reflexivity.
Defined.

Lemma reset_then_connect_witness :
  rows (fst (onMessage w_text (TextFrame reset_frame) agent0)) = []
  /\ exists s,
       sent (fst (onConnect w_text
                    (fst (onMessage w_text (TextFrame reset_frame) agent0))))
       = (sent (fst (onMessage w_text (TextFrame reset_frame) agent0))
            ++ [Ready s])%list
       /\ messages s = [].
Proof.
  apply (@AgentFacts.reset_then_connect runtime urls w_text agent0
           reset_frame (Obj [("type", Str "reset")])); reflexivity.
Defined.

(** Two chat turns for which the planner declines: one text asks for a
    screenshot, the other for a PDF, and neither names a page. *)
Lemma default_capture_target_witness :
  Claimed.default_capture "screenshot"
    "Okay — I’ll capture a full-page screenshot of that page…"
    "Planning capture…" "Screenshot ready" ScreenshotPayload
    (Capture.captureScreenshot (browser w_text) (name agent0)
       (Capture.mkScreenshotArgs "https://example.com" (Some true)
                                 None None None)
       Capture.start)
    agent0 (chat w_text (Str "take a screenshot") agent0)
  /\ Claimed.default_capture "convertToPdf"
       "Got it — I’ll render a PDF of that page…"
       "Planning PDF…" "PDF ready" PdfPayload
       (Capture.convertToPdf (browser w_text) (name agent0)
          (Capture.mkPdfArgs "https://example.com" None None None
             (Some (Capture.mkPdfOpts (Some Capture.A4) None (Some 1%Q))))
          Capture.start)
       agent0 (chat w_text (Str " save as pdf ") agent0).
Proof.
  split.
  - destruct (@TargetFacts.default_capture_target runtime urls w_text agent0
                "take a screenshot" example_com)
      as [H _];
      [discriminate|reflexivity|reflexivity|reflexivity|reflexivity|].
    apply H. reflexivity.
  - destruct (@TargetFacts.default_capture_target runtime urls w_text agent0
                " save as pdf " example_com)
      as [_ H];
      [discriminate|reflexivity|reflexivity|reflexivity|reflexivity|].
    apply H; reflexivity.
Defined.

(** The same text when the planner asks for the forecast tool: the turn is
    a forecast turn, and no capture pipeline runs. *)
Lemma planner_preempts_capture :
  RegExp.test ssRe "take a screenshot" = true
  /\ RegExp.exec urlRe "take a screenshot" = None
  /\ tool_events "screenshot"
       (sent (fst (onMessage (world_of ai_weather browser_ok)
                             (TextFrame (chat_frame "take a screenshot"))
                             agent0))) = []
  /\ tool_events "convertToPdf"
       (sent (fst (onMessage (world_of ai_weather browser_ok)
                             (TextFrame (chat_frame "take a screenshot"))
                             agent0))) = []
  /\ tool_events "getWeather"
       (sent (fst (onMessage (world_of ai_weather browser_ok)
                             (TextFrame (chat_frame "take a screenshot"))
                             agent0))) = [started; step; error].
Proof. vm_compute. repeat split. Qed.

(** ** The streaming relay *)

Lemma streamAssistant_relays_after_DONE_witness :
  sent (fst (streamAssistant (world_of (ai_stream [late_chunk]) browser_ok)
                             [] agent0))
  = (sent agent0 ++ [Delta "late"; Done])%list
  /\ rows (fst (streamAssistant (world_of (ai_stream [late_chunk]) browser_ok)
                                [] agent0))
     = (rows agent0 ++ [mkMsg assistant "late" 1700000000000])%list.
Proof.
  apply (@StreamFacts.streamAssistant_relays_after_DONE runtime
           (world_of (ai_stream [late_chunk]) browser_ok) [] agent0
           SyntaxError); reflexivity.
Defined.

(** On the same stream [streamAI] returns at the sentinel, with nothing
    handed to [onDelta]. *)
Example streamAI_on_late_chunk :
  StreamAI.streamAI (Return (mkStream [late_chunk] None)) = ([], Return "").
Proof. reflexivity. Qed.

(** ** The capture pipelines *)

Lemma capture_throws_when_launch_fails_witness :
  snd (Capture.captureScreenshot browser_down (name agent0)
         (shot "https://example.com") Capture.start)
  = Throw (mkError "Error" "Unable to create new browser: code: 429")
  /\ snd (Capture.convertToPdf browser_down (name agent0)
            (print "https://example.com") Capture.start)
     = Throw (mkError "Error" "Unable to create new browser: code: 429").
Proof.
  apply (@CaptureFacts.capture_throws_when_launch_fails urls browser_down
           (name agent0) (shot "https://example.com")
           (print "https://example.com") example_com example_com);
    reflexivity.
Defined.

(** "localhost:3000" parses as a URL whose scheme is "localhost": the code
    rejects it, where the specification's wording would go on to accept
    "https://localhost:3000". *)
Lemma host_and_port_is_rejected :
  Capture.normalizeUrl "localhost:3000" = None
  /\ Claimed.spec_normalizeUrl "localhost:3000"
     = Some (mkUrl "https:" "localhost" ":3000" "/")
  /\ snd (Capture.captureScreenshot browser_ok (name agent0)
            (shot "localhost:3000") Capture.start)
     = Return (Capture.Failed "Invalid URL" Capture.BAD_URL).
Proof. vm_compute. repeat split. Qed.


(** The rungs of that call, and those of a call whose first wait condition
    times out and whose "load" succeeds. *)
Example whole_ladder :
  map Claimed.key
      (Capture.navAttempts
         (fst (Capture.captureScreenshot (browser_unreachable timed_out)
                 (name agent0) (shot "https://example.com") Capture.start)))
  = [("https://example.com/", Capture.networkidle0);
     ("https://example.com/", Capture.load);
     ("https://example.com/", Capture.domcontentloaded);
     ("https://www.example.com/", Capture.networkidle0);
     ("https://www.example.com/", Capture.load);
     ("https://www.example.com/", Capture.domcontentloaded)].
Proof. vm_compute. reflexivity. Qed.

Example load_after_timeout :
  Capture.is_ok (match snd (Capture.captureScreenshot browser_slow (name agent0)
                              (shot "https://example.com") Capture.start) with
                 | Return r => r
                 | Throw _ => Capture.Failed "" Capture.CAPTURE_FAIL
                 end) = true
  /\ map Claimed.key
         (Capture.navAttempts
            (fst (Capture.captureScreenshot browser_slow (name agent0)
                    (shot "https://example.com") Capture.start)))
     = [("https://example.com/", Capture.networkidle0);
        ("https://example.com/", Capture.load)].
Proof. vm_compute. repeat split. Qed.

Example exhausted_ladder :
  snd (Capture.captureScreenshot (browser_unreachable timed_out) (name agent0)
         (shot "https://example.com") Capture.start)
  = Return (Capture.Failed "Navigation timed out" Capture.NAV_TIMEOUT)
  /\ snd (Capture.convertToPdf (browser_unreachable refused) (name agent0)
            (print "https://example.com") Capture.start)
     = Return (Capture.Failed "Navigation failed" Capture.NAV_FAIL).
Proof. vm_compute. repeat split. Qed.


(** ** The forecast summary *)

Lemma forecast_summary_witness :
  Claimed.summarized w_text agent0 "weather in Montreal this week"
    "Forecast next 2 day(s)" montreal celsius two_days.
Proof.
  apply (@SummaryFacts.forecast_summary runtime w_text agent0
           "weather in Montreal this week" "Forecast next 2 day(s)"
           montreal celsius two_days).
  discriminate.
Defined.

(** The example of the specification: high 30, low 18, peak 75% on the
    second day, umbrella advice. *)
Example summary_of_two_days :
  summary_text montreal celsius two_days
  = String.concat " "
      [ "Next week in Montreal, Quebec, Canada, expect highs around 30°C and lows near 18°C.";
        "Peak chance of precipitation is about 75% on 2025-06-02.";
        umbrella ].
Proof. vm_compute. reflexivity. Qed.

(** A forecast without maximum temperatures and an 80% peak: the packing
    sentence is not the umbrella advice. *)
Lemma packing_without_high :
  summary_text montreal celsius no_maximum
  = String.concat " "
      [ "Next week in Montreal, Quebec, Canada, expect lows near 5°C.";
        "Peak chance of precipitation is about 80% on 2025-06-01.";
        flexible_layers ]
  /\ flexible_layers <> umbrella.
Proof. split; [vm_compute; reflexivity | discriminate]. Qed.

End Examples.

(* ================================================================== *)
(** * The further theorems at concrete inputs *)
(* ================================================================== *)

Module Instances.

Import Sample.
Import Scenario.
Import Cases.
Import Agent.
Import Observed.
Local Open Scope string_scope.

(** ** The controller *)

Lemma state_mirrors_table_witness :
  (forall frame,
      let a' := fst (onMessage w_text frame agent0) in
      messages (state a') = rows a')
  /\ (let a' := fst (onConnect w_text agent0) in
      messages (state a') = rows a').
Proof.
  apply (@ControllerFacts.state_mirrors_table runtime urls w_text agent0).
  reflexivity.
Defined.

Lemma replies_are_closed_witness :
  unfinished (sent (fst (onMessage w_text (TextFrame (chat_frame "hello"))
                                   agent0))) = false.
Proof.
  apply (@ControllerFacts.replies_are_closed runtime urls w_text
           (TextFrame (chat_frame "hello")) agent0).
  reflexivity.
Defined.

Lemma model_choice_survives_reset_witness :
  let a1 := fst (onMessage w_text (TextFrame (model_frame hermes)) agent0) in
  let a2 := fst (onMessage w_text (TextFrame reset_frame) a1) in
  model (state a1) = Str hermes
  /\ messages (state a1) = messages (state agent0)
  /\ createdAt (state a1) = createdAt (state agent0)
  /\ rows a1 = rows agent0
  /\ sent a1 = sent agent0
  /\ model (state a2) = Str hermes.
Proof.
  apply (@ControllerFacts.model_choice_survives_reset runtime urls w_text
           agent0 (model_frame hermes) reset_frame
           (Obj [("type", Str "model"); ("model", Str hermes)])
           (Obj [("type", Str "reset")])); reflexivity.
Defined.

(** ** The forecast tool *)

Lemma forecast_needs_a_place_witness :
  Weather.getWeather net_down (Obj [])
  = Weather.WErr "Please provide a city/location I can find.".
Proof.
  apply (@WeatherFacts.forecast_needs_a_place runtime net_down (Obj []) "").
  - discriminate.
  - discriminate.
  - reflexivity.
  - reflexivity.
  - apply Blank_nil.
Defined.

Lemma coordinates_skip_the_geocoder_witness :
  Weather.getWeather net_down montreal_coordinates
  = Weather.getWeather geocoder_only montreal_coordinates
  /\ forall p u d n,
       Weather.getWeather net_down montreal_coordinates = Weather.WOk p u d n ->
       Weather.lat p = get montreal_coordinates "latitude"
       /\ Weather.lon p = get montreal_coordinates "longitude"
       /\ Weather.name p
          = nullish (get montreal_coordinates "location") (Str "location")
       /\ Weather.region p = Undefined /\ Weather.country p = Undefined.
Proof.
  apply (@WeatherFacts.coordinates_skip_the_geocoder runtime net_down
           geocoder_only montreal_coordinates).
  - reflexivity.
  - reflexivity.
  - intros req H. cbn. now rewrite H.
Defined.

Lemma forecast_failures_are_reported_witness :
  let req :=
    Weather.buildForecastUrl (get montreal_coordinates "latitude")
      (get montreal_coordinates "longitude") (get montreal_coordinates "days")
      (Weather.asISODate (get montreal_coordinates "startDate"))
      (Weather.asISODate (get montreal_coordinates "endDate"))
      (get montreal_coordinates "units") in
  (forall e, Weather.fetch net_down req = Throw e ->
             Weather.getWeather net_down montreal_coordinates
             = Weather.WErr (or_else (message e) "Unknown error"))
  /\ (forall r, Weather.fetch net_down req = Return r ->
                Weather.resp_ok r = false ->
                Weather.getWeather net_down montreal_coordinates
                = Weather.WErr ("Weather API error ("
                                  ++ Number_toString (Weather.status r) ++ ")"))
  /\ (forall r e, Weather.fetch net_down req = Return r ->
                  Weather.resp_ok r = true ->
                  Weather.json r = Throw e ->
                  Weather.getWeather net_down montreal_coordinates
                  = Weather.WErr (or_else (message e) "Unknown error")).
Proof.
  apply (@WeatherFacts.forecast_failures_are_reported runtime net_down
           montreal_coordinates); reflexivity.
Defined.

Lemma asISODate_shape_witness :
  Weather.asISODate (Str "2025-06-01")
  = if iso_shape "2025-06-01" then Str "2025-06-01" else Undefined.
Proof.
  apply (@WeatherFacts.asISODate_shape runtime "2025-06-01"). reflexivity.
Defined.

(** ** Streams *)

Lemma streamAI_reads_whole_lines_witness :
  StreamAI.streamAI (Return two_lines) = StreamAI.streamAI (Return two_lines_cut)
  /\ fst (StreamAI.streamAI (Return two_lines))
     = fst (StreamAI.run_lines
              (removelast (split_lines (String.concat "" (chunks two_lines))))).
Proof.
  apply (@ChunkFacts.streamAI_reads_whole_lines runtime two_lines
           two_lines_cut); reflexivity.
Defined.

Lemma plain_chat_reads_whole_frames_witness :
  streamAssistant (serving w_text two_frames) [] agent0
  = streamAssistant (serving w_text two_frames_cut) [] agent0.
Proof.
  apply (@ChunkFacts.plain_chat_reads_whole_frames runtime w_text two_frames
           two_frames_cut [] agent0); reflexivity.
Defined.

Lemma unterminated_frame_is_dropped_witness :
  let row := mkMsg assistant "" (now w_text (clock_reads agent0)) in
  streamAssistant (serving w_text cut_short) [] agent0
  = (mkAgent (name agent0)
       (mkState (model (state agent0)) (messages (state agent0) ++ [row])%list
                (createdAt (state agent0))
                (now w_text (S (clock_reads agent0)) + DAY))
       (rows agent0 ++ [row])%list (sent agent0 ++ [Done])%list
       (S (S (clock_reads agent0))), Return tt).
Proof.
  apply (@ChunkFacts.unterminated_frame_is_dropped runtime w_text cut_short
           [] agent0).
  reflexivity.
Defined.

(** ** The worker *)

Lemma session_id_precedence_witness :
  Worker.getOrCreateSession plain_deployment returning_visitor
  = issued plain_deployment
      match @None string,
            cookie_id "theme=dark; cf_session=abc-123; lang=en" with
      | Some s, _ => s
      | None, Some id => id
      | None, None => Worker.randomUUID plain_deployment
      end
  /\ (forall id tail,
         id <> "" -> every Worker.sid_char id = true ->
         closes_id tail = true ->
         cookie_id ("cf_session=" ++ id ++ tail) = Some id)
  /\ cookie_id "" = None.
Proof.
  apply (@WorkerFacts.session_id_precedence runtime plain_deployment
           returning_visitor None).
  reflexivity.
Defined.

(** The session of that request is the one of its cookie; a valid [sid]
    parameter goes before the cookie. *)
Example session_of_returning_visitor :
  Worker.getOrCreateSession plain_deployment returning_visitor
  = issued plain_deployment "abc-123"
  /\ Worker.getOrCreateSession deployment returning_visitor
     = issued deployment "0f8fad5b-d9cb-469f-a165-70867728950e".
Proof. vm_compute. split; reflexivity. Qed.

(** The id of a cookie header, read from the left: after other cookies,
    within a longer name, and not at all. *)
Example cookie_ids :
  cookie_id "theme=dark; cf_session=abc-123; lang=en" = Some "abc-123"
  /\ cookie_id "xcf_session=abc" = Some "abc"
  /\ cookie_id "cf_session=; cf_session=second" = Some "second"
  /\ cookie_id "cf_session=ABC" = None
  /\ cookie_id "theme=dark" = None.
Proof. vm_compute. repeat split. Qed.

Lemma capture_link_is_served_witness :
  let sid := "0f8fad5b-d9cb-469f-a165-70867728950e" in
  let request :=
    get_request ("/files/" ++ sid ++ "/"
                   ++ Capture.randomUUID browser_ok ++ ".png") in
  (forall r p,
      Capture.captureScreenshot browser_ok sid (shot "https://example.com")
                                Capture.start
      = (r, Return (Capture.Ok p)) ->
      Worker.pathname deployment (Worker.url request)
      = Return (Capture.sso_url p) ->
      Worker.fetch deployment request
      = match Worker.bucket_get deployment (Capture.sso_r2Key p) with
        | Return (Some obj) =>
            Return (Worker.stream_object obj
                      (Capture.randomUUID browser_ok ++ ".png")
                      [("cache-control",
                        "private, max-age=0, must-revalidate")])
        | Return None => Return (Worker.mkResponse 404 [] "Not found")
        | Throw e => Throw e
        end)
  /\ (forall r p,
         Capture.convertToPdf browser_ok sid (print "https://example.com")
                              Capture.start
         = (r, Return (Capture.Ok p)) ->
         Worker.pathname deployment (Worker.url request)
         = Return (Capture.pdo_url p) ->
         Worker.fetch deployment request
         = match Worker.bucket_get deployment (Capture.pdo_r2Key p) with
           | Return (Some obj) =>
               Return (Worker.stream_object obj
                         (Capture.randomUUID browser_ok ++ ".pdf")
                         [("cache-control",
                           "private, max-age=0, must-revalidate")])
           | Return None => Return (Worker.mkResponse 404 [] "Not found")
           | Throw e => Throw e
           end).
Proof.
  apply (@WorkerFacts.capture_link_is_served runtime deployment urls
           browser_ok "0f8fad5b-d9cb-469f-a165-70867728950e"
           (shot "https://example.com") (print "https://example.com")
           (get_request ("/files/0f8fad5b-d9cb-469f-a165-70867728950e/"
                           ++ Capture.randomUUID browser_ok ++ ".png"))).
  - split; [discriminate|reflexivity].
  - split; [discriminate|reflexivity].
  - reflexivity.
  - intros ext. reflexivity.
Defined.

Lemma file_route_needs_a_name_witness :
  (Worker.pathname deployment (Worker.url (get_request "/files/abc"))
   = Return ("/files/" ++ "abc") ->
   Worker.fetch deployment (get_request "/files/abc")
   = Return (Worker.mkResponse 400 [] "Bad Request"))
  /\ (Worker.pathname deployment (Worker.url (get_request "/files/abc"))
      = Return ("/api/files/" ++ "abc") ->
      Worker.fetch deployment (get_request "/files/abc")
      = Return (Worker.mkResponse 400 [] "Bad Request")).
Proof.
  apply (@WorkerFacts.file_route_needs_a_name runtime deployment
           (get_request "/files/abc") "abc"); reflexivity.
Defined.

(** The link of a screenshot, followed: the stored image comes back. *)
Example screenshot_link_followed :
  match Capture.captureScreenshot browser_ok
          "0f8fad5b-d9cb-469f-a165-70867728950e" (shot "https://example.com")
          Capture.start with
  | (_, Return (Capture.Ok p)) =>
      Worker.fetch deployment (get_request (Capture.sso_url p))
      = Return (Worker.mkResponse 200
                  [("content-type", "image/png");
                   ("content-disposition",
                    "inline; filename=" ++ dq
                      ++ "3f2b6c1e-0000-4000-8000-000000000000.png" ++ dq);
                   ("cache-control", "private, max-age=0, must-revalidate")]
                  "PNG")
  | _ => False
  end.
Proof.
  vm_compute. reflexivity.
Qed.

(** ** Sample runs *)

(** The frames of a screenshot turn, and of one whose browser is refused:
    the handler throws and the tool stays without its last frame. *)
Example frames_of_a_screenshot_turn :
  let text := Str "Take a screenshot of https://example.com" in
  let refusing := world_of (ai_text "Hello!") browser_down in
  protocol (sent (fst (chat w_text text agent0))) = Some Finished
  /\ protocol (sent (fst (chat refusing text agent0)))
     = Some (Running "screenshot")
  /\ snd (chat refusing text agent0)
     = Throw (mkError "Error" "Unable to create new browser: code: 429").
Proof.
  vm_compute. repeat split.
Qed.

(** A capture that fails, and one that succeeds. *)
Example refused_navigation :
  snd (Capture.captureScreenshot (browser_unreachable refused) "s"
         (shot "https://example.com") Capture.start)
  = Return (Capture.Failed "Navigation failed" Capture.NAV_FAIL).
Proof.
  vm_compute. reflexivity.
Qed.

Example rendered_pdf :
  snd (Capture.convertToPdf browser_ok "s" (print "https://example.com")
         Capture.start)
  = Return (Capture.Ok
              (Capture.mkPdfOk
                 "/files/s/3f2b6c1e-0000-4000-8000-000000000000.pdf"
                 "files/s/3f2b6c1e-0000-4000-8000-000000000000.pdf"
                 "application/pdf" 8192 "https://example.com/")).
Proof.
  vm_compute. reflexivity.
Qed.

(** A timeout that is NaN reaches the browser: one that refuses timeouts
    out of range fails the call, which the same browser without the check
    lets through. *)
Example nan_timeout :
  let args := Capture.mkScreenshotArgs "https://example.com" None None None
                                       (Some NaN) in
  Capture.clamp_timeout (Capture.ss_timeoutMs args) = NaN
  /\ snd (Capture.captureScreenshot (CaptureLogic.strict browser_ok) "s" args
            Capture.start)
     = Return (Capture.Failed "Capture failed" Capture.CAPTURE_FAIL)
  /\ Capture.is_ok
       match snd (Capture.captureScreenshot browser_ok "s" args
                    Capture.start) with
       | Return r => r
       | Throw _ => Capture.Failed "" Capture.CAPTURE_FAIL
       end = true.
Proof. vm_compute. repeat split. Qed.

End Instances.
